(** * PM2.5 dashboard: the client-side aggregation components

    A shallow embedding of the pure computations inside the React
    components of the dashboard, and the properties established for them:

    - [Heatmap.matrix] and the cell average (components/Heatmap.tsx),
    - [DailyHeatmap.calendarData] (components/DailyHeatmap.tsx),
    - [TrendChart.chartData] (components/TrendChart.tsx),
    - [calculateMedian] and [SeasonalChart.processedData]
      (components/SeasonalChart.tsx),
    - the two versions of [HealthChart.chartData]
      (components/HealthChart.tsx),
    - the station filters, the year lists and the selection effects of
      [App] (App.tsx) and of [Region6Page], with its averaged series,
    - the search box of [StationSelector]
      (components/StationSelector.tsx).

    Conventions of the embedding.

    - A JavaScript [number] holding a measurement is a rational ([Q]);
      arithmetic is exact and results are compared with [==].  The
      statements say which values a sum or a mean is taken over, and in
      which order; they say nothing of how binary64 rounds it.  Where the
      code rounds a result to a digit ([Math.round] in [Region6Page]),
      which depends on the binary64 value, the expression is a parameter
      of the embedding.  Integers that the code uses as calendar fields,
      indices and counts are [Z] or [nat].
    - [null] is [None]; where the code distinguishes [null], [undefined]
      and a number, the three-way type [jsval] is used.
    - [Map<string, _>] and [Record<string, _>] are [gmap string _];
      [Record<number, _>] is [gmap Z _]; arrays are lists.
    - The [useMemo] wrappers are dropped: each memoised value is the pure
      function of its dependency list. *)

From Stdlib Require Import ZArith QArith Lia Lqa List Ascii String.
From Stdlib Require Import Sorting.Permutation Sorting.Sorted.
From stdpp Require Import base decidable option list strings pretty gmap.

Local Open Scope Z_scope.

(** ** Dates

    The components read dates through the JavaScript [Date] object and
    the date-fns helpers.  Readings carry day-precision ISO strings
    ("YYYY-MM-DD", the input file contract), so a valid [Date] is
    modelled by its civil fields; [None] stands for the [Invalid Date]
    object, whose getters return [NaN].  The host time zone is taken to
    be UTC (a zone east of it without daylight saving, such as UTC+7,
    behaves alike), so that the local getters applied to [new Date(s)]
    see the fields written in [s].  A [Date] built from a year is
    [Invalid Date] outside the range of time values of the language. *)

Module JSDate.

(** [month] is 0-based as in JavaScript; [day] is the day of the month. *)
Record civil := mkCivil { year : Z; month : Z; day : Z }.

Definition t := option civil.

Definition isLeapYear (y : Z) : bool :=
  (y mod 4 =? 0) && (negb (y mod 100 =? 0) || (y mod 400 =? 0)).

Definition daysInMonth (y m : Z) : Z :=
  if m =? 1 then (if isLeapYear y then 29 else 28)
  else if (m =? 3) || (m =? 5) || (m =? 8) || (m =? 10) then 30
  else 31.

(** Days elapsed since 1970-01-01 in the proleptic Gregorian calendar;
    [m] is 0-based.  The year is shifted to start in March so that the
    leap day comes last. *)
Definition daysFromCivil (y m d : Z) : Z :=
  let y' := if m <? 2 then y - 1 else y in
  let era := y' / 400 in
  let yoe := y' - era * 400 in
  let mp := if m <? 2 then m + 10 else m - 2 in
  let doy := (153 * mp + 2) / 5 + d - 1 in
  let doe := yoe * 365 + yoe / 4 - yoe / 100 + doy in
  era * 146097 + doe - 719468.

Definition epochDay (c : civil) : Z := daysFromCivil (year c) (month c) (day c).

Definition MS_PER_DAY : Z := 86400000.

(** [date.getTime()]: [None] is [NaN]. *)
Definition getTime (d : t) : option Z :=
  (fun c => epochDay c * MS_PER_DAY) <$> d.

(** [date.getFullYear()] / date-fns [getYear]. *)
Definition getFullYear (d : t) : option Z := year <$> d.
(** [date.getMonth()] / date-fns [getMonth]: 0 to 11. *)
Definition getMonth (d : t) : option Z := month <$> d.

(** Day of the week of an epoch day, Sunday = 0 ... Saturday = 6
    (1970-01-01 was a Thursday). *)
Definition weekdayOfEpochDay (n : Z) : Z := (n + 4) mod 7.

(** date-fns [getDay] on a valid date: 0 for Sunday, 1 for Monday, ... *)
Definition getDay (c : civil) : Z := weekdayOfEpochDay (epochDay c).

(** date-fns [startOfISOWeek] (weeks start on Monday), as an epoch day. *)
Definition startOfISOWeek (n : Z) : Z :=
  let wd := weekdayOfEpochDay n in
  let diff := (if wd <? 1 then 7 else 0) + wd - 1 in
  n - diff.

(** date-fns [getISOWeekYear]. *)
Definition getISOWeekYear (c : civil) : Z :=
  let y := year c in
  let startOfNextYear := startOfISOWeek (daysFromCivil (y + 1) 0 4) in
  let startOfThisYear := startOfISOWeek (daysFromCivil y 0 4) in
  if startOfNextYear <=? epochDay c then y + 1
  else if startOfThisYear <=? epochDay c then y
  else y - 1.

(** date-fns [startOfISOWeekYear]. *)
Definition startOfISOWeekYear (c : civil) : Z :=
  startOfISOWeek (daysFromCivil (getISOWeekYear c) 0 4).

(** date-fns [getISOWeek]: the library divides the millisecond
    difference by one week and rounds; on day-precision dates in UTC the
    difference is a whole number of weeks. *)
Definition getISOWeek (c : civil) : Z :=
  (startOfISOWeek (epochDay c) - startOfISOWeekYear c) / 7 + 1.

(** *** Parsing "YYYY-MM-DD" *)

Definition digit (c : ascii) : option Z :=
  let n := Z.of_N (N_of_ascii c) in
  if (48 <=? n) && (n <=? 57) then Some (n - 48) else None.

Definition validCivil (y m d : Z) : bool :=
  (0 <=? m) && (m <=? 11) && (1 <=? d) && (d <=? daysInMonth y m).

(** The fields of a string of ten characters, once its two separators
    are known to be dashes. *)
Definition parseFields (y1 y2 y3 y4 m1 m2 d1 d2 : ascii) : t :=
  y1 ← digit y1; y2 ← digit y2; y3 ← digit y3; y4 ← digit y4;
  m1 ← digit m1; m2 ← digit m2; d1 ← digit d1; d2 ← digit d2;
  let y := 1000 * y1 + 100 * y2 + 10 * y3 + y4 in
  let m := 10 * m1 + m2 - 1 in
  let d := 10 * d1 + d2 in
  if validCivil y m d then Some (mkCivil y m d) else None.

(** The calendar-date form of the input contract.  Both [new Date(s)]
    and date-fns [parseISO(s)] are modelled by it: a string that is not
    a well-formed "YYYY-MM-DD" calendar date yields [Invalid Date].
    Strings of other forms that the two parsers accept (a time part, an
    expanded year of six digits) lie outside the contract and are not
    modelled. *)
Definition parse (s : string) : t :=
  match s with
  | String y1 (String y2 (String y3 (String y4 (String sep1
    (String m1 (String m2 (String sep2
    (String d1 (String d2 EmptyString))))))))) =>
      if Ascii.eqb sep1 "-" && Ascii.eqb sep2 "-"
      then parseFields y1 y2 y3 y4 m1 m2 d1 d2
      else None
  | _ => None
  end.

(** *** The range of the [Date] object

    A [Date] holds a time value of at most 8.64e15 milliseconds on either
    side of the epoch, which is 100 000 000 days; the constructor and the
    setters yield [Invalid Date] beyond it (the TimeClip operation of the
    language). *)
Definition MAX_DAY : Z := 100000000.

(** A day-precision date as a [Date] object: its midnight has to lie in
    the range. *)
Definition timeClip (c : civil) : t :=
  if (- MAX_DAY <=? epochDay c) && (epochDay c <=? MAX_DAY)
  then Some c else None.

(** The last millisecond of a day as a [Date] object: the day has to end
    within the range, which leaves out the last representable day. *)
Definition timeClipEndOfDay (c : civil) : t :=
  if (- MAX_DAY <=? epochDay c) && (epochDay c <? MAX_DAY)
  then Some c else None.

(** The fields that [new Date(year, 0, 1)] denotes: the constructor maps
    a year from 0 to 99 to 1900 + year. *)
Definition newDateJan1 (y : Z) : civil :=
  mkCivil (if (0 <=? y) && (y <=? 99) then 1900 + y else y) 0 1.

(** [new Date(year, 0, 1)]. *)
Definition newDate (y : Z) : t := timeClip (newDateJan1 y).

(** date-fns [startOfYear]: [setFullYear(year, 0, 1)] and
    [setHours(0, 0, 0, 0)] on a copy of the date. *)
Definition startOfYear (d : t) : t :=
  c ← d; timeClip (mkCivil (year c) 0 1).

(** date-fns [endOfYear]: [setFullYear(year + 1, 0, 0)] and
    [setHours(23, 59, 59, 999)] on a copy of the date.  At day precision
    the result is the 31 December that it falls on. *)
Definition endOfYear (d : t) : t :=
  c ← d; timeClipEndOfDay (mkCivil (year c) 11 31).

(** Every day of a year in calendar order. *)
Definition eachDayOfYear (y : Z) : list civil :=
  m ← seqZ 0 12; (fun d => mkCivil y m d) <$> seqZ 1 (daysInMonth y m).

(** The days from [s] to [e], both valid, in calendar order. *)
Definition daysOfInterval (s e : civil) : list civil :=
  filter (fun c => epochDay s <= epochDay c <= epochDay e)
         (y ← seqZ (year s) (year e - year s + 1); eachDayOfYear y).

(** The sources do not pin the release of date-fns, and the releases
    differ on an interval with an [Invalid Date] at either end: release 2
    throws [RangeError('Invalid interval')], releases 3 and 4 return no
    day at all (their loop [while (+date <= endTime)] is not entered).
    [DateFns3] stands for both of the latter. *)
Inductive release := DateFns2 | DateFns3.

(** date-fns [eachDayOfInterval({start, end})] with [start] not after
    [end]; the result is [None] where the call throws. *)
Definition eachDayOfInterval (r : release) (s e : t) : option (list civil) :=
  match s, e with
  | Some s, Some e => Some (daysOfInterval s e)
  | _, _ => match r with DateFns2 => None | DateFns3 => Some [] end
  end.

(** date-fns [addLeadingZeros]. *)
Definition addLeadingZeros (n : Z) (targetLength : nat) : string :=
  let digits := pretty (Z.abs n) in
  let pad := string_of_list_ascii
               (replicate (targetLength - String.length digits) "0"%char) in
  (if n <? 0 then "-" else EmptyString) +:+ pad +:+ digits.

(** date-fns [format(date, 'yyyy-MM-dd')]. *)
Definition format_yyyy_MM_dd (c : civil) : string :=
  let signedYear := year c in
  let y := if 0 <? signedYear then signedYear else 1 - signedYear in
  addLeadingZeros y 4 +:+ "-" +:+ addLeadingZeros (month c + 1) 2
    +:+ "-" +:+ addLeadingZeros (day c) 2.

End JSDate.

(** ** Readings and JavaScript values *)

Record DataPoint := mkDataPoint { date : string; value : Q }.

(** A value that may be a number, [null] or [undefined]. *)
Inductive jsval :=
| JNum (q : Q)
| JNull
| JUndefined.

(** [x !== null]. *)
Definition notNull (v : jsval) : bool :=
  match v with JNull => false | _ => true end.

(** Truthiness of a number: [0] is falsy. *)
Definition truthy (q : Q) : bool := negb (Qeq_bool q 0).

(** [values.reduce((a, b) => a + b, 0)]. *)
Definition reduceSum (values : list Q) : Q :=
  fold_left Qplus values 0%Q.

(** [vals.length > 0 ? vals.reduce((a, b) => a + b, 0) / vals.length : null]. *)
Definition averageOrNull (vals : list Q) : option Q :=
  if (0 <? length vals)%nat
  then Some (reduceSum vals / inject_Z (Z.of_nat (length vals)))%Q
  else None.

(** [Array.prototype.sort(compareFn)].  The comparator returns a number;
    [None] stands for [NaN], which the language treats as [+0].  The sort
    is stable (ECMAScript 2019); it is modelled by a stable insertion
    sort, with which every stable sort agrees on a consistent comparator. *)
Section ArraySort.
Context {A : Type} (compareFn : A -> A -> option Q).

Definition sortCompare (x y : A) : Q := default 0%Q (compareFn x y).

(** [sortCompare x y > 0]. *)
Definition sortsAfter (x y : A) : bool := negb (Qle_bool (sortCompare x y) 0).

Fixpoint insertSorted (x : A) (l : list A) : list A :=
  match l with
  | [] => [x]
  | y :: l' => if sortsAfter x y then y :: insertSorted x l' else x :: l
  end.

Definition arraySort (l : list A) : list A := foldr insertSorted [] l.
End ArraySort.

(** ** TrendChart: the moving-average filter (components/TrendChart.tsx) *)

Module TrendChart.

(** One element of [chartData]: [{...point, ma}]. *)
Record Row := mkRow { rdate : string; rvalue : Q; ma : option Q }.

(** [new Date(p.date).getTime()]. *)
Definition timeOf (p : DataPoint) : option Z :=
  JSDate.getTime (JSDate.parse (date p)).

(** [(a, b) => new Date(a.date).getTime() - new Date(b.date).getTime()]. *)
Definition compareByDate (a b : DataPoint) : option Q :=
  ta ← timeOf a; tb ← timeOf b; Some (inject_Z ta - inject_Z tb)%Q.

(** The inner loop
    [for (let i = 0; i < windowSize; i++) sum += array[index - i].value].
    The guard [index >= windowSize - 1] keeps [index - i] inside the
    array. *)
Definition windowSum (array : list DataPoint) (index windowSize : Z) : Q :=
  fold_left
    (fun sum i =>
       (sum + from_option value 0 (array !! Z.to_nat (index - i)))%Q)
    (seqZ 0 windowSize) 0%Q.

Definition chartData (data : list DataPoint) (windowSize : Z) : list Row :=
  if (length data =? 0)%nat then []
  else
    let sorted := arraySort compareByDate data in
    imap (fun index point =>
            let index := Z.of_nat index in
            let ma :=
              if windowSize - 1 <=? index
              then Some (windowSum sorted index windowSize
                         / inject_Z windowSize)%Q
              else None in
            mkRow (date point) (value point) ma)
         sorted.

End TrendChart.

(** ** SeasonalChart: the seasonal comparator (components/SeasonalChart.tsx) *)

Module SeasonalChart.

(** [calculateMedian]; [sorted[k]] is read inside the array. *)
Definition calculateMedian (values : list Q) : Q :=
  if (length values =? 0)%nat then 0%Q
  else
    let sorted := arraySort (fun a b => Some (a - b)%Q) values in
    let mid := (length sorted / 2)%nat in
    if negb (length sorted mod 2 =? 0)%nat
    then nth mid sorted 0%Q
    else ((nth (mid - 1) sorted 0 + nth mid sorted 0) / 2)%Q.

Definition currentYear : Z := 2025.
Definition prevYear : Z := 2024.
Definition medianStartYear : Z := 2020.
Definition medianEndYear : Z := 2024.

Definition monthNames : list string :=
  ["Jan"; "Feb"; "Mar"; "Apr"; "May"; "Jun";
   "Jul"; "Aug"; "Sep"; "Oct"; "Nov"; "Dec"]%string.

Record Row := mkRow {
  rmonth : string;
  current : option Q;
  prev : option Q;
  median : option Q
}.

(** The three [Record<number, number[]>] bucket tables. *)
Record Buckets := mkBuckets {
  monthlyData2025 : gmap Z (list Q);
  monthlyData2024 : gmap Z (list Q);
  monthlyDataMedian : gmap Z (list Q)
}.

(** [for (let i = 0; i < 12; i++) table[i] = []]. *)
Definition emptyTable : gmap Z (list Q) :=
  fold_left (fun t i => <[i := []]> t) (seqZ 0 12) ∅.

Definition initBuckets : Buckets := mkBuckets emptyTable emptyTable emptyTable.

(** [table[month].push(val)]; [month] is a number whenever the year
    test that guards the call succeeds. *)
Definition push (month : option Z) (val : Q) (t : gmap Z (list Q)) :
    gmap Z (list Q) :=
  match month with
  | Some m => alter (fun l => l ++ [val]) m t
  | None => t
  end.

(** The body of [data.forEach]; a [NaN] year fails every comparison. *)
Definition collect (b : Buckets) (d : DataPoint) : Buckets :=
  let date := JSDate.parse (date d) in
  let year := JSDate.getFullYear date in
  let month := JSDate.getMonth date in
  let val := value d in
  let b1 := if bool_decide (year = Some currentYear)
            then push month val (monthlyData2025 b) else monthlyData2025 b in
  let b2 := if bool_decide (year = Some prevYear)
            then push month val (monthlyData2024 b) else monthlyData2024 b in
  let b3 := if from_option (fun y => (medianStartYear <=? y) && (y <=? medianEndYear))
                           false year
            then push month val (monthlyDataMedian b) else monthlyDataMedian b in
  mkBuckets b1 b2 b3.

(** The body of the second loop: the row pushed for month [i]. *)
Definition monthRow (b : Buckets) (i : Z) : Row :=
  let vals2025 := default [] (monthlyData2025 b !! i) in
  let vals2024 := default [] (monthlyData2024 b !! i) in
  let valsMedian := default [] (monthlyDataMedian b !! i) in
  mkRow (default EmptyString (monthNames !! Z.to_nat i))
        (averageOrNull vals2025)
        (averageOrNull vals2024)
        (if (0 <? length valsMedian)%nat
         then Some (calculateMedian valsMedian) else None).

Definition processedData (data : list DataPoint) : list Row :=
  if (length data =? 0)%nat then []
  else
    let b := fold_left collect data initBuckets in
    monthRow b <$> seqZ 0 12.

End SeasonalChart.

(** ** Heatmap: the month aggregator (components/Heatmap.tsx) *)

Module Heatmap.

(** The accumulator stored per key. *)
Record Entry := mkEntry { sum : Q; count : Z }.

(** The template literal [`${year}-${month}`]. *)
Definition key (year month : Z) : string :=
  pretty year +:+ "-" +:+ pretty month.

(** The body of [data.forEach]: an invalid date returns early. *)
Definition accumulate (map : gmap string Entry) (d : DataPoint) :
    gmap string Entry :=
  match JSDate.parse (date d) with
  | None => map
  | Some c =>
      let year := JSDate.year c in
      let month := JSDate.month c in
      let key := key year month in
      let entry := default (mkEntry 0 0) (map !! key) in
      let entry := mkEntry (sum entry + value d)%Q (count entry + 1) in
      <[key := entry]> map
  end.

(** [Array.from(new Set(xs))]: first occurrences, in order. *)
Fixpoint dedupe (seen : list Z) (xs : list Z) : list Z :=
  match xs with
  | [] => []
  | x :: xs' =>
      if bool_decide (x ∈ seen) then dedupe seen xs'
      else x :: dedupe (x :: seen) xs'
  end.

(** [Array.prototype.sort()] without a comparator orders by the string
    form of the elements. *)
Definition defaultCompare (x y : Z) : option Q :=
  match String.compare (pretty x) (pretty y) with
  | Lt => Some (-1)%Q
  | Eq => Some 0%Q
  | Gt => Some 1%Q
  end.

Definition years (data : list DataPoint) : list Z :=
  arraySort defaultCompare
    (dedupe [] (omap (fun d => JSDate.getFullYear (JSDate.parse (date d))) data)).

Definition matrix (data : list DataPoint) : gmap string Entry * list Z :=
  (fold_left accumulate data ∅, years data).

(** The cell of the grid for [year] and [monthIdx]:
    [entry ? entry.sum / entry.count : null]. *)
Definition cellAverage (m : gmap string Entry * list Z) (year monthIdx : Z) :
    option Q :=
  match m.1 !! key year monthIdx with
  | Some entry => Some (sum entry / inject_Z (count entry))%Q
  | None => None
  end.

(** The colour scale, [getColor]. *)
Definition getColor (value : Q) : string :=
  if Qle_bool value 15 then "bg-blue-100 text-blue-900"
  else if Qle_bool value 25 then "bg-emerald-100 text-emerald-900"
  else if Qle_bool value 37.5 then "bg-yellow-100 text-yellow-900"
  else if Qle_bool value 75 then "bg-orange-100 text-orange-900"
  else "bg-red-200 text-red-900".

(** The class of a grid cell:
    [avg !== null ? getColor(avg) : "bg-slate-50"]. *)
Definition cellClass (avg : option Q) : string :=
  match avg with
  | Some avg => getColor avg
  | None => "bg-slate-50"
  end.

(** The test [avg ? ... : ...] of the cell text and of its title: whether
    the cell shows the average, or '-' and 'No Data'. *)
Definition cellShowsNumber (avg : option Q) : bool :=
  match avg with
  | Some avg => truthy avg
  | None => false
  end.

End Heatmap.

(** ** DailyHeatmap: the day frame (components/DailyHeatmap.tsx) *)

Module DailyHeatmap.

Record Day := mkDay {
  ddate : JSDate.civil;
  dateStr : string;
  dvalue : option Q
}.

(** [dataMap.get(dateStr) || null]. *)
Definition getOrNull (dataMap : gmap string Q) (dateStr : string) : option Q :=
  match dataMap !! dateStr with
  | Some v => if truthy v then Some v else None
  | None => None
  end.

Definition buildDataMap (data : list DataPoint) : gmap string Q :=
  fold_left (fun m d => <[date d := value d]> m) data ∅.

(** [getDay(startDate)] where [startDate] is a valid date: the number of
    padding cells. *)
Definition startDay (year : Z) : Z :=
  JSDate.getDay (JSDate.newDateJan1 year).

(** The memoised frame.  An element is [None] for a padding cell
    ([null]).  The result is [None] where the code throws a [RangeError]:
    on a year that the [Date] object cannot hold, [startDate] is
    [Invalid Date], [getDay] returns [NaN] and [Array(NaN)] throws (under
    release 2 of date-fns [eachDayOfInterval] throws before that). *)
Definition calendarData (r : JSDate.release) (data : list DataPoint)
    (year : Z) : option (list (option Day)) :=
  let startDate := JSDate.startOfYear (JSDate.newDate year) in
  let endDate := JSDate.endOfYear (JSDate.newDate year) in
  allDays ← JSDate.eachDayOfInterval r startDate endDate;
  let dataMap := buildDataMap data in
  let days :=
    (fun date =>
       let dateStr := JSDate.format_yyyy_MM_dd date in
       mkDay date dateStr (getOrNull dataMap dateStr)) <$> allDays in
  startDay ← JSDate.getDay <$> startDate;
  let padding := replicate (Z.to_nat startDay) None in
  Some (padding ++ (Some <$> days)).

(** The component's own copy of the colour scale. *)
Definition getColor (value : Q) : string :=
  if Qle_bool value 15 then "bg-blue-100 text-blue-900"
  else if Qle_bool value 25 then "bg-emerald-100 text-emerald-900"
  else if Qle_bool value 37.5 then "bg-yellow-100 text-yellow-900"
  else if Qle_bool value 75 then "bg-orange-100 text-orange-900"
  else "bg-red-200 text-red-900".

(** The class of a day cell:
    [day.value !== null ? getColor(day.value)
                        : "bg-slate-50 border border-slate-100"]. *)
Definition dayClass (day : Day) : string :=
  match dvalue day with
  | Some v => getColor v
  | None => "bg-slate-50 border border-slate-100"
  end.

(** The test [day.value ? ... : 'No Data'] of the title of a day cell. *)
Definition dayShowsNumber (day : Day) : bool :=
  match dvalue day with
  | Some v => truthy v
  | None => false
  end.

End DailyHeatmap.

(** ** HealthChart: the weekly aligner (components/HealthChart.tsx)

    The repository carries two versions of the component.  They share the
    validation guard and the weekly PM2.5 buckets and differ in how the
    case count of a week is obtained. *)

Module HealthChart.

(** One year of one province in [hdc_consolidated.json]. *)
Record YearHDC := mkYearHDC {
  weeks : list Z;
  diseases : gmap string (list Q)
}.

Record Metadata := mkMetadata {
  description : string;
  source : string;
  groups : list string
}.

Record HDCData := mkHDCData {
  metadata : Metadata;
  data : gmap string (gmap Z YearHDC)
}.

(** The validation guard at the head of [chartData]: the year record it
    lets through, or [None] where the code returns [[]]. *)
Definition validate (pm25Data : list DataPoint) (province : string)
    (hdcData : option HDCData) (selectedYear : Z) : option (HDCData * YearHDC) :=
  hdc ← hdcData;
  byYear ← data hdc !! province;
  yearHDC ← byYear !! selectedYear;
  if (length pm25Data =? 0)%nat then None else Some (hdc, yearHDC).

(** [for (let i = 1; i <= 53; i++) weeklyPM25[i] = []]. *)
Definition emptyWeeks : gmap Z (list Q) :=
  fold_left (fun t i => <[i := []]> t) (seqZ 1 53) ∅.

(** The body of [pm25Data.forEach]. *)
Definition collectWeek (selectedYear : Z) (weeklyPM25 : gmap Z (list Q))
    (d : DataPoint) : gmap Z (list Q) :=
  match JSDate.parse (date d) with
  | None => weeklyPM25
  | Some c =>
      if JSDate.year c =? selectedYear then
        let week := JSDate.getISOWeek c in
        if bool_decide (is_Some (weeklyPM25 !! week))
        then alter (fun l => l ++ [value d]) week weeklyPM25
        else weeklyPM25
      else weeklyPM25
  end.

Definition weeklyPM25 (pm25Data : list DataPoint) (selectedYear : Z) :
    gmap Z (list Q) :=
  fold_left (collectWeek selectedYear) pm25Data emptyWeeks.

(** [avgPM25] of week [weekNum]. *)
Definition avgPM25 (weekly : gmap Z (list Q)) (weekNum : Z) : option Q :=
  averageOrNull (default [] (weekly !! weekNum)).

(** [counts[i]] on an array of numbers: [undefined] past the end. *)
Definition index (counts : list Q) (i : Z) : jsval :=
  match counts !! Z.to_nat i with
  | Some n => JNum n
  | None => JUndefined
  end.

(** [Object.keys(hdcData.data[province]).map(Number).sort((a,b) => b-a)],
    the years offered by the year selector.  The keys of an object are
    distinct, so the order in which they are listed before sorting has no
    effect on the result. *)
Definition availableYears (byYear : gmap Z YearHDC) : list Z :=
  arraySort (fun a b => Some (inject_Z b - inject_Z a)%Q) (map_to_list byYear).*1.

Module V1.

Record Row := mkRow { week : Z; pm25 : option Q; cases : jsval }.

(** [diseaseCounts ? diseaseCounts[i] : null]. *)
Definition caseCount (yearHDC : YearHDC) (selectedDisease : string) (i : Z) :
    jsval :=
  match diseases yearHDC !! selectedDisease with
  | Some diseaseCounts => index diseaseCounts i
  | None => JNull
  end.

(** The body of the loop over [i]: the row pushed, if any. *)
Definition weekRow (weekly : gmap Z (list Q)) (yearHDC : YearHDC)
    (selectedDisease : string) (i : Z) : option Row :=
  let weekNum := i + 1 in
  let avg := avgPM25 weekly weekNum in
  let caseCount := caseCount yearHDC selectedDisease i in
  if bool_decide (avg ≠ None) || notNull caseCount
  then Some (mkRow weekNum avg caseCount)
  else None.

Definition chartData (pm25Data : list DataPoint) (province : string)
    (hdcData : option HDCData) (selectedDisease : string)
    (selectedYear : Z) : list Row :=
  match validate pm25Data province hdcData selectedYear with
  | None => []
  | Some (_, yearHDC) =>
      let weekly := weeklyPM25 pm25Data selectedYear in
      omap (weekRow weekly yearHDC selectedDisease) (seqZ 0 53)
  end.

End V1.

Module V2.

(** A row is the object
    [{week, pm25, cases, ...groupCounts}]: the spread of the group
    counts comes last and an absent key reads as [undefined]. *)
Abbreviation Row := (gmap string jsval).

Definition field (r : Row) (k : string) : jsval := default JUndefined (r !! k).

Definition ofOption (o : option Q) : jsval :=
  match o with Some q => JNum q | None => JNull end.

(** The state of the [groups.forEach] loop. *)
Record Acc := mkAcc {
  groupCounts : gmap string Q;
  totalCases : Q;
  hasHealthData : bool
}.

(** [if (counts && counts[i] !== undefined) { ... }]. *)
Definition addGroup (yearHDC : YearHDC) (i : Z) (a : Acc) (g : string) : Acc :=
  match diseases yearHDC !! g with
  | Some counts =>
      match index counts i with
      | JNum n => mkAcc (<[g := n]> (groupCounts a)) (totalCases a + n)%Q true
      | _ => a
      end
  | None => a
  end.

Definition groupLoop (groups : list string) (yearHDC : YearHDC) (i : Z) : Acc :=
  fold_left (addGroup yearHDC i) groups (mkAcc ∅ 0%Q false).

(** [groupCounts[selectedDisease]]. *)
Definition groupCount (a : Acc) (selectedDisease : string) : jsval :=
  match groupCounts a !! selectedDisease with
  | Some n => JNum n
  | None => JUndefined
  end.

(** The object literal; later keys override earlier ones. *)
Definition mkRow (weekNum : Z) (avg : option Q) (cases : jsval)
    (groupCounts : gmap string Q) : Row :=
  (JNum <$> groupCounts) ∪
  <["cases"%string := cases]>
    (<["pm25"%string := ofOption avg]>
       (<["week"%string := JNum (inject_Z weekNum)]> ∅)).

Definition weekRow (weekly : gmap Z (list Q)) (groups : list string)
    (yearHDC : YearHDC) (selectedDisease : string) (i : Z) : option Row :=
  let weekNum := i + 1 in
  let avg := avgPM25 weekly weekNum in
  let a := groupLoop groups yearHDC i in
  if bool_decide (avg ≠ None) || hasHealthData a
  then Some (mkRow weekNum avg
               (if bool_decide (selectedDisease = "Total"%string)
                then JNum (totalCases a)
                else groupCount a selectedDisease)
               (groupCounts a))
  else None.

Definition chartData (pm25Data : list DataPoint) (province : string)
    (hdcData : option HDCData) (selectedDisease : string)
    (selectedYear : Z) : list Row :=
  match validate pm25Data province hdcData selectedYear with
  | None => []
  | Some (hdc, yearHDC) =>
      let weekly := weeklyPM25 pm25Data selectedYear in
      let groups := groups (metadata hdc) in
      omap (weekRow weekly groups yearHDC selectedDisease) (seqZ 0 53)
  end.

End V2.

End HealthChart.

(** ** The station file (pm25_consolidated.json) *)

Module PM25Data.

Record Metadata := mkMetadata {
  minDate : string;
  maxDate : string;
  stations : list string;
  stationNames : option (gmap string string);
  stationProvinces : option (gmap string string);
  stationRegions : option (gmap string string)
}.

Record t := mk {
  metadata : Metadata;
  data : gmap string (list DataPoint)
}.

(** [record?.[key]] on an optional record. *)
Definition optLookup (record : option (gmap string string)) (key : string) :
    option string :=
  record ≫= fun r => r !! key.

End PM25Data.

(** ** App: the station filters and the year list (App.tsx) *)

Module App.
Import PM25Data.

(** [Array.from(new Set(xs))] on numbers: first occurrences, in order.
    [None] stands for [NaN], which a [Set] holds once. *)
Fixpoint dedupe (seen : list (option Z)) (xs : list (option Z)) : list (option Z) :=
  match xs with
  | [] => []
  | x :: xs' =>
      if bool_decide (x ∈ seen) then dedupe seen xs'
      else x :: dedupe (x :: seen) xs'
  end.

(** The predicate of [filteredStations]; a station without an entry in
    the optional record fails the comparison with the selected name. *)
Definition matches (data : t) (selectedRegion selectedProvince s : string) : bool :=
  let matchRegion :=
    if bool_decide (selectedRegion <> "All")
    then bool_decide (optLookup (stationRegions (metadata data)) s = Some selectedRegion)
    else true in
  let matchProvince :=
    if bool_decide (selectedProvince <> "All")
    then bool_decide (optLookup (stationProvinces (metadata data)) s
                      = Some selectedProvince)
    else true in
  matchRegion && matchProvince.

(** [data?.metadata.stations.filter(...) || []]. *)
Definition filteredStations (data : option t)
    (selectedRegion selectedProvince : string) : list string :=
  match data with
  | Some data =>
      List.filter (matches data selectedRegion selectedProvince)
                  (stations (metadata data))
  | None => []
  end.

(** The effect that resets the station when it is filtered out: the
    value of [selectedStation] once it has run. *)
Definition resetStation (filteredStations : list string) (selectedStation : string) :
    string :=
  if (0 <? length filteredStations)%nat
     && negb (bool_decide (selectedStation ∈ filteredStations))
  then default selectedStation (filteredStations !! 0%nat)
  else selectedStation.

(** [(a, b) => b - a] on numbers that may be [NaN]. *)
Definition compareDescending (a b : option Z) : option Q :=
  b ← b; a ← a; Some (inject_Z b - inject_Z a)%Q.

(** [new Date(d.date).getFullYear()]. *)
Definition yearOf (d : DataPoint) : option Z :=
  JSDate.getFullYear (JSDate.parse (date d)).

(** The years offered for the day heatmap. *)
Definition availableYears (stationData : list DataPoint) : list (option Z) :=
  if (0 <? length stationData)%nat
  then arraySort compareDescending (dedupe [] (yearOf <$> stationData))
  else [Some 2025].

(** The effect that follows [availableYears]: the value of [heatmapYear]
    once it has run. *)
Definition heatmapYearEffect (availableYears : list (option Z))
    (heatmapYear : option Z) : option Z :=
  if (0 <? length availableYears)%nat
     && negb (bool_decide (heatmapYear ∈ availableYears))
  then default heatmapYear (availableYears !! 0%nat)
  else heatmapYear.

End App.

(** ** Region6Page: station filters and averaged series (pages/Region6Page.tsx) *)

Module Region6Page.
Import PM25Data.

(** The region that the page is about. *)
Definition region6 : string := "เขตสุขภาพที่ 6".

Definition region6Stations (data : option t) : list string :=
  match data with
  | None => []
  | Some data =>
      List.filter
        (fun s => bool_decide (optLookup (stationRegions (metadata data)) s
                               = Some region6))
        (stations (metadata data))
  end.

Definition filteredStations (data : option t) (region6Stations : list string)
    (selectedProvince : string) : list string :=
  match data with
  | None => []
  | Some data =>
      List.filter
        (fun s => bool_decide (optLookup (stationProvinces (metadata data)) s
                               = Some selectedProvince))
        region6Stations
  end.

(** [dateMap] is a [Map<string, number[]>]: its entries are listed in the
    order in which their keys were first set. *)
Definition DateMap := list (string * list Q).

(** [if (!dateMap.has(d.date)) dateMap.set(d.date, []);
     dateMap.get(d.date)!.push(d.value)]. *)
Fixpoint pushValue (dateMap : DateMap) (date : string) (value : Q) : DateMap :=
  match dateMap with
  | [] => [(date, [value])]
  | (k, values) :: rest =>
      if bool_decide (k = date) then (k, values ++ [value]) :: rest
      else (k, values) :: pushValue rest date value
  end.

(** The body of [stations.forEach]; a station without an entry
    contributes nothing ([data.data[station] || []]). *)
Definition collectStation (data : t) (dateMap : DateMap) (station : string) :
    DateMap :=
  let stationData := default [] (PM25Data.data data !! station) in
  fold_left (fun m d => pushValue m (date d) (value d)) stationData dateMap.

Section Average.

(** The value of a row,
    [Math.round(values.reduce((a, b) => a + b, 0) / values.length * 10) / 10],
    as a function of [values].  The digit that [Math.round] yields depends
    on how binary64 rounds the sum, the quotient and the product (on the
    values 0.6 and 0.7 the code gives 0.6, where the exact mean 0.65 would
    round to 0.7), so the expression is not read in exact arithmetic: it
    is a parameter of the embedding. *)
Context (roundedMean : list Q -> Q).

(** [{date, value: Math.round(sum / values.length * 10) / 10}]. *)
Definition averageRow (entry : string * list Q) : DataPoint :=
  let '(date, values) := entry in
  mkDataPoint date (roundedMean values).

(** The body that [provinceAverageData] and [regionAverageData] share,
    as a function of the list of stations that each of them walks. *)
Definition averageData (data : option t) (stations : list string) : list DataPoint :=
  match data with
  | None => []
  | Some data =>
      if (length stations =? 0)%nat then []
      else
        let dateMap := fold_left (collectStation data) stations [] in
        arraySort TrendChart.compareByDate (averageRow <$> dateMap)
  end.

Definition provinceAverageData (data : option t) (filteredStations : list string) :
    list DataPoint :=
  averageData data filteredStations.

Definition regionAverageData (data : option t) (region6Stations : list string) :
    list DataPoint :=
  averageData data region6Stations.

End Average.

(** [displayData.length > 0 ? displayData[displayData.length - 1].value : 0]. *)
Definition currentLevel (displayData : list DataPoint) : Q :=
  if (0 <? length displayData)%nat
  then from_option value 0%Q (displayData !! (length displayData - 1)%nat)
  else 0%Q.

End Region6Page.

(** ** StationSelector: the search box (components/StationSelector.tsx)

    The repository carries two versions of the component; the second one
    also searches the station names. *)

Module StationSelector.

(** [s.includes(sub)]: [sub] occurs somewhere in [s]. *)
Fixpoint includes (s sub : string) : bool :=
  String.prefix sub s ||
  match s with
  | EmptyString => false
  | String _ s' => includes s' sub
  end.

Section Filter.
(** [String.prototype.toLowerCase] is a parameter of the model. *)
Context (toLowerCase : string -> string).

(** First version:
    [stations.filter(s => s.toLowerCase().includes(search.toLowerCase()))]. *)
Definition filtered (stations : list string) (search : string) : list string :=
  List.filter (fun s => includes (toLowerCase s) (toLowerCase search)) stations.

(** Second version: the station code or its name matches;
    [stationNames[s] || ''] is the empty string for a station without a
    name. *)
Definition filteredByName (stations : list string) (stationNames : gmap string string)
    (search : string) : list string :=
  List.filter
    (fun s =>
       let name := default EmptyString (stationNames !! s) in
       let term := toLowerCase search in
       includes (toLowerCase s) term || includes (toLowerCase name) term)
    stations.
End Filter.

End StationSelector.

(** * Reference notions used in the statements *)

(** ** Numbers *)

(** [sum] of a list of numbers, written as a right fold. *)
Definition sumQ (l : list Q) : Q := foldr Qplus 0%Q l.

(** The arithmetic mean of a non-empty list. *)
Definition meanQ (l : list Q) : Q := (sumQ l / inject_Z (Z.of_nat (length l)))%Q.

(** [None] for an empty list, its arithmetic mean otherwise. *)
Definition meanOrNull (l : list Q) : option Q :=
  match l with
  | [] => None
  | _ :: _ => Some (meanQ l)
  end.

(** Equality of optional numbers up to [==]. *)
Definition optQeq : option Q -> option Q -> Prop := option_Forall2 Qeq.

(** ** Moving average *)

(** [a] is dated no later than [b]; both dates are valid. *)
Definition dateLe (a b : DataPoint) : Prop :=
  exists ta tb, TrendChart.timeOf a = Some ta /\ TrendChart.timeOf b = Some tb /\ ta <= tb.

(** The [W] values at the index positions [i - W + 1] to [i]. *)
Definition window (data : list DataPoint) (i W : nat) : list Q :=
  value <$> take W (drop (i + 1 - W) data).

(** Seven consecutive days carrying the values 10, 20, ..., 70. *)
Definition weekOfTens : list DataPoint :=
  [ mkDataPoint "2025-01-01" 10; mkDataPoint "2025-01-02" 20;
    mkDataPoint "2025-01-03" 30; mkDataPoint "2025-01-04" 40;
    mkDataPoint "2025-01-05" 50; mkDataPoint "2025-01-06" 60;
    mkDataPoint "2025-01-07" 70 ].

(** Two readings filed under the same day. *)
Definition sameDayPair : list DataPoint :=
  [ mkDataPoint "2025-01-01" 1; mkDataPoint "2025-01-01" 2 ].

(** ** Month partitions *)

(** The values of the readings whose valid date has 0-based month [i] and
    a year accepted by [inYears], in input order. *)
Definition inPartition (inYears : Z -> bool) (i : Z) (d : DataPoint) : bool :=
  match JSDate.parse (date d) with
  | Some c => inYears (JSDate.year c) && (JSDate.month c =? i)
  | None => false
  end.

Definition partition (inYears : Z -> bool) (i : Z) (data : list DataPoint) : list Q :=
  value <$> List.filter (inPartition inYears i) data.

(** The three year partitions of the seasonal comparison. *)
Definition isCurrentYear (y : Z) : bool := y =? 2025.
Definition isPrevYear (y : Z) : bool := y =? 2024.
Definition inMedianRange (y : Z) : bool := (2020 <=? y) && (y <=? 2024).

(** The values of the readings whose valid date has calendar year [y]
    and 0-based month [m], in input order. *)
Definition monthBucket (y m : Z) (data : list DataPoint) : list Q :=
  partition (Z.eqb y) m data.

(** The middle of an ascending list: the middle element for an odd
    length, the average of the two middle elements for an even one. *)
Definition middle (s : list Q) : Q :=
  if Nat.odd (length s) then nth (length s / 2) s 0%Q
  else ((nth (length s / 2 - 1) s 0 + nth (length s / 2) s 0) / 2)%Q.

(** One bucket table of the seasonal comparison, filled by a guarded
    [push]. *)
Definition fill (test : DataPoint -> bool) (t : gmap Z (list Q)) (d : DataPoint) :
    gmap Z (list Q) :=
  if test d
  then SeasonalChart.push (JSDate.getMonth (JSDate.parse (date d))) (value d) t
  else t.

(** The row of month [i] in terms of the three partitions. *)
Definition expectedRow (data : list DataPoint) (i : Z) : SeasonalChart.Row :=
  SeasonalChart.mkRow
    (default EmptyString (SeasonalChart.monthNames !! Z.to_nat i))
    (averageOrNull (partition isCurrentYear i data))
    (averageOrNull (partition isPrevYear i data))
    (match partition inMedianRange i data with
     | [] => None
     | vals => Some (SeasonalChart.calculateMedian vals)
     end).

(** A string without the character "-". *)
Fixpoint dashFree (s : string) : Prop :=
  match s with
  | EmptyString => True
  | String c s' => c <> "-"%char /\ dashFree s'
  end.

(** ** Day grid *)

(** Days of the week, and the two ways of numbering them. *)
Inductive weekday :=
| Sunday | Monday | Tuesday | Wednesday | Thursday | Friday | Saturday.

(** The day of the week of a civil date, counted from Thursday
    1970-01-01. *)
Definition dayOfWeek (c : JSDate.civil) : weekday :=
  match JSDate.epochDay c mod 7 with
  | 0 => Thursday | 1 => Friday | 2 => Saturday | 3 => Sunday
  | 4 => Monday | 5 => Tuesday | _ => Wednesday
  end.

(** Sunday = 0, Monday = 1, ..., Saturday = 6. *)
Definition sundayFirstIndex (w : weekday) : Z :=
  match w with
  | Sunday => 0 | Monday => 1 | Tuesday => 2 | Wednesday => 3
  | Thursday => 4 | Friday => 5 | Saturday => 6
  end.

(** Monday = 0, Tuesday = 1, ..., Sunday = 6. *)
Definition mondayFirstIndex (w : weekday) : Z :=
  match w with
  | Monday => 0 | Tuesday => 1 | Wednesday => 2 | Thursday => 3
  | Friday => 4 | Saturday => 5 | Sunday => 6
  end.

(** The number of padding cells ([null]) at the head of the grid. *)
Fixpoint leadingPadding {A : Type} (cells : list (option A)) : nat :=
  match cells with
  | None :: cells' => S (leadingPadding cells')
  | _ => 0%nat
  end.

(** The value of the last reading of [data] filed under [dateStr], if
    any: later readings overwrite earlier ones in the lookup table. *)
Fixpoint lastReading (data : list DataPoint) (dateStr : string) : option Q :=
  match data with
  | [] => None
  | d :: data' =>
      match lastReading data' dateStr with
      | Some v => Some v
      | None => if bool_decide (date d = dateStr) then Some (value d) else None
      end
  end.

(** ** Weekly alignment *)






(** The count of category [g] at index [i] of its array, when there is
    one. *)
Definition countAt (yearHDC : HealthChart.YearHDC) (i : Z) (g : string) : option Q :=
  counts ← HealthChart.diseases yearHDC !! g; counts !! Z.to_nat i.

(** The record of the source data for a province and a year, if any. *)
Definition sourceRecord (hdcData : option HealthChart.HDCData)
    (province : string) (selectedYear : Z) : option HealthChart.YearHDC :=
  hdc ← hdcData;
  byYear ← HealthChart.data hdc !! province;
  byYear !! selectedYear.

(** The case count of a week as the source data give it, before any
    validation: [null] without a record for the province and year or
    without an array for the category. *)
Definition sourceCaseCount (hdcData : option HealthChart.HDCData)
    (province : string) (selectedYear : Z) (disease : string) (w : Z) : jsval :=
  match sourceRecord hdcData province selectedYear with
  | Some yearHDC => HealthChart.V1.caseCount yearHDC disease (w - 1)
  | None => JNull
  end.

(** A province with one year (2024) of weekly counts in two categories
    and a stored total that disagrees with them. *)
Definition sampleYear : HealthChart.YearHDC :=
  HealthChart.mkYearHDC (seqZ 1 53)
    (<["Respiratory" := replicate 53 5%Q]>
       (<["Skin" := replicate 53 7%Q]>
          (<["Total" := replicate 53 99%Q]> ∅))).

Definition sampleHDC : HealthChart.HDCData :=
  HealthChart.mkHDCData
    (HealthChart.mkMetadata "weekly cases" "HDC" ["Respiratory"; "Skin"])
    (<["Chonburi" := <[2024 := sampleYear]> ∅]> ∅).

(** The same data without a stored total. *)
Definition sampleHDCNoTotal : HealthChart.HDCData :=
  HealthChart.mkHDCData (HealthChart.metadata sampleHDC)
    (<["Chonburi" :=
        <[2024 := HealthChart.mkYearHDC (HealthChart.weeks sampleYear)
                    (delete "Total" (HealthChart.diseases sampleYear))]> ∅]> ∅).

(** A year of which only the first week has been reported, in one
    category: the arrays are shorter than 53. *)
Definition partialYear : HealthChart.YearHDC :=
  HealthChart.mkYearHDC [1] (<["Respiratory" := [5%Q]]> ∅).

Definition partialHDC : HealthChart.HDCData :=
  HealthChart.mkHDCData (HealthChart.metadata sampleHDC)
    (<["Chonburi" := <[2025 := partialYear]> ∅]> ∅).


(** One reading in ISO week 1 of 2024 (Wednesday 3 January). *)
Definition firstWeekReading : list DataPoint := [mkDataPoint "2024-01-03" 10].

(** One reading in ISO week 2 of 2025 (Wednesday 8 January). *)
Definition secondWeekReading : list DataPoint := [mkDataPoint "2025-01-08" 10].

(** ** Ranges and orders *)

(** [x <= y] on numbers is decidable. *)
Global Instance Qle_decision (x y : Q) : Decision (x <= y)%Q := Z_le_dec _ _.

(** [a] is dated strictly before [b]; both dates are valid. *)
Definition dateLt (a b : DataPoint) : Prop :=
  exists ta tb,
    TrendChart.timeOf a = Some ta /\ TrendChart.timeOf b = Some tb /\ ta < tb.

(** [a >= b] on two numbers, neither of them [NaN]. *)
Definition numGe (a b : option Z) : Prop :=
  exists x y, a = Some x /\ b = Some y /\ x >= y.

(** Three days out of date order. *)
Definition unsortedDays : list DataPoint :=
  [ mkDataPoint "2025-01-03" 30; mkDataPoint "2025-01-01" 10;
    mkDataPoint "2025-01-02" 20 ].

(** Readings of three years, the latest first and the earliest in the
    middle. *)
Definition threeYears : list DataPoint :=
  [ mkDataPoint "2025-01-03" 30; mkDataPoint "2023-06-01" 10;
    mkDataPoint "2024-02-29" 20 ].

(** Case records of a province for three years, entered out of order. *)
Definition threeYearRecords : gmap Z HealthChart.YearHDC :=
  <[2023 := sampleYear]> (<[2025 := sampleYear]> (<[2024 := sampleYear]> ∅)).

Definition threeYearHDC : HealthChart.HDCData :=
  HealthChart.mkHDCData (HealthChart.metadata sampleHDC)
    (<["Chonburi" := threeYearRecords]> ∅).

(** ** Seasonal comparison *)

(** The readings that the seasonal comparison can use: a valid date in
    one of the years 2020 to 2025. *)
Definition inSeasonalRange (d : DataPoint) : bool :=
  match JSDate.parse (date d) with
  | Some c => (2020 <=? JSDate.year c) && (JSDate.year c <=? 2025)
  | None => false
  end.

(** ** Colours *)

(** The classes of the colour scale, from the mildest to the most
    severe, as the legend lists them. *)
Definition colourScale : list string :=
  [ "bg-blue-100 text-blue-900"; "bg-emerald-100 text-emerald-900";
    "bg-yellow-100 text-yellow-900"; "bg-orange-100 text-orange-900";
    "bg-red-200 text-red-900" ]%string.

(** ** Calendar *)

(** The number of days of a year. *)
Definition daysInYear (y : Z) : Z := if JSDate.isLeapYear y then 366 else 365.

(** The cells of the day grid that carry a day, in order. *)
Definition dayCells (cells : list (option DailyHeatmap.Day)) : list DailyHeatmap.Day :=
  omap id cells.

(** The grid is filled column by column, seven cells to a column
    ([grid-rows-7 grid-flow-col]). *)
Definition gridRow (idx : nat) : Z := Z.of_nat idx mod 7.
Definition gridColumns {A} (cells : list A) : Z := (Z.of_nat (length cells) + 6) / 7.

(** The character of a decimal digit. *)
Definition digitChar (v : Z) : ascii := ascii_of_N (Z.to_N (48 + v)).

(** The four decimal digits of a number below 10000, and the two of a
    number below 100. *)
Definition fourDigits (n : Z) : string :=
  String (digitChar (n / 1000)) (String (digitChar (n / 100 mod 10))
    (String (digitChar (n / 10 mod 10)) (String (digitChar (n mod 10)) EmptyString))).

Definition twoDigits (n : Z) : string :=
  String (digitChar (n / 10)) (String (digitChar (n mod 10)) EmptyString).

(** ** Case counts *)

(** The number that a bar of the chart reads from field [k] of a row; an
    absent field draws nothing. *)
Definition barValue (row : HealthChart.V2.Row) (k : string) : Q :=
  match HealthChart.V2.field row k with
  | JNum q => q
  | _ => 0%Q
  end.

(** ** Stations *)

(** The readings of the listed stations, station after station. *)
Definition stationReadings (data : PM25Data.t) (stations : list string) :
    list DataPoint :=
  s ← stations; default [] (PM25Data.data data !! s).

(** The values filed under [dateStr], in order. *)
Definition valuesOn (dateStr : string) (readings : list DataPoint) : list Q :=
  value <$> filter (fun d => date d = dateStr) readings.

(** Two stations of one province of region 6; the first one lists its
    readings out of date order. *)
Definition sampleStations : PM25Data.t :=
  PM25Data.mk
    (PM25Data.mkMetadata "2025-01-01" "2025-01-02" ["A"; "B"] None
       (Some (<["A" := "Chonburi"]> (<["B" := "Chonburi"]> ∅)))
       (Some (<["A" := Region6Page.region6]> (<["B" := Region6Page.region6]> ∅))))
    (<["A" := [mkDataPoint "2025-01-02" 20; mkDataPoint "2025-01-01" 10]]>
       (<["B" := [mkDataPoint "2025-01-01" 15]]> ∅)).

(** Lower-casing of the ASCII letters, an instance of [toLowerCase]. *)
Definition lowerAscii (c : ascii) : ascii :=
  let n := N_of_ascii c in
  if ((65 <=? n) && (n <=? 90))%N then ascii_of_N (n + 32) else c.

Fixpoint lowerASCII (s : string) : string :=
  match s with
  | EmptyString => EmptyString
  | String c s' => String (lowerAscii c) (lowerASCII s')
  end.

(** * Properties *)

(** Linear arithmetic with division and remainder by constants. *)
Ltac div_lia := Z.div_mod_to_equations; lia.

(** ** Sanity checks of the date model *)

Example parse_ok :
  JSDate.parse "2024-12-30" = Some (JSDate.mkCivil 2024 11 30).
Proof. reflexivity. Qed.

Example parse_bad : JSDate.parse "2025-02-30" = None /\ JSDate.parse "n/a" = None.
Proof. split; reflexivity. Qed.

Example format_ok :
  JSDate.format_yyyy_MM_dd (JSDate.mkCivil 2025 0 5) = "2025-01-05"%string.
Proof. vm_compute. reflexivity. Qed.

Example getDay_2025 : JSDate.getDay (JSDate.newDateJan1 2025) = 3.
Proof. reflexivity. Qed.

Example isoWeek_examples :
  JSDate.getISOWeek (JSDate.mkCivil 2024 11 30) = 1 /\
  JSDate.getISOWeekYear (JSDate.mkCivil 2024 11 30) = 2025 /\
  JSDate.getISOWeek (JSDate.mkCivil 2021 0 1) = 53 /\
  JSDate.getISOWeekYear (JSDate.mkCivil 2021 0 1) = 2020 /\
  JSDate.getISOWeek (JSDate.mkCivil 2025 5 15) = 24.
Proof. repeat split; reflexivity. Qed.

Example eachDay_len :
  length (JSDate.eachDayOfYear 2024) = 366%nat /\
  length (JSDate.eachDayOfYear 2025) = 365%nat.
Proof. split; vm_compute; reflexivity. Qed.

(** ** The array sort *)

Section ArraySortFacts.
Context {A : Type} (compareFn : A -> A -> option Q).

Lemma insertSorted_perm x l : insertSorted compareFn x l ≡ₚ x :: l.
Proof.
  induction l as [|y l IH]; simpl; [done|].
  destruct (sortsAfter compareFn x y); [|done].
  rewrite IH. apply perm_swap.
Qed.

Lemma arraySort_perm l : arraySort compareFn l ≡ₚ l.
Proof.
  induction l as [|x l IH]; simpl; [done|].
  rewrite insertSorted_perm. by f_equiv.
Qed.

Lemma arraySort_length l : length (arraySort compareFn l) = length l.
Proof. by rewrite arraySort_perm. Qed.

(** A list already in comparator order is left as it is. *)
Lemma arraySort_sorted_id l :
  StronglySorted (fun x y => sortsAfter compareFn x y = false) l ->
  arraySort compareFn l = l.
Proof.
  induction 1 as [|x l Hl IH Hx]; simpl; [done|].
  rewrite IH. destruct l as [|y l']; simpl; [done|].
  inversion Hx as [|? ? Hxy _]; subst. by rewrite Hxy.
Qed.

(** With a comparator that agrees with a transitive order [le] on the
    elements satisfying [P], the result is in order. *)
Context (P : A -> Prop) (le : A -> A -> Prop).
Hypothesis le_trans : forall x y z, le x y -> le y z -> le x z.
Hypothesis after_le : forall x y, P x -> P y -> sortsAfter compareFn x y = true -> le y x.
Hypothesis not_after_le :
  forall x y, P x -> P y -> sortsAfter compareFn x y = false -> le x y.

Lemma insertSorted_StronglySorted x l :
  P x -> Forall P l -> StronglySorted le l ->
  StronglySorted le (insertSorted compareFn x l).
Proof.
  intros Hx HP Hl. induction Hl as [|y l Hl IH Hy]; simpl.
  - repeat constructor.
  - apply Forall_cons in HP as [HPy HP].
    destruct (sortsAfter compareFn x y) eqn:Hxy.
    + constructor; [by apply IH|].
      rewrite insertSorted_perm. constructor; [by apply after_le|done].
    + assert (le x y) by by apply not_after_le.
      constructor; [by constructor|].
      constructor; [done|].
      eapply Forall_impl; [exact Hy|]. intros z Hz. by eapply le_trans.
Qed.

Lemma arraySort_StronglySorted l :
  Forall P l -> StronglySorted le (arraySort compareFn l).
Proof.
  induction 1 as [|x l Hx HP IH]; simpl; [constructor|].
  apply insertSorted_StronglySorted; [done| |done].
  by rewrite arraySort_perm.
Qed.
End ArraySortFacts.

(** ** Sums and means *)

Lemma reduceSum_from (l : list Q) (a : Q) :
  (fold_left Qplus l a == a + sumQ l)%Q.
Proof.
  revert a. induction l as [|x l IH]; intros a; simpl.
  - ring.
  - rewrite IH. ring.
Qed.

Lemma reduceSum_sumQ (l : list Q) : (reduceSum l == sumQ l)%Q.
Proof. unfold reduceSum. rewrite reduceSum_from. ring. Qed.

Lemma averageOrNull_mean (l : list Q) :
  l <> [] -> exists q, averageOrNull l = Some q /\ (q == meanQ l)%Q.
Proof.
  intros Hl. destruct l as [|x l]; [done|].
  eexists; split; [reflexivity|].
  unfold meanQ. by rewrite reduceSum_sumQ.
Qed.

(** ** TrendChart *)

Section TrendChartFacts.
Import TrendChart.

Lemma sortsAfter_byDate a b ta tb :
  timeOf a = Some ta -> timeOf b = Some tb ->
  sortsAfter compareByDate a b = negb (ta <=? tb).
Proof.
  intros Ha Hb. unfold sortsAfter, sortCompare, compareByDate.
  rewrite Ha, Hb. simpl. f_equal.
  apply eq_true_iff_eq. rewrite Qle_bool_iff, Z.leb_le.
  unfold Qle, Qminus, Qplus, Qopp, inject_Z. simpl. lia.
Qed.

Lemma sortsAfter_dateLe a b : dateLe a b -> sortsAfter compareByDate a b = false.
Proof.
  intros (ta & tb & Ha & Hb & Hle).
  rewrite (sortsAfter_byDate _ _ _ _ Ha Hb).
  apply negb_false_iff, Z.leb_le, Hle.
Qed.

Lemma dateLe_trans a b c : dateLe a b -> dateLe b c -> dateLe a c.
Proof.
  intros (ta & tb & Ha & Hb & H1) (tb' & tc & Hb' & Hc & H2).
  exists ta, tc. repeat split; try done. rewrite Hb in Hb'. simplify_eq. lia.
Qed.

Lemma arraySort_ascending data :
  StronglySorted dateLe data -> arraySort compareByDate data = data.
Proof.
  intros H. apply arraySort_sorted_id.
  induction H as [|x l Hl IH Hx]; constructor; [done|].
  eapply Forall_impl; [exact Hx|]. intros y. apply sortsAfter_dateLe.
Qed.

(** The sorted array is in date order when all dates are valid. *)
Lemma arraySort_byDate_sorted data :
  Forall (fun p => is_Some (timeOf p)) data ->
  StronglySorted dateLe (arraySort compareByDate data).
Proof.
  apply (arraySort_StronglySorted compareByDate (fun p => is_Some (timeOf p)) dateLe).
  - apply dateLe_trans.
  - intros x y [tx Hx] [ty Hy] H.
    rewrite (sortsAfter_byDate _ _ _ _ Hx Hy) in H.
    apply negb_true_iff, Z.leb_gt in H. exists ty, tx. repeat split; try done. lia.
  - intros x y [tx Hx] [ty Hy] H.
    rewrite (sortsAfter_byDate _ _ _ _ Hx Hy) in H.
    apply negb_false_iff, Z.leb_le in H. by exists tx, ty.
Qed.

(** Two date-ordered arrangements of the same readings coincide when no
    two readings share a timestamp. *)
Lemma dateSorted_unique (l1 l2 : list DataPoint) :
  StronglySorted dateLe l1 -> StronglySorted dateLe l2 ->
  NoDup (timeOf <$> l1) -> l1 ≡ₚ l2 -> l1 = l2.
Proof.
  intros H1. revert l2. induction H1 as [|x l1 Hl1 IH Hx]; intros l2 H2 Hnd Hp.
  - by apply Permutation_nil in Hp.
  - destruct H2 as [|y l2 Hl2 Hy].
    { symmetry in Hp. by apply Permutation_nil in Hp. }
    apply NoDup_cons in Hnd as [Hnx Hnd].
    assert (x = y) as ->.
    { assert (x ∈ y :: l2) as Hxin by (rewrite <- Hp; left).
      assert (y ∈ x :: l1) as Hyin by (rewrite Hp; left).
      apply elem_of_cons in Hxin as [->|Hxin]; [done|].
      apply elem_of_cons in Hyin as [->|Hyin]; [done|].
      rewrite Forall_forall in Hx, Hy.
      destruct (Hx y Hyin) as (tx & ty & Htx & Hty & Hle1).
      destruct (Hy x Hxin) as (ty' & tx' & Hty' & Htx' & Hle2).
      simplify_eq. assert (tx = ty) as -> by lia.
      exfalso. apply Hnx. rewrite Htx, <- Hty. by apply list_elem_of_fmap_2. }
    f_equal. apply IH; [done|done|]. by apply (inj (cons y)).
Qed.

Lemma windowSum_step array index (n : nat) :
  (windowSum array index (Z.of_nat (S n)) ==
   windowSum array index (Z.of_nat n)
   + from_option value 0 (array !! Z.to_nat (index - Z.of_nat n)))%Q.
Proof.
  unfold windowSum. rewrite seqZ_S, fold_left_app. simpl.
  by replace (0 + Z.of_nat n) with (Z.of_nat n) by lia.
Qed.

(** The loop adds up the window ending at [index]. *)
Lemma windowSum_window array (i W : nat) :
  (W <= i + 1)%nat -> (i < length array)%nat ->
  (windowSum array (Z.of_nat i) (Z.of_nat W) == sumQ (window array i W))%Q.
Proof.
  intros HW Hi. induction W as [|n IH].
  - unfold windowSum, window. simpl. reflexivity.
  - rewrite windowSum_step, IH by lia.
    replace (Z.to_nat (Z.of_nat i - Z.of_nat n)) with (i - n)%nat by lia.
    destruct (lookup_lt_is_Some_2 array (i - n)%nat) as [p Hp]; [lia|].
    rewrite Hp. simpl. unfold window.
    replace (i + 1 - S n)%nat with (i - n)%nat by lia.
    replace (i + 1 - n)%nat with (S (i - n)) by lia.
    rewrite (drop_S _ _ _ Hp). simpl. apply Qplus_comm.
Qed.
End TrendChartFacts.

Lemma chartData_lookup data W (i : nat) :
  TrendChart.chartData data W !! i =
  (fun point =>
     TrendChart.mkRow (date point) (value point)
       (if W - 1 <=? Z.of_nat i
        then Some (TrendChart.windowSum (arraySort TrendChart.compareByDate data)
                     (Z.of_nat i) W / inject_Z W)%Q
        else None))
  <$> arraySort TrendChart.compareByDate data !! i.
Proof.
  unfold TrendChart.chartData. destruct data as [|p data]; [done|].
  cbn [length Nat.eqb]. by rewrite list_lookup_imap.
Qed.

Lemma chartData_length data W :
  length (TrendChart.chartData data W) = length data.
Proof.
  unfold TrendChart.chartData. destruct data as [|p data]; [done|].
  cbn [length Nat.eqb]. by rewrite length_imap, arraySort_length.
Qed.

Lemma window_length data (i W : nat) :
  (W <= i + 1)%nat -> (i < length data)%nat -> length (window data i W) = W.
Proof.
  intros. unfold window. rewrite length_fmap, length_take, length_drop. lia.
Qed.

(** C5.  On a series in ascending date order and a window size [W >= 1],
    the moving-average filter keeps the readings in place; the row at index
    [i] carries [null] when [i < W - 1] and otherwise the arithmetic mean of
    the [W] values at the index positions [i - W + 1] to [i], whatever the
    calendar gaps between them.  With [W = 7] on the values 10 to 70 over
    seven consecutive days the averages are six [null]s followed by 40. *)
Theorem moving_average_trailing_mean :
  (forall (data : list DataPoint) (W : Z) (i : nat) (p : DataPoint),
     1 <= W -> StronglySorted dateLe data -> data !! i = Some p ->
     length (TrendChart.chartData data W) = length data /\
     exists row,
       TrendChart.chartData data W !! i = Some row /\
       TrendChart.rdate row = date p /\ TrendChart.rvalue row = value p /\
       (Z.of_nat i < W - 1 -> TrendChart.ma row = None) /\
       (W - 1 <= Z.of_nat i ->
        length (window data i (Z.to_nat W)) = Z.to_nat W /\
        exists q, TrendChart.ma row = Some q /\
                  (q == meanQ (window data i (Z.to_nat W)))%Q)) /\
  Forall2 optQeq (TrendChart.ma <$> TrendChart.chartData weekOfTens 7)
          [None; None; None; None; None; None; Some 40%Q].
Proof.
  split.
  - intros data W i p HW Hsorted Hp. split; [apply chartData_length|].
    rewrite chartData_lookup, (arraySort_ascending _ Hsorted), Hp. simpl.
    eexists; split; [reflexivity|]. simpl.
    assert (i < length data)%nat by by eapply lookup_lt_Some.
    repeat split.
    + intros Hlt. by rewrite (proj2 (Z.leb_gt _ _)) by lia.
    + apply window_length; lia.
    + rewrite (proj2 (Z.leb_le _ _)) by done.
      eexists; split; [reflexivity|].
      unfold meanQ. rewrite window_length by lia.
      rewrite <- (windowSum_window data i (Z.to_nat W)) by lia.
      by rewrite !Z2Nat.id by lia.
  - vm_compute. repeat constructor.
Qed.

Lemma moving_average_trailing_mean_witness :
  exists row,
    TrendChart.chartData weekOfTens 7 !! 6%nat = Some row /\
    exists q, TrendChart.ma row = Some q /\
              (q == meanQ (window weekOfTens 6 7))%Q.
Proof.
  assert (StronglySorted dateLe weekOfTens) as Hs.
  { repeat constructor; eexists _, _; (split; [vm_compute; reflexivity|]);
      (split; [vm_compute; reflexivity|]); lia. }
  destruct (proj1 moving_average_trailing_mean weekOfTens 7 6%nat
              (mkDataPoint "2025-01-07" 70) ltac:(lia) Hs eq_refl)
    as (_ & row & Hrow & _ & _ & _ & Hma).
  exists row. split; [exact Hrow|].
  destruct (Hma ltac:(lia)) as (_ & q & Hq & Heq). by exists q.
Defined.

(** C9 (as amended).  When every date of the series is valid and no two
    readings share a date, the moving-average output is the same for every
    reordering of the input. *)
Theorem moving_average_order_invariant
    (data data' : list DataPoint) (W : Z) :
  data ≡ₚ data' ->
  Forall (fun p => is_Some (TrendChart.timeOf p)) data ->
  NoDup (TrendChart.timeOf <$> data) ->
  TrendChart.chartData data W = TrendChart.chartData data' W.
Proof.
  intros Hp Hvalid Hnd.
  assert (arraySort TrendChart.compareByDate data
          = arraySort TrendChart.compareByDate data') as Hsort.
  { apply dateSorted_unique.
    - by apply arraySort_byDate_sorted.
    - apply arraySort_byDate_sorted. by rewrite <- Hp.
    - by rewrite arraySort_perm.
    - by rewrite !arraySort_perm. }
  unfold TrendChart.chartData. rewrite <- Hsort.
  by rewrite <- (Permutation_length Hp).
Qed.

Lemma moving_average_order_invariant_witness :
  TrendChart.chartData weekOfTens 7 = TrendChart.chartData (reverse weekOfTens) 7.
Proof.
  apply moving_average_order_invariant.
  - vm_compute. symmetry. apply Permutation_rev.
  - repeat constructor; vm_compute; eauto.
  - apply (bool_decide_unpack _). vm_compute. reflexivity.
Defined.

(** C9, as stated, fails: two readings filed under the same day keep their
    input order, so swapping them changes the output. *)
Lemma moving_average_order_sensitive :
  ~ (forall (data data' : list DataPoint) (W : Z),
       data ≡ₚ data' ->
       TrendChart.chartData data W = TrendChart.chartData data' W).
Proof.
  intros H.
  specialize (H sameDayPair (reverse sameDayPair) 7 (Permutation_rev _)).
  vm_compute in H. discriminate H.
Qed.

(** ** SeasonalChart *)

Section SeasonalChartFacts.
Import SeasonalChart.

Lemma Qminus_le_0 (x y : Q) : (x - y <= 0)%Q <-> (x <= y)%Q.
Proof.
  unfold Qminus. rewrite <- (Qplus_le_l x y (- y)), Qplus_opp_r. reflexivity.
Qed.

Lemma sortsAfter_minus (x y : Q) :
  sortsAfter (fun a b => Some (a - b)%Q) x y = negb (Qle_bool x y).
Proof.
  unfold sortsAfter, sortCompare. simpl. f_equal.
  apply eq_true_iff_eq. rewrite !Qle_bool_iff. apply Qminus_le_0.
Qed.

(** The numeric sort returns its input in ascending order. *)
Lemma numericSort_sorted (values : list Q) :
  StronglySorted Qle (arraySort (fun a b => Some (a - b)%Q) values).
Proof.
  apply (arraySort_StronglySorted _ (fun _ => True) Qle).
  - intros x y z. apply Qle_trans.
  - intros x y _ _. rewrite sortsAfter_minus, negb_true_iff.
    intros H. apply Qlt_le_weak, Qnot_le_lt. intros Hle.
    apply Qle_bool_iff in Hle. congruence.
  - intros x y _ _. rewrite sortsAfter_minus, negb_false_iff.
    apply Qle_bool_iff.
  - by apply Forall_true.
Qed.

Lemma odd_mod2 (n : nat) : negb (n mod 2 =? 0)%nat = Nat.odd n.
Proof.
  induction (lt_wf n) as [n _ IH].
  destruct n as [|[|n]]; [done|done|].
  change (Nat.odd (S (S n))) with (Nat.odd n).
  rewrite <- (IH n) by lia.
  replace (S (S n)) with (n + 1 * 2)%nat by lia.
  by rewrite Nat.Div0.mod_add.
Qed.

Lemma calculateMedian_middle (values : list Q) :
  values <> [] ->
  calculateMedian values = middle (arraySort (fun a b => Some (a - b)%Q) values).
Proof.
  intros Hv. unfold calculateMedian, middle.
  destruct values as [|v values]; [done|].
  cbn [length Nat.eqb]. by rewrite odd_mod2.
Qed.

(** Two ascending arrangements of the same values agree position by
    position, up to [==]. *)
Lemma sorted_split (l r : list Q) (x : Q) :
  StronglySorted Qle (l ++ x :: r) ->
  StronglySorted Qle (l ++ r) /\ Forall (fun e => (e <= x)%Q) l.
Proof.
  induction l as [|e l IH]; simpl; intros Hs.
  - by inversion Hs.
  - inversion Hs as [|? ? Hl He]; subst. destruct (IH Hl) as [Hlr Hle].
    split.
    + constructor; [done|]. rewrite Forall_app in He |- *.
      destruct He as [? [_ ?]%Forall_cons]. done.
    + constructor; [|done]. rewrite Forall_app in He.
      destruct He as [_ [? _]%Forall_cons]. done.
Qed.

Lemma pointwise_refl (l : list Q) : Forall2 Qeq l l.
Proof. induction l; constructor; [reflexivity|done]. Qed.

Lemma pointwise_trans (l1 l2 l3 : list Q) :
  Forall2 Qeq l1 l2 -> Forall2 Qeq l2 l3 -> Forall2 Qeq l1 l3.
Proof. apply Forall2_trans. intros x y z. apply Qeq_trans. Qed.

Lemma pointwise_move (l r : list Q) (x : Q) :
  Forall (fun e => (e == x)%Q) l ->
  Forall2 Qeq (x :: l ++ r) (l ++ x :: r).
Proof.
  induction 1 as [|e l He _ IH]; simpl.
  - apply pointwise_refl.
  - apply (pointwise_trans _ (e :: x :: l ++ r)).
    + constructor; [by symmetry|]. constructor; [done|]. apply pointwise_refl.
    + constructor; [reflexivity|done].
Qed.

Lemma sorted_perm_pointwise (s1 s2 : list Q) :
  StronglySorted Qle s1 -> StronglySorted Qle s2 -> s1 ≡ₚ s2 ->
  Forall2 Qeq s1 s2.
Proof.
  intros H1. revert s2. induction H1 as [|x s1 Hs1 IH Hx]; intros s2 H2 Hp.
  - apply Permutation_nil in Hp as ->. constructor.
  - assert (x ∈ s2) as Hin by (rewrite <- Hp; left).
    apply list_elem_of_split in Hin as (l & r & ->).
    destruct (sorted_split _ _ _ H2) as [Hlr Hle].
    assert (s1 ≡ₚ l ++ r) as Hp'.
    { apply (inj (cons x)). rewrite Hp. by rewrite Permutation_middle. }
    assert (Forall (fun e => (e == x)%Q) l) as Heq.
    { rewrite Forall_forall in Hle, Hx |- *. intros e He.
      apply Qle_antisym; [by apply Hle|].
      apply Hx. rewrite Hp'. apply elem_of_app. by left. }
    apply (pointwise_trans _ (x :: l ++ r)); [|by apply pointwise_move].
    constructor; [reflexivity|]. by apply IH.
Qed.

Lemma nth_pointwise (s1 s2 : list Q) (i : nat) :
  Forall2 Qeq s1 s2 -> (nth i s1 0 == nth i s2 0)%Q.
Proof.
  intros H. revert i. induction H as [|x y s1 s2 Hxy _ IH]; intros [|i]; simpl;
    try reflexivity; [done|apply IH].
Qed.

Lemma middle_proper (s1 s2 : list Q) :
  Forall2 Qeq s1 s2 -> (middle s1 == middle s2)%Q.
Proof.
  intros H. unfold middle. rewrite (Forall2_length _ _ _ H).
  destruct (Nat.odd (length s2)).
  - by apply nth_pointwise.
  - by rewrite !(nth_pointwise s1 s2).
Qed.

Lemma seqZ_months : seqZ 0 12 = [0; 1; 2; 3; 4; 5; 6; 7; 8; 9; 10; 11].
Proof. reflexivity. Qed.

Lemma emptyTable_lookup (i : Z) :
  emptyTable !! i = if bool_decide (0 <= i < 12) then Some [] else None.
Proof.
  unfold emptyTable. rewrite seqZ_months. simpl.
  case_bool_decide as Hi.
  - assert (i = 0 \/ i = 1 \/ i = 2 \/ i = 3 \/ i = 4 \/ i = 5 \/ i = 6 \/
            i = 7 \/ i = 8 \/ i = 9 \/ i = 10 \/ i = 11) as Hc by lia.
    repeat (destruct Hc as [->|Hc]; [by simplify_map_eq|]). by simplify_map_eq.
  - rewrite !lookup_insert_ne by lia. done.
Qed.

Lemma partition_cons inYears i d data :
  partition inYears i (d :: data) =
  if inPartition inYears i d then value d :: partition inYears i data
  else partition inYears i data.
Proof. unfold partition. simpl. by destruct (inPartition inYears i d). Qed.

Lemma fill_lookup test (inYears : Z -> bool) data t (i : Z) :
  (forall d, test d = from_option (fun c => inYears (JSDate.year c)) false
                                  (JSDate.parse (date d))) ->
  fold_left (fill test) data t !! i =
  (fun l => l ++ partition inYears i data) <$> t !! i.
Proof.
  intros Htest. revert t. induction data as [|d data IH]; intros t.
  - simpl. unfold partition. simpl.
    destruct (t !! i); simpl; [|done]. by rewrite app_nil_r.
  - simpl. rewrite IH. unfold fill. rewrite Htest, partition_cons.
    unfold inPartition.
    destruct (JSDate.parse (date d)) as [c|]; simpl; [|done].
    destruct (inYears (JSDate.year c)); simpl; [|done].
    destruct (Z.eqb_spec (JSDate.month c) i) as [->|Hne].
    + rewrite lookup_alter_eq. destruct (t !! i); simpl; [|done].
      by rewrite <- app_assoc.
    + by rewrite lookup_alter_ne.
Qed.

Lemma collect_fold data b :
  fold_left collect data b =
  mkBuckets
    (fold_left (fill (fun d => bool_decide
        (JSDate.getFullYear (JSDate.parse (date d)) = Some currentYear)))
       data (monthlyData2025 b))
    (fold_left (fill (fun d => bool_decide
        (JSDate.getFullYear (JSDate.parse (date d)) = Some prevYear)))
       data (monthlyData2024 b))
    (fold_left (fill (fun d => from_option
        (fun y => (medianStartYear <=? y) && (y <=? medianEndYear)) false
        (JSDate.getFullYear (JSDate.parse (date d)))))
       data (monthlyDataMedian b)).
Proof.
  revert b. induction data as [|d data IH]; intros b; simpl.
  - by destruct b.
  - by rewrite IH.
Qed.

Lemma monthRow_expected data (i : Z) :
  0 <= i < 12 ->
  monthRow (fold_left collect data initBuckets) i = expectedRow data i.
Proof.
  intros Hi. rewrite collect_fold. unfold monthRow, expectedRow. simpl.
  rewrite (fill_lookup _ isCurrentYear), (fill_lookup _ isPrevYear),
    (fill_lookup _ inMedianRange).
  - rewrite emptyTable_lookup, bool_decide_true by done. simpl.
    by destruct (partition inMedianRange i data).
  - intros d. by destruct (JSDate.parse (date d)).
  - intros d. destruct (JSDate.parse (date d)) as [c|]; simpl; [|done].
    unfold isPrevYear, prevYear.
    case_bool_decide; symmetry; [apply Z.eqb_eq|apply Z.eqb_neq]; congruence.
  - intros d. destruct (JSDate.parse (date d)) as [c|]; simpl; [|done].
    unfold isCurrentYear, currentYear.
    case_bool_decide; symmetry; [apply Z.eqb_eq|apply Z.eqb_neq]; congruence.
Qed.

Lemma processedData_rows (data : list DataPoint) :
  data <> [] -> processedData data = expectedRow data <$> seqZ 0 12.
Proof.
  intros Hd. unfold processedData. destruct data as [|d data]; [done|].
  cbn [length Nat.eqb]. apply list_fmap_ext. intros k i Hk.
  apply lookup_seqZ in Hk as [-> Hk]. apply monthRow_expected. lia.
Qed.
End SeasonalChartFacts.

(** C1 (as amended).  For every non-empty input series the seasonal
    comparator returns exactly 12 rows, one per calendar month in Jan-Dec
    order; for the empty series it returns no row at all. *)
Theorem seasonal_twelve_rows_unless_empty (data : list DataPoint) :
  SeasonalChart.rmonth <$> SeasonalChart.processedData data =
    match data with
    | [] => []
    | _ :: _ => SeasonalChart.monthNames
    end
  /\ length (SeasonalChart.processedData data) =
     match data with [] => 0%nat | _ :: _ => 12%nat end.
Proof.
  destruct data as [|d data]; [done|].
  rewrite processedData_rows by done. by rewrite seqZ_months.
Qed.

(** C1, as stated, fails: the empty series yields an empty output, not
    twelve rows of [null]s. *)
Lemma seasonal_empty_input_no_rows :
  SeasonalChart.processedData [] = [] /\
  ~ (forall data : list DataPoint,
       length (SeasonalChart.processedData data) = 12%nat).
Proof.
  split; [reflexivity|]. intros H. specialize (H []). discriminate H.
Qed.

(** C7 (as amended).  The median of a non-empty list is the middle of
    the list sorted ascending, whichever way equal values are arranged:
    the middle element for an odd count, the average of the two middle
    elements for an even count; so the median of 10, 20, 30, 40 is 25 and
    that of 10, 20, 30 is 20.  For a non-empty input series the row of
    every month is present, and an empty partition gives [null] in its
    column, not zero. *)
Theorem seasonal_median_and_empty_partitions :
  (forall values s : list Q,
     values <> [] -> s ≡ₚ values -> StronglySorted Qle s ->
     (SeasonalChart.calculateMedian values == middle s)%Q) /\
  ((SeasonalChart.calculateMedian [10%Q; 20%Q; 30%Q; 40%Q] == 25)%Q /\
   (SeasonalChart.calculateMedian [10%Q; 20%Q; 30%Q] == 20)%Q) /\
  (forall (data : list DataPoint) (i : Z),
     data <> [] -> 0 <= i < 12 ->
     exists row,
       SeasonalChart.processedData data !! Z.to_nat i = Some row /\
       SeasonalChart.monthNames !! Z.to_nat i = Some (SeasonalChart.rmonth row) /\
       (partition isCurrentYear i data = [] -> SeasonalChart.current row = None) /\
       (partition isPrevYear i data = [] -> SeasonalChart.prev row = None) /\
       (partition inMedianRange i data = [] -> SeasonalChart.median row = None) /\
       (partition inMedianRange i data <> [] ->
        SeasonalChart.median row =
        Some (SeasonalChart.calculateMedian (partition inMedianRange i data)))).
Proof.
  split; [|split].
  - intros values s Hv Hperm Hsorted. rewrite calculateMedian_middle by done.
    apply middle_proper, sorted_perm_pointwise; [apply numericSort_sorted|done|].
    by rewrite arraySort_perm.
  - split; vm_compute; reflexivity.
  - intros data i Hd Hi. rewrite processedData_rows by done.
    rewrite list_lookup_fmap, lookup_seqZ_lt by lia. simpl.
    replace (0 + Z.of_nat (Z.to_nat i)) with i by lia.
    eexists; split; [reflexivity|]. simpl.
    destruct (lookup_lt_is_Some_2 SeasonalChart.monthNames (Z.to_nat i))
      as [name Hname]; [simpl; lia|].
    rewrite Hname. simpl. split; [done|].
    repeat split.
    + by intros ->.
    + by intros ->.
    + by intros ->.
    + by destruct (partition inMedianRange i data).
Qed.

Lemma seasonal_median_and_empty_partitions_witness :
  (SeasonalChart.calculateMedian [40%Q; 30%Q; 20%Q; 10%Q]
   == middle [10%Q; 20%Q; 30%Q; 40%Q])%Q /\
  (exists row,
     SeasonalChart.processedData weekOfTens !! 1%nat = Some row /\
     SeasonalChart.median row = None).
Proof.
  destruct seasonal_median_and_empty_partitions as (Hmed & _ & Hrows).
  split.
  - apply Hmed.
    + discriminate.
    + apply (Permutation_rev [10%Q; 20%Q; 30%Q; 40%Q]).
    + repeat constructor; unfold Qle; simpl; lia.
  - destruct (Hrows weekOfTens 1 ltac:(discriminate) ltac:(lia))
      as (row & Hrow & _ & _ & _ & Hnone & _).
    exists row. split; [exact Hrow|]. apply Hnone. reflexivity.
Defined.

(** C7, as stated, fails on the empty series: every month partition is
    empty, yet no row is produced for any month. *)
Lemma seasonal_empty_partition_row_omitted :
  ~ (forall (data : list DataPoint) (i : Z),
       0 <= i < 12 -> partition inMedianRange i data = [] ->
       exists row,
         SeasonalChart.processedData data !! Z.to_nat i = Some row /\
         SeasonalChart.median row = None).
Proof.
  intros H. destruct (H [] 0 ltac:(lia) eq_refl) as (row & Hrow & _).
  discriminate Hrow.
Qed.

(** ** DailyHeatmap *)

Section DailyHeatmapFacts.
Import JSDate DailyHeatmap.

Lemma getDay_dayOfWeek (c : civil) : getDay c = sundayFirstIndex (dayOfWeek c).
Proof.
  unfold getDay, weekdayOfEpochDay, dayOfWeek.
  generalize (epochDay c). intros n.
  pose proof (Z.mod_pos_bound n 7 ltac:(lia)) as Hr.
  rewrite <- Zplus_mod_idemp_l.
  assert (n mod 7 = 0 \/ n mod 7 = 1 \/ n mod 7 = 2 \/ n mod 7 = 3 \/
          n mod 7 = 4 \/ n mod 7 = 5 \/ n mod 7 = 6) as Hc by lia.
  repeat (destruct Hc as [->|Hc]; [reflexivity|]). by rewrite Hc.
Qed.

Lemma daysInMonth_le (y m : Z) : daysInMonth y m <= 31.
Proof.
  unfold daysInMonth.
  repeat match goal with |- context [if ?b then _ else _] => destruct b end; lia.
Qed.

Lemma daysInMonth_feb_le (y : Z) : daysInMonth y 1 <= 29.
Proof. unfold daysInMonth. simpl. destruct (isLeapYear y); lia. Qed.

Lemma elem_of_eachDayOfYear (y : Z) (c : civil) :
  c ∈ eachDayOfYear y <->
  year c = y /\ 0 <= month c < 12 /\ 1 <= day c <= daysInMonth y (month c).
Proof.
  unfold eachDayOfYear. rewrite list_elem_of_bind. split.
  - intros (m & Hc & Hm). apply elem_of_seqZ in Hm.
    apply list_elem_of_fmap in Hc as (d & -> & Hd). apply elem_of_seqZ in Hd.
    cbn [year month day]. lia.
  - intros (Hy & Hm & Hd). exists (month c). split.
    + apply list_elem_of_fmap. exists (day c). split.
      * destruct c; simpl in *. by subst.
      * apply elem_of_seqZ. lia.
    + apply elem_of_seqZ. lia.
Qed.

(** Every day of a year lies between its 1 January and its 31 December. *)
Lemma eachDayOfYear_bounds (y : Z) (c : civil) :
  c ∈ eachDayOfYear y ->
  daysFromCivil y 0 1 <= epochDay c <= daysFromCivil y 11 31.
Proof.
  intros (Hy & Hm & Hd)%elem_of_eachDayOfYear.
  destruct c as [cy m d]. simpl in *. subst cy. unfold epochDay. simpl.
  pose proof (daysInMonth_feb_le y) as Hfeb.
  assert (m = 0 \/ m = 1 \/ m = 2 \/ m = 3 \/ m = 4 \/ m = 5 \/ m = 6 \/
          m = 7 \/ m = 8 \/ m = 9 \/ m = 10 \/ m = 11) as Hc by lia.
  assert (d <= 31) by (pose proof (daysInMonth_le y m); lia).
  unfold daysFromCivil.
  repeat (destruct Hc as [->|Hc]; [simpl; div_lia|]).
  subst m. simpl. div_lia.
Qed.

Lemma filter_all {A} (P : A -> Prop) `{forall x, Decision (P x)} (l : list A) :
  Forall P l -> filter P l = l.
Proof.
  induction 1 as [|x l Hx _ IH]; [done|].
  by rewrite filter_cons_True, IH.
Qed.

Lemma daysOfInterval_year (y : Z) :
  daysOfInterval (mkCivil y 0 1) (mkCivil y 11 31) = eachDayOfYear y.
Proof.
  unfold daysOfInterval. cbn [year].
  replace (y - y + 1) with 1 by lia.
  rewrite seqZ_cons, seqZ_nil by lia.
  change ([y] ≫= λ y, eachDayOfYear y) with (eachDayOfYear y ++ []).
  rewrite app_nil_r. apply filter_all, Forall_forall. intros d Hd.
  apply eachDayOfYear_bounds in Hd. unfold epochDay at 1 4.
  cbn [year month day]. lia.
Qed.

(** The [Date] object holds 1 January of the years -271820 to 275760, and
    the last millisecond of the years up to 275759. *)
Lemma jan1_in_range (y : Z) :
  -271820 <= y <= 275760 -> timeClip (mkCivil y 0 1) = Some (mkCivil y 0 1).
Proof.
  intros Hy. unfold timeClip.
  assert ((- MAX_DAY <=? epochDay (mkCivil y 0 1)) &&
          (epochDay (mkCivil y 0 1) <=? MAX_DAY) = true) as ->; [|done].
  rewrite andb_true_iff, !Z.leb_le.
  unfold epochDay, MAX_DAY, daysFromCivil. simpl. div_lia.
Qed.

Lemma dec31_in_range (y : Z) :
  -271820 <= y <= 275759 ->
  timeClipEndOfDay (mkCivil y 11 31) = Some (mkCivil y 11 31).
Proof.
  intros Hy. unfold timeClipEndOfDay.
  assert ((- MAX_DAY <=? epochDay (mkCivil y 11 31)) &&
          (epochDay (mkCivil y 11 31) <? MAX_DAY) = true) as ->; [|done].
  rewrite andb_true_iff, Z.leb_le, Z.ltb_lt.
  unfold epochDay, MAX_DAY, daysFromCivil. simpl. div_lia.
Qed.

Lemma jan1_out_of_range (y : Z) :
  y < -271820 \/ 275760 < y -> timeClip (mkCivil y 0 1) = None.
Proof.
  intros Hy. unfold timeClip.
  assert ((- MAX_DAY <=? epochDay (mkCivil y 0 1)) &&
          (epochDay (mkCivil y 0 1) <=? MAX_DAY) = false) as ->; [|done].
  rewrite andb_false_iff, !Z.leb_gt.
  unfold epochDay, MAX_DAY, daysFromCivil. simpl. div_lia.
Qed.

Lemma timeClip_Some (c c' : civil) : timeClip c = Some c' -> c' = c.
Proof. unfold timeClip. by destruct (_ && _); intros [= <-]. Qed.

Lemma timeClipEndOfDay_Some (c c' : civil) : timeClipEndOfDay c = Some c' -> c' = c.
Proof. unfold timeClipEndOfDay. by destruct (_ && _); intros [= <-]. Qed.

Lemma eachDayOfYear_head (y : Z) :
  exists rest, eachDayOfYear y = mkCivil y 0 1 :: rest.
Proof. unfold eachDayOfYear. rewrite seqZ_months. simpl. eauto. Qed.

Lemma leadingPadding_replicate {A} (n : nat) (x : A) (l : list (option A)) :
  leadingPadding (replicate n None ++ Some x :: l) = n.
Proof. induction n as [|n IH]; simpl; [done|]. by rewrite IH. Qed.

Lemma lookup_after_padding {A} (n : nat) (l : list (option A)) :
  (replicate n None ++ l) !! n = l !! 0%nat.
Proof.
  rewrite lookup_app_r by (rewrite length_replicate; lia).
  by rewrite length_replicate, Nat.sub_diag.
Qed.

Lemma buildDataMap_from (data : list DataPoint) (m : gmap string Q) (s : string) :
  fold_left (fun m d => <[date d := value d]> m) data m !! s =
  match lastReading data s with Some v => Some v | None => m !! s end.
Proof.
  revert m. induction data as [|d data IH]; intros m; simpl; [done|].
  rewrite IH. destruct (lastReading data s); [done|].
  case_bool_decide as Hd.
  - subst s. by rewrite lookup_insert_eq.
  - by rewrite lookup_insert_ne.
Qed.

Lemma buildDataMap_lookup (data : list DataPoint) (s : string) :
  buildDataMap data !! s = lastReading data s.
Proof.
  unfold buildDataMap. rewrite buildDataMap_from.
  by destruct (lastReading data s).
Qed.
End DailyHeatmapFacts.

(** The frame of a year that the [Date] object holds in full. *)
Lemma calendarData_in_range (r : JSDate.release) (data : list DataPoint) (year : Z) :
  let y := JSDate.year (JSDate.newDateJan1 year) in
  -271820 <= y <= 275759 ->
  DailyHeatmap.calendarData r data year =
  Some (replicate (Z.to_nat (DailyHeatmap.startDay year)) None ++
        ((fun date =>
            Some (DailyHeatmap.mkDay date (JSDate.format_yyyy_MM_dd date)
                    (DailyHeatmap.getOrNull (DailyHeatmap.buildDataMap data)
                       (JSDate.format_yyyy_MM_dd date))))
         <$> JSDate.eachDayOfYear y)).
Proof.
  intros y Hy.
  unfold DailyHeatmap.calendarData, DailyHeatmap.startDay, JSDate.newDate.
  change (JSDate.newDateJan1 year) with (JSDate.mkCivil y 0 1).
  rewrite jan1_in_range by lia.
  unfold JSDate.startOfYear, JSDate.endOfYear. simpl.
  rewrite jan1_in_range, dec31_in_range by lia.
  simpl. rewrite daysOfInterval_year. do 2 f_equal.
  by rewrite <- list_fmap_compose.
Qed.

(** Whenever the frame is returned it is the padding followed by the day
    cells; the days are those of the year, or none at all (the year whose
    end the [Date] object cannot hold, under release 3 of date-fns). *)
Lemma calendarData_shape (r : JSDate.release) (data : list DataPoint) (year : Z)
    (cells : list (option DailyHeatmap.Day)) :
  let y := JSDate.year (JSDate.newDateJan1 year) in
  DailyHeatmap.calendarData r data year = Some cells ->
  exists days,
    (days = JSDate.eachDayOfYear y \/ days = []) /\
    cells =
    replicate (Z.to_nat (DailyHeatmap.startDay year)) None ++
    ((fun date =>
        Some (DailyHeatmap.mkDay date (JSDate.format_yyyy_MM_dd date)
                (DailyHeatmap.getOrNull (DailyHeatmap.buildDataMap data)
                   (JSDate.format_yyyy_MM_dd date))))
     <$> days).
Proof.
  intros y.
  unfold DailyHeatmap.calendarData, DailyHeatmap.startDay, JSDate.newDate.
  change (JSDate.newDateJan1 year) with (JSDate.mkCivil y 0 1).
  destruct (JSDate.timeClip (JSDate.mkCivil y 0 1)) as [c|] eqn:Hc.
  - apply timeClip_Some in Hc as Hc'. subst c.
    unfold JSDate.startOfYear, JSDate.endOfYear. simpl. rewrite Hc.
    destruct (JSDate.timeClipEndOfDay (JSDate.mkCivil y 11 31)) as [e|] eqn:He.
    + apply timeClipEndOfDay_Some in He as He'. subst e. simpl.
      rewrite daysOfInterval_year. intros [= <-].
      exists (JSDate.eachDayOfYear y). split; [by left|].
      f_equal. by rewrite <- list_fmap_compose.
    + destruct r; simpl; [done|]. intros [= <-]. exists []. split; [by right|done].
  - unfold JSDate.startOfYear, JSDate.endOfYear. simpl. by destruct r.
Qed.

(** On a year whose 1 January the [Date] object cannot hold the code
    throws. *)
Lemma calendarData_throws (r : JSDate.release) (data : list DataPoint) (year : Z) :
  let y := JSDate.year (JSDate.newDateJan1 year) in
  y < -271820 \/ 275760 < y ->
  DailyHeatmap.calendarData r data year = None.
Proof.
  intros y Hy.
  unfold DailyHeatmap.calendarData, JSDate.newDate.
  change (JSDate.newDateJan1 year) with (JSDate.mkCivil y 0 1).
  rewrite jan1_out_of_range by done. by destruct r.
Qed.

(** C8 (as amended).  For every requested year that the [Date] object
    holds in full (-271820 to 275759) and that its constructor takes as
    written (any year outside 0..99), the day grid is built and starts
    with as many padding cells as the weekday index of 1 January under the
    Sunday = 0 convention (Sunday 0, Monday 1, ..., Saturday 6); the cell
    after the padding is 1 January of that year. *)
Theorem day_grid_padding_sunday_first (r : JSDate.release)
    (data : list DataPoint) (year : Z) :
  ~ (0 <= year <= 99) ->
  -271820 <= year <= 275759 ->
  let jan1 := JSDate.mkCivil year 0 1 in
  exists cells,
    DailyHeatmap.calendarData r data year = Some cells /\
    leadingPadding cells = Z.to_nat (sundayFirstIndex (dayOfWeek jan1)) /\
    exists cell,
      cells !! leadingPadding cells = Some (Some cell) /\
      DailyHeatmap.ddate cell = jan1.
Proof.
  intros Hy Hrange jan1.
  assert (JSDate.newDateJan1 year = jan1) as Hjan.
  { unfold JSDate.newDateJan1.
    destruct (Z.leb_spec 0 year), (Z.leb_spec year 99); simpl; try done. lia. }
  eexists. split.
  { apply calendarData_in_range. rewrite Hjan. simpl. lia. }
  unfold DailyHeatmap.startDay. rewrite Hjan.
  rewrite getDay_dayOfWeek. cbn [JSDate.year jan1].
  destruct (eachDayOfYear_head year) as [rest ->]. rewrite fmap_cons.
  rewrite leadingPadding_replicate, lookup_after_padding. eauto.
Qed.

Lemma day_grid_padding_sunday_first_witness :
  exists cells,
    DailyHeatmap.calendarData JSDate.DateFns3 weekOfTens 2025 = Some cells /\
    leadingPadding cells =
    Z.to_nat (sundayFirstIndex (dayOfWeek (JSDate.mkCivil 2025 0 1))).
Proof.
  destruct (day_grid_padding_sunday_first JSDate.DateFns3 weekOfTens 2025)
    as (cells & Hcells & Hpad & _); [lia..|].
  exists cells. split; [exact Hcells|exact Hpad].
Defined.

(** C8, as stated, fails: 1 January 2025 is a Wednesday, index 2 when
    Monday is 0, and the grid starts with 3 padding cells.  A year from 0
    to 99 is moreover read as 1900 + year: for the year 50 the grid is
    that of 1950, which starts on a Sunday and has no padding, while
    1 January of the year 50 is a Saturday.  Nor is there a grid for every
    year: the [Date] object cannot hold 1 January 275761 or 1 January
    -271821, where the code throws, and under release 2 of date-fns it
    throws for 275760 as well, a year that ends out of range. *)
Lemma day_grid_padding_not_monday_first :
  (leadingPadding <$> DailyHeatmap.calendarData JSDate.DateFns3 [] 2025) = Some 3%nat /\
  mondayFirstIndex (dayOfWeek (JSDate.mkCivil 2025 0 1)) = 2 /\
  (leadingPadding <$> DailyHeatmap.calendarData JSDate.DateFns3 [] 50) = Some 0%nat /\
  sundayFirstIndex (dayOfWeek (JSDate.mkCivil 50 0 1)) = 6 /\
  DailyHeatmap.calendarData JSDate.DateFns2 [] 275761 = None /\
  DailyHeatmap.calendarData JSDate.DateFns3 [] 275761 = None /\
  DailyHeatmap.calendarData JSDate.DateFns2 [] 275760 = None /\
  DailyHeatmap.calendarData JSDate.DateFns3 [] (-271821) = None /\
  ~ (forall (r : JSDate.release) (data : list DataPoint) (year : Z),
       exists cells,
         DailyHeatmap.calendarData r data year = Some cells /\
         leadingPadding cells =
         Z.to_nat (mondayFirstIndex (dayOfWeek (JSDate.mkCivil year 0 1)))).
Proof.
  assert (forall y, -271820 <= JSDate.year (JSDate.newDateJan1 y) <= 275759 ->
            leadingPadding <$> DailyHeatmap.calendarData JSDate.DateFns3 [] y =
            Some (Z.to_nat (DailyHeatmap.startDay y))) as Hpad.
  { intros y Hy. rewrite calendarData_in_range by done. cbn zeta.
    destruct (eachDayOfYear_head (JSDate.year (JSDate.newDateJan1 y)))
      as [rest ->].
    rewrite fmap_cons. simpl. by rewrite leadingPadding_replicate. }
  split; [by rewrite Hpad|]. split; [reflexivity|].
  split; [by rewrite Hpad|]. split; [reflexivity|].
  split; [by apply calendarData_throws; right|].
  split; [by apply calendarData_throws; right|].
  split; [vm_compute; reflexivity|].
  split; [by apply calendarData_throws; left|].
  intros H. destruct (H JSDate.DateFns3 [] 2025) as (cells & Hcells & Hc).
  pose proof (Hpad 2025 ltac:(simpl; lia)) as H3. rewrite Hcells in H3.
  simpl in H3. injection H3 as H3. rewrite H3 in Hc. discriminate Hc.
Qed.

Lemma lastReading_app (data1 data2 : list DataPoint) (s : string) :
  lastReading (data1 ++ data2) s =
  match lastReading data2 s with
  | Some v => Some v
  | None => lastReading data1 s
  end.
Proof.
  induction data1 as [|d data1 IH]; simpl.
  - by destruct (lastReading data2 s).
  - rewrite IH. by destruct (lastReading data2 s).
Qed.

Lemma getOrNull_lastReading (data : list DataPoint) (s : string) :
  DailyHeatmap.getOrNull (DailyHeatmap.buildDataMap data) s =
  match lastReading data s with
  | Some v => if Qeq_bool v 0 then None else Some v
  | None => None
  end.
Proof.
  unfold DailyHeatmap.getOrNull, truthy. rewrite buildDataMap_lookup.
  destruct (lastReading data s) as [v|]; [|done]. by destruct (Qeq_bool v 0).
Qed.

(** C10.  In the day frame of a year, the cell of a day whose reading has
    value exactly 0 carries [null], as does the cell of a day without any
    reading; adding a reading of 0 for a day that had none leaves the
    outcome unchanged, the whole frame where there is one. *)
Theorem day_frame_zero_reading_is_null :
  (forall (r : JSDate.release) (data : list DataPoint) (year : Z)
          (cells : list (option DailyHeatmap.Day)) (i : nat)
          (cell : DailyHeatmap.Day),
     DailyHeatmap.calendarData r data year = Some cells ->
     cells !! i = Some (Some cell) ->
     DailyHeatmap.dateStr cell = JSDate.format_yyyy_MM_dd (DailyHeatmap.ddate cell) /\
     (forall v, lastReading data (DailyHeatmap.dateStr cell) = Some v ->
                (v == 0)%Q -> DailyHeatmap.dvalue cell = None) /\
     (lastReading data (DailyHeatmap.dateStr cell) = None ->
      DailyHeatmap.dvalue cell = None)) /\
  (forall (r : JSDate.release) (data : list DataPoint) (year : Z) (s : string)
          (v : Q),
     lastReading data s = None -> (v == 0)%Q ->
     DailyHeatmap.calendarData r (data ++ [mkDataPoint s v]) year =
     DailyHeatmap.calendarData r data year).
Proof.
  split.
  - intros r data year cells i cell Hcells Hcell.
    apply calendarData_shape in Hcells as (days & _ & ->).
    apply list_elem_of_lookup_2, elem_of_app in Hcell as [Hpad|Hday].
    { by apply elem_of_replicate in Hpad as [? _]. }
    apply list_elem_of_fmap in Hday as (date & [= ->] & _). simpl.
    rewrite getOrNull_lastReading. split; [done|]. split.
    + intros v -> Hv. by rewrite (Qeq_eq_bool _ _ Hv).
    + by intros ->.
  - intros r data year s v Hnone Hv. unfold DailyHeatmap.calendarData.
    destruct (JSDate.eachDayOfInterval _ _ _) as [allDays|]; [|done]. simpl.
    destruct (JSDate.getDay <$> _) as [n|]; [|done]. simpl.
    do 3 f_equal. apply list_fmap_ext. intros _ date _. f_equal.
    rewrite !getOrNull_lastReading, lastReading_app. simpl.
    case_bool_decide as Hs; [|done]. subst s.
    by rewrite Hnone, (Qeq_eq_bool _ _ Hv).
Qed.

Lemma day_frame_zero_reading_is_null_witness :
  exists cells cell,
    DailyHeatmap.calendarData JSDate.DateFns3 [mkDataPoint "2025-01-02" 0] 2025
      = Some cells /\
    cells !! 4%nat = Some (Some cell) /\
    DailyHeatmap.dateStr cell = "2025-01-02"%string /\
    DailyHeatmap.dvalue cell = None.
Proof.
  destruct (DailyHeatmap.calendarData JSDate.DateFns3
              [mkDataPoint "2025-01-02" 0] 2025) as [cells|] eqn:Hcells;
    [|vm_compute in Hcells; discriminate].
  destruct (cells !! 4%nat) as [[cell|]|] eqn:Hcell;
    [|vm_compute in Hcells; injection Hcells as <-; vm_compute in Hcell;
      discriminate..].
  exists cells, cell.
  destruct (proj1 day_frame_zero_reading_is_null _ _ _ _ _ _ Hcells Hcell)
    as (Hstr & Hzero & _).
  assert (DailyHeatmap.dateStr cell = "2025-01-02"%string) as Hs.
  { vm_compute in Hcells. injection Hcells as <-. vm_compute in Hcell.
    by injection Hcell as <-. }
  split; [done|]. split; [done|]. split; [done|].
  apply (Hzero 0%Q); [|reflexivity]. rewrite Hs. reflexivity.
Defined.

(** ** Heatmap *)

(** *** The key [`${year}-${month}`] determines the year and the month *)

Lemma string_app_assoc (a b c : string) : (a +:+ b) +:+ c = a +:+ (b +:+ c).
Proof.
  induction a as [|x a IH]; [done|].
  change (String x ((a +:+ b) +:+ c) = String x (a +:+ (b +:+ c))). by f_equal.
Qed.

Lemma dashFree_app (a b : string) : dashFree a -> dashFree b -> dashFree (a +:+ b).
Proof.
  induction a as [|x a IH]; [done|].
  change (dashFree (String x a +:+ b)) with (x <> "-"%char /\ dashFree (a +:+ b)).
  intros [??] ?. auto.
Qed.

Lemma pretty_N_char_no_dash (x : N) : pretty_N_char x <> "-"%char.
Proof. unfold pretty_N_char. by repeat case_match. Qed.

Lemma pretty_N_go_digits (x : N) (s : string) :
  exists ds, pretty_N_go x s = ds +:+ s /\ dashFree ds /\
             ((0 < x)%N -> ds <> EmptyString).
Proof.
  revert s. induction (N.lt_wf_0 x) as [x _ IH]; intros s.
  assert (x = 0 \/ 0 < x)%N as [->|Hx] by lia.
  - exists EmptyString. rewrite pretty_N_go_0. split; [done|]. split; [done|lia].
  - rewrite pretty_N_go_step by done.
    destruct (IH (x `div` 10)%N ltac:(by apply N.div_lt)
                (String (pretty_N_char (x `mod` 10)) s)) as (ds & -> & Hds & _).
    exists (ds +:+ String (pretty_N_char (x `mod` 10)) EmptyString).
    split; [by rewrite string_app_assoc|]. split.
    + apply dashFree_app; [done|]. simpl. split; [|done].
      apply pretty_N_char_no_dash.
    + intros _. by destruct ds.
Qed.

Lemma pretty_N_dashFree (x : N) : dashFree (pretty x) /\ pretty x <> EmptyString.
Proof.
  unfold pretty, pretty_N. case_decide as Hx.
  - split; [|done]. simpl. split; [|done]. discriminate.
  - destruct (pretty_N_go_digits x EmptyString) as (ds & -> & Hds & Hne).
    assert (ds +:+ EmptyString = ds) as ->.
    { clear. induction ds as [|c ds IH]; [done|].
      change (String c (ds +:+ EmptyString) = String c ds). by f_equal. }
    split; [done|]. apply Hne. lia.
Qed.

Lemma split_at_dash (a a' b b' : string) :
  dashFree a -> dashFree a' ->
  a +:+ String "-" b = a' +:+ String "-" b' -> a = a' /\ b = b'.
Proof.
  revert a'. induction a as [|x a IH]; intros [|x' a']; simpl.
  - intros _ _ [= ->]. done.
  - intros _ [Hx _] [= <- _]. done.
  - intros [Hx _] _ [= -> _]. done.
  - intros [_ Ha] [_ Ha'] [= -> Heq].
    destruct (IH a' Ha Ha' Heq) as [-> ->]. done.
Qed.

Lemma key_inj (y m y' m' : Z) :
  Heatmap.key y m = Heatmap.key y' m' -> y = y' /\ m = m'.
Proof.
  unfold Heatmap.key. change ("-" +:+ ?s) with (String "-" s).
  assert (forall z : Z, 0 <= z ->
            dashFree (pretty z) /\ pretty z <> EmptyString) as Hnonneg.
  { intros [|p|p] Hz; [by repeat split| |lia]. apply (pretty_N_dashFree (Npos p)). }
  assert (forall p : positive, pretty (Zneg p) = String "-" (pretty (Zpos p)))
    as Hneg by done.
  intros Heq.
  destruct (Z.le_gt_cases 0 y) as [Hy|Hy], (Z.le_gt_cases 0 y') as [Hy'|Hy'].
  - destruct (Hnonneg y Hy) as [Hd _], (Hnonneg y' Hy') as [Hd' _].
    destruct (split_at_dash _ _ _ _ Hd Hd' Heq) as [Hyy Hmm].
    split; by apply (inj pretty).
  - destruct y' as [|p'|p']; try lia. rewrite Hneg in Heq.
    destruct (Hnonneg y Hy) as [Hd Hne].
    destruct (pretty y) as [|c s]; [done|]. simpl in *.
    destruct Hd as [Hc _]. by injection Heq as -> _.
  - destruct y as [|p|p]; try lia. rewrite Hneg in Heq.
    destruct (Hnonneg y' Hy') as [Hd Hne].
    destruct (pretty y') as [|c s]; [done|]. simpl in *.
    destruct Hd as [Hc _]. by injection Heq as <- _.
  - destruct y as [|p|p], y' as [|p'|p']; try lia. rewrite !Hneg in Heq.
    simpl in Heq. injection Heq as Heq.
    destruct (Hnonneg (Zpos p) ltac:(lia)) as [Hd _].
    destruct (Hnonneg (Zpos p') ltac:(lia)) as [Hd' _].
    destruct (split_at_dash _ _ _ _ Hd Hd' Heq) as [Hyy Hmm].
    apply (inj pretty) in Hyy, Hmm. split; [congruence|done].
Qed.

(** *** The accumulator of a key *)

Lemma accumulate_lookup (data : list DataPoint) (map : gmap string Heatmap.Entry)
    (y m : Z) :
  fold_left Heatmap.accumulate data map !! Heatmap.key y m =
  match monthBucket y m data with
  | [] => map !! Heatmap.key y m
  | vs =>
      let e0 := default (Heatmap.mkEntry 0 0) (map !! Heatmap.key y m) in
      Some (Heatmap.mkEntry (fold_left Qplus vs (Heatmap.sum e0))
                            (Heatmap.count e0 + Z.of_nat (length vs)))
  end.
Proof.
  revert map. induction data as [|d data IH]; intros map; [done|].
  simpl. rewrite IH. unfold monthBucket. rewrite partition_cons.
  unfold Heatmap.accumulate, inPartition.
  destruct (JSDate.parse (date d)) as [c|]; [|done].
  destruct (decide (Heatmap.key (JSDate.year c) (JSDate.month c) = Heatmap.key y m))
    as [Hk|Hk].
  - destruct (key_inj _ _ _ _ Hk) as [-> ->].
    rewrite !Z.eqb_refl, lookup_insert_eq. simpl.
    destruct (partition (Z.eqb y) m data) as [|v vs];
      simpl; do 2 f_equal; lia.
  - rewrite lookup_insert_ne by done.
    destruct (Z.eqb_spec y (JSDate.year c)) as [Hy|Hy]; simpl; [|done].
    destruct (Z.eqb_spec (JSDate.month c) m) as [Hm|Hm]; simpl; [|done].
    by subst.
Qed.

Lemma cellAverage_bucket (data : list DataPoint) (y m : Z) :
  Heatmap.cellAverage (Heatmap.matrix data) y m = averageOrNull (monthBucket y m data).
Proof.
  unfold Heatmap.cellAverage, Heatmap.matrix. simpl.
  rewrite accumulate_lookup, lookup_empty.
  by destruct (monthBucket y m data).
Qed.

(** C6.  For every input series and every year and 0-based month, the
    month aggregator's cell average is the exact quotient sum / count over
    the readings whose valid date has that calendar year and month, and it
    is [null] when there is no such reading. *)
Theorem month_bucket_mean (data : list DataPoint) (y m : Z) :
  optQeq (Heatmap.cellAverage (Heatmap.matrix data) y m)
         (meanOrNull (monthBucket y m data)).
Proof.
  rewrite cellAverage_bucket.
  destruct (monthBucket y m data) as [|v vs] eqn:Hb; [constructor|].
  destruct (averageOrNull_mean (v :: vs)) as (q & -> & Hq); [done|].
  by constructor.
Qed.

(** ** ISO weeks *)

Section ISOWeekFacts.
Import JSDate.

Lemma parse_valid (s : string) (c : civil) :
  parse s = Some c -> validCivil (year c) (month c) (day c) = true.
Proof.
  unfold parse.
  do 10 (destruct s as [|? s]; [done|]). destruct s; [|done].
  destruct (_ && _); [|done]. unfold parseFields. intros H.
  repeat (apply bind_Some in H as (? & _ & H)). cbn zeta in H.
  by destruct (validCivil _ _ _) eqn:Hv; simplify_eq.
Qed.

Lemma validCivil_in_year (y m d : Z) :
  validCivil y m d = true -> mkCivil y m d ∈ eachDayOfYear y.
Proof.
  unfold validCivil. rewrite !andb_true_iff, !Z.leb_le. intros [[[??]?]?].
  apply elem_of_eachDayOfYear. cbn [year month day]. lia.
Qed.




End ISOWeekFacts.

(** ** HealthChart *)

Section HealthChartFacts.
Import HealthChart.







Lemma averageOrNull_meanOrNull (l : list Q) :
  optQeq (averageOrNull l) (meanOrNull l).
Proof.
  destruct l as [|v vs]; [constructor|].
  destruct (averageOrNull_mean (v :: vs)) as (q & -> & Hq); [done|].
  by constructor.
Qed.

End HealthChartFacts.

Lemma V1_chartData_rows pm prov hdcData dis Y (row : HealthChart.V1.Row) :
  row ∈ HealthChart.V1.chartData pm prov hdcData dis Y <->
  exists hdc yearHDC i,
    HealthChart.validate pm prov hdcData Y = Some (hdc, yearHDC) /\
    0 <= i < 53 /\
    HealthChart.V1.weekRow (HealthChart.weeklyPM25 pm Y) yearHDC dis i = Some row.
Proof.
  unfold HealthChart.V1.chartData.
  destruct (HealthChart.validate pm prov hdcData Y) as [[hdc yearHDC]|].
  - rewrite list_elem_of_omap. split.
    + intros (i & Hi & Hrow). apply elem_of_seqZ in Hi.
      exists hdc, yearHDC, i. repeat split; [lia..|done].
    + intros (? & ? & i & [= <- <-] & Hi & Hrow). exists i. split; [|done].
      apply elem_of_seqZ. lia.
  - split; [by intros ?%elem_of_nil|]. by intros (? & ? & ? & ? & _).
Qed.

Lemma V2_chartData_rows pm prov hdcData dis Y (row : HealthChart.V2.Row) :
  row ∈ HealthChart.V2.chartData pm prov hdcData dis Y <->
  exists hdc yearHDC i,
    HealthChart.validate pm prov hdcData Y = Some (hdc, yearHDC) /\
    0 <= i < 53 /\
    HealthChart.V2.weekRow (HealthChart.weeklyPM25 pm Y)
      (HealthChart.groups (HealthChart.metadata hdc)) yearHDC dis i = Some row.
Proof.
  unfold HealthChart.V2.chartData.
  destruct (HealthChart.validate pm prov hdcData Y) as [[hdc yearHDC]|].
  - rewrite list_elem_of_omap. split.
    + intros (i & Hi & Hrow). apply elem_of_seqZ in Hi.
      exists hdc, yearHDC, i. repeat split; [lia..|done].
    + intros (? & ? & i & [= <- <-] & Hi & Hrow). exists i. split; [|done].
      apply elem_of_seqZ. lia.
  - split; [by intros ?%elem_of_nil|]. by intros (? & ? & ? & ? & _).
Qed.




(** *** The group loop of the second version *)

Lemma bool_decide_ext_if' {A} (P Q : Prop) `{Decision P, Decision Q} (x y : A) :
  (P <-> Q) -> (if bool_decide P then x else y) = (if bool_decide Q then x else y).
Proof. intros HPQ. by rewrite (bool_decide_ext P Q). Qed.

Section GroupLoopFacts.
Import HealthChart HealthChart.V2.

Lemma addGroup_countAt yearHDC i a g :
  addGroup yearHDC i a g =
  match countAt yearHDC i g with
  | Some n => mkAcc (<[g := n]> (groupCounts a)) (totalCases a + n)%Q true
  | None => a
  end.
Proof.
  unfold addGroup, countAt, index.
  destruct (diseases yearHDC !! g) as [counts|]; simpl; [|done].
  by destruct (counts !! Z.to_nat i).
Qed.

Lemma groupLoop_from groups yearHDC i a :
  let a' := fold_left (addGroup yearHDC i) groups a in
  totalCases a' = fold_left Qplus (omap (countAt yearHDC i) groups) (totalCases a) /\
  (hasHealthData a' = true <->
   hasHealthData a = true \/ exists g, g ∈ groups /\ is_Some (countAt yearHDC i g)) /\
  (forall g, groupCounts a' !! g =
             if bool_decide (g ∈ groups /\ is_Some (countAt yearHDC i g))
             then countAt yearHDC i g else groupCounts a !! g).
Proof.
  revert a. induction groups as [|g groups IH]; intros a;
    cbn [fold_left omap list_omap].
  - split; [done|]. split.
    + split; [by left|]. intros [?|(g & Hg & _)]; [done|]. by apply elem_of_nil in Hg.
    + intros g. rewrite bool_decide_false; [done|]. by intros [?%elem_of_nil _].
  - destruct (IH (addGroup yearHDC i a g)) as (Htot & Hhas & Hgc). clear IH.
    rewrite Htot, Hhas. setoid_rewrite Hgc. clear Htot Hhas Hgc.
    rewrite addGroup_countAt.
    destruct (countAt yearHDC i g) as [n|] eqn:Hg;
      cbn [fold_left totalCases hasHealthData groupCounts].
    + split; [reflexivity|]. split.
      * split; [|by left]. intros _. right. exists g. split; [left|]. by rewrite Hg.
      * intros g'. destruct (decide (g' = g)) as [->|Hne].
        -- rewrite lookup_insert_eq, Hg.
           rewrite (bool_decide_true (g ∈ g :: groups /\ _)); [|split; [left|done]].
           by case_bool_decide.
        -- rewrite lookup_insert_ne by done.
           apply bool_decide_ext_if'. rewrite elem_of_cons.
           split; [intros [??]; auto|]. intros [[?|?] ?]; [done|auto].
    + split; [reflexivity|]. split.
      * split.
        -- intros [?|(g' & Hin & Hsome)]; [by left|]. right. exists g'.
           split; [by right|done].
        -- intros [?|(g' & Hin & Hsome)]; [by left|]. right. exists g'.
           split; [|done]. apply elem_of_cons in Hin as [->|?]; [|done].
           rewrite Hg in Hsome. by destruct Hsome.
      * intros g'. apply bool_decide_ext_if'. rewrite elem_of_cons. split.
        -- intros [??]; auto.
        -- intros [[->|?] Hsome]; [|done]. rewrite Hg in Hsome. by destruct Hsome.
Qed.
End GroupLoopFacts.

Section TotalFacts.
Import HealthChart HealthChart.V2.

Lemma groupLoop_spec groups yearHDC i :
  let a := groupLoop groups yearHDC i in
  (totalCases a == sumQ (omap (countAt yearHDC i) groups))%Q /\
  (hasHealthData a = true <->
   exists g, g ∈ groups /\ is_Some (countAt yearHDC i g)) /\
  (forall g, g ∉ groups -> groupCounts a !! g = None).
Proof.
  destruct (groupLoop_from groups yearHDC i (mkAcc ∅ 0%Q false))
    as (Htot & Hhas & Hgc).
  cbn zeta. unfold groupLoop. split; [|split].
  - rewrite Htot. apply reduceSum_sumQ.
  - rewrite Hhas. cbn [hasHealthData]. split; [|by right].
    by intros [?|?].
  - intros g Hg. rewrite Hgc, bool_decide_false by (by intros [? _]). done.
Qed.

Lemma mkRow_field (weekNum : Z) (avg : option Q) (cases : jsval)
    (gc : gmap string Q) :
  (gc !! "week" = None ->
   field (mkRow weekNum avg cases gc) "week" = JNum (inject_Z weekNum)) /\
  (gc !! "pm25" = None -> field (mkRow weekNum avg cases gc) "pm25" = ofOption avg) /\
  (gc !! "cases" = None -> field (mkRow weekNum avg cases gc) "cases" = cases).
Proof.
  unfold field, mkRow.
  repeat split; intros Hk; rewrite lookup_union_r by (by rewrite lookup_fmap, Hk);
    by simplify_map_eq.
Qed.

(** In the second version, the case count of a row under 'Total' is the
    sum, over the categories listed in the metadata, of the counts they
    have for the week. *)
Lemma V2_total_recomputed pm prov hdcData Y hdc yearHDC (row : Row) :
  validate pm prov hdcData Y = Some (hdc, yearHDC) ->
  row ∈ chartData pm prov hdcData "Total" Y ->
  exists w q groupCounts,
    1 <= w <= 53 /\
    row = mkRow w (avgPM25 (weeklyPM25 pm Y) w) (JNum q) groupCounts /\
    (q == sumQ (omap (countAt yearHDC (w - 1)) (groups (metadata hdc))))%Q /\
    ("cases" ∉ groups (metadata hdc) -> field row "cases" = JNum q).
Proof.
  intros Hval (hdc' & yearHDC' & i & Hval' & Hi & Hrow)%V2_chartData_rows.
  rewrite Hval in Hval'. injection Hval' as <- <-.
  unfold weekRow in Hrow. destruct (_ || _); [|done].
  injection Hrow as <-.
  destruct (groupLoop_spec (groups (metadata hdc)) yearHDC i) as (Htot & _ & Hgc).
  eexists (i + 1), _, _. split; [lia|]. split; [reflexivity|]. split.
  - by replace (i + 1 - 1) with i by lia.
  - intros Hcases. by apply mkRow_field, Hgc.
Qed.
End TotalFacts.

(** C3.  With 'Total' selected the first version of the component reads
    the array stored under the key "Total": on data whose stored total
    (99) disagrees with the per-category counts (5 and 7) it reports 99,
    and on the same data without a stored total it reports [null]; the
    sum over the categories of the metadata is 12, the value that the
    second version reports on both inputs. *)
Theorem total_cases_first_version_reads_stored_field :
  (HealthChart.V1.cases <$>
     HealthChart.V1.chartData firstWeekReading "Chonburi" (Some sampleHDC)
       "Total" 2024) !! 0%nat = Some (JNum 99) /\
  (HealthChart.V1.cases <$>
     HealthChart.V1.chartData firstWeekReading "Chonburi" (Some sampleHDCNoTotal)
       "Total" 2024) !! 0%nat = Some JNull /\
  (sumQ (omap (countAt sampleYear 0)
           (HealthChart.groups (HealthChart.metadata sampleHDC))) == 12)%Q /\
  ((fun row => HealthChart.V2.field row "cases") <$>
     HealthChart.V2.chartData firstWeekReading "Chonburi" (Some sampleHDC)
       "Total" 2024) !! 0%nat = Some (JNum 12) /\
  ((fun row => HealthChart.V2.field row "cases") <$>
     HealthChart.V2.chartData firstWeekReading "Chonburi" (Some sampleHDCNoTotal)
       "Total" 2024) !! 0%nat = Some (JNum 12).
Proof. repeat split; vm_compute; reflexivity. Qed.

(** *** Which weeks get a row *)

Section SparseRowsFacts.
Import HealthChart.

Lemma validate_None pm prov hdcData Y :
  validate pm prov hdcData Y = None <->
  pm = [] \/ sourceRecord hdcData prov Y = None.
Proof.
  unfold validate, sourceRecord.
  destruct hdcData as [hdc|]; simpl; [|by intuition].
  destruct (data hdc !! prov) as [byYear|]; simpl; [|by intuition].
  destruct (byYear !! Y); simpl; [|by intuition].
  destruct pm; simpl; split; intros; intuition discriminate.
Qed.

Lemma validate_Some pm prov hdcData Y hdc yearHDC :
  validate pm prov hdcData Y = Some (hdc, yearHDC) ->
  pm <> [] /\ hdcData = Some hdc /\ sourceRecord hdcData prov Y = Some yearHDC.
Proof.
  unfold validate, sourceRecord.
  destruct hdcData as [hdc'|]; simpl; [|done].
  destruct (data hdc' !! prov) as [byYear|]; simpl; [|done].
  destruct (byYear !! Y); simpl; [|done].
  destruct pm; simpl; [done|]. by intros [= <- <-].
Qed.

Lemma notNull_true (v : jsval) : notNull v = true <-> v <> JNull.
Proof. by destruct v. Qed.

Lemma V1_rows_of_week pm prov hdcData dis Y hdc yearHDC (w : Z) (row : V1.Row) :
  validate pm prov hdcData Y = Some (hdc, yearHDC) ->
  1 <= w <= 53 ->
  let avg := avgPM25 (weeklyPM25 pm Y) w in
  let cc := V1.caseCount yearHDC dis (w - 1) in
  row ∈ V1.chartData pm prov hdcData dis Y /\ V1.week row = w <->
  row = V1.mkRow w avg cc /\ (avg <> None \/ cc <> JNull).
Proof.
  intros Hval Hw avg cc. rewrite V1_chartData_rows. split.
  - intros [(hdc' & yearHDC' & i & Hval' & Hi & Hrow) Hweek].
    rewrite Hval in Hval'. injection Hval' as <- <-.
    unfold V1.weekRow in Hrow.
    destruct (_ || _) eqn:Hcond; [|done]. injection Hrow as <-.
    simpl in Hweek. subst avg cc w. replace (i + 1 - 1) with i in * by lia.
    split; [done|].
    apply orb_true_iff in Hcond as [?%bool_decide_eq_true|?%notNull_true]; auto.
  - intros [-> Hcond]. split; [|done].
    exists hdc, yearHDC, (w - 1). split; [done|]. split; [lia|].
    unfold V1.weekRow. replace (w - 1 + 1) with w by lia. fold avg cc.
    assert (bool_decide (avg <> None) || notNull cc = true) as ->; [|done].
    apply orb_true_iff.
    destruct Hcond; [left; by apply bool_decide_eq_true|right; by apply notNull_true].
Qed.

Lemma V2_rows_of_week pm prov hdcData dis Y hdc yearHDC (w : Z) :
  validate pm prov hdcData Y = Some (hdc, yearHDC) ->
  "week" ∉ groups (metadata hdc) ->
  1 <= w <= 53 ->
  (exists row, row ∈ V2.chartData pm prov hdcData dis Y /\
               V2.field row "week" = JNum (inject_Z w)) <->
  (avgPM25 (weeklyPM25 pm Y) w <> None \/
   exists g, g ∈ groups (metadata hdc) /\ is_Some (countAt yearHDC (w - 1) g)).
Proof.
  intros Hval Hweek Hw. setoid_rewrite V2_chartData_rows.
  assert (forall i avg cases,
            V2.field (V2.mkRow (i + 1) avg cases
                        (V2.groupCounts
                           (V2.groupLoop (groups (metadata hdc)) yearHDC i)))
                     "week" = JNum (inject_Z (i + 1))) as Hfield.
  { intros i avg cases. apply mkRow_field.
    by apply (groupLoop_spec (groups (metadata hdc)) yearHDC i). }
  split.
  - intros (row & (hdc' & yearHDC' & i & Hval' & Hi & Hrow) & Hrw).
    rewrite Hval in Hval'. injection Hval' as <- <-.
    unfold V2.weekRow in Hrow.
    destruct (_ || _) eqn:Hcond; [|done]. injection Hrow as <-.
    rewrite Hfield in Hrw. injection Hrw as Hrw.
    assert (w = i + 1) as -> by lia. replace (i + 1 - 1) with i by lia.
    apply orb_true_iff in Hcond as [?%bool_decide_eq_true|Hhas]; [by left|].
    right. by apply (groupLoop_spec (groups (metadata hdc)) yearHDC i).
  - intros Hcond.
    assert (bool_decide (avgPM25 (weeklyPM25 pm Y) (w - 1 + 1) <> None)
            || V2.hasHealthData
                 (V2.groupLoop (groups (metadata hdc)) yearHDC (w - 1)) = true)
      as Hemit.
    { apply orb_true_iff. replace (w - 1 + 1) with w by lia.
      destruct Hcond as [?|?]; [left; by apply bool_decide_eq_true|].
      right. by apply (groupLoop_spec (groups (metadata hdc)) yearHDC (w - 1)). }
    eexists. split.
    + exists hdc, yearHDC, (w - 1). split; [done|]. split; [lia|].
      unfold V2.weekRow. rewrite Hemit. reflexivity.
    + rewrite Hfield. by replace (w - 1 + 1) with w by lia.
Qed.
(** Without a count in any listed category the group loop leaves its
    accumulator as it starts: no group count, a total of 0, no health
    data. *)
Lemma groupLoop_no_counts groups yearHDC i :
  (forall g, g ∈ groups -> countAt yearHDC i g = None) ->
  V2.groupLoop groups yearHDC i = V2.mkAcc ∅ 0%Q false.
Proof.
  unfold V2.groupLoop. generalize (V2.mkAcc ∅ 0%Q false).
  induction groups as [|g groups IH]; intros a Hnone; [done|].
  cbn [fold_left]. rewrite addGroup_countAt, (Hnone g) by left.
  apply IH. intros g' Hg'. apply Hnone. by right.
Qed.

Lemma V2_rows_of_pm_only_week pm prov hdcData dis Y hdc yearHDC (w : Z)
    (row : V2.Row) :
  validate pm prov hdcData Y = Some (hdc, yearHDC) ->
  "week" ∉ groups (metadata hdc) ->
  1 <= w <= 53 ->
  (forall g, g ∈ groups (metadata hdc) -> countAt yearHDC (w - 1) g = None) ->
  row ∈ V2.chartData pm prov hdcData dis Y ->
  V2.field row "week" = JNum (inject_Z w) ->
  row = V2.mkRow w (avgPM25 (weeklyPM25 pm Y) w)
          (if bool_decide (dis = "Total"%string) then JNum 0 else JUndefined) ∅.
Proof.
  intros Hval Hweek Hw Hnone (hdc' & yearHDC' & i & Hval' & Hi & Hrow)%V2_chartData_rows
    Hrw.
  rewrite Hval in Hval'. injection Hval' as <- <-.
  unfold V2.weekRow in Hrow. destruct (_ || _); [|done]. injection Hrow as <-.
  assert (w = i + 1) as ->.
  { destruct (mkRow_field (i + 1) (avgPM25 (weeklyPM25 pm Y) (i + 1))
                (if bool_decide (dis = "Total"%string)
                 then JNum (V2.totalCases (V2.groupLoop (groups (metadata hdc)) yearHDC i))
                 else V2.groupCount (V2.groupLoop (groups (metadata hdc)) yearHDC i) dis)
                (V2.groupCounts (V2.groupLoop (groups (metadata hdc)) yearHDC i)))
      as (Hf & _).
    rewrite Hf in Hrw
      by by apply (groupLoop_spec (groups (metadata hdc)) yearHDC i).
    injection Hrw as Hrw. lia. }
  replace (i + 1 - 1) with i in Hnone by lia.
  rewrite (groupLoop_no_counts _ _ _ Hnone). cbn [V2.totalCases V2.groupCounts].
  unfold V2.groupCount. cbn [V2.groupCounts]. by rewrite lookup_empty.
Qed.
End SparseRowsFacts.

(** C4 (as amended).  When the validation guard fails - no case data
    for the province and year, or an empty PM2.5 series - no row is emitted
    at all.  When it passes, for every ISO week [w] in 1..53:

    - in the first version, where the selected category has no array or
      its array holds a count for [w], a row is emitted for [w] if and
      only if the weekly PM2.5 average or the case count is non-null;
      the row carries the two, so a week with only PM2.5 data yields a
      row whose case count is [null], and a week with neither is
      omitted;
    - in the second version a row is emitted for [w] if and only if the
      average is non-null or some category listed in the metadata has a
      count for [w], so a week with neither is omitted; a week with only
      PM2.5 data yields a row with the average whose case count is 0
      under 'Total' and [undefined] under a named category.

    What the first version emits where the array of the selected category
    ends before week [w] is left out of the statement. *)
Theorem aligner_sparse_rows :
  (forall pm prov hdcData dis Y,
     pm = [] \/ sourceRecord hdcData prov Y = None ->
     HealthChart.V1.chartData pm prov hdcData dis Y = [] /\
     HealthChart.V2.chartData pm prov hdcData dis Y = []) /\
  (forall pm prov hdcData dis Y yearHDC (w : Z),
     pm <> [] -> sourceRecord hdcData prov Y = Some yearHDC -> 1 <= w <= 53 ->
     let avg := HealthChart.avgPM25 (HealthChart.weeklyPM25 pm Y) w in
     let cc := HealthChart.V1.caseCount yearHDC dis (w - 1) in
     let emitted :=
       exists row, row ∈ HealthChart.V1.chartData pm prov hdcData dis Y /\
                   HealthChart.V1.week row = w in
     cc <> JUndefined ->
     (emitted <-> (avg <> None \/ cc <> JNull)) /\
     (forall row, row ∈ HealthChart.V1.chartData pm prov hdcData dis Y ->
                  HealthChart.V1.week row = w ->
                  row = HealthChart.V1.mkRow w avg cc) /\
     (avg <> None -> cc = JNull ->
      HealthChart.V1.mkRow w avg JNull
        ∈ HealthChart.V1.chartData pm prov hdcData dis Y) /\
     (avg = None -> cc = JNull -> ~ emitted)) /\
  (forall pm prov hdcData dis Y hdc yearHDC (w : Z),
     pm <> [] -> hdcData = Some hdc ->
     sourceRecord hdcData prov Y = Some yearHDC ->
     "week" ∉ HealthChart.groups (HealthChart.metadata hdc) ->
     1 <= w <= 53 ->
     let avg := HealthChart.avgPM25 (HealthChart.weeklyPM25 pm Y) w in
     let counted :=
       exists g, g ∈ HealthChart.groups (HealthChart.metadata hdc) /\
                 is_Some (countAt yearHDC (w - 1) g) in
     let emitted :=
       exists row, row ∈ HealthChart.V2.chartData pm prov hdcData dis Y /\
                   HealthChart.V2.field row "week" = JNum (inject_Z w) in
     (emitted <-> (avg <> None \/ counted)) /\
     (avg = None -> ~ counted -> ~ emitted) /\
     (avg <> None -> ~ counted ->
      forall row, row ∈ HealthChart.V2.chartData pm prov hdcData dis Y ->
                  HealthChart.V2.field row "week" = JNum (inject_Z w) ->
                  HealthChart.V2.field row "pm25" = HealthChart.V2.ofOption avg /\
                  HealthChart.V2.field row "cases" =
                    if bool_decide (dis = "Total"%string) then JNum 0
                    else JUndefined)).
Proof.
  assert (forall pm prov hdcData Y yearHDC,
            pm <> [] -> sourceRecord hdcData prov Y = Some yearHDC ->
            exists hdc, hdcData = Some hdc /\
              HealthChart.validate pm prov hdcData Y = Some (hdc, yearHDC))
    as Hguard.
  { intros pm prov hdcData Y yearHDC Hpm Hrec.
    destruct (HealthChart.validate pm prov hdcData Y) as [[hdc yh]|] eqn:Hval.
    - destruct (validate_Some _ _ _ _ _ _ Hval) as (_ & -> & Hrec').
      rewrite Hrec in Hrec'. injection Hrec' as ->. eauto.
    - apply validate_None in Hval as [?|Hnone]; [done|].
      by rewrite Hrec in Hnone. }
  split; [|split].
  - intros pm prov hdcData dis Y Hfail%validate_None.
    unfold HealthChart.V1.chartData, HealthChart.V2.chartData. by rewrite Hfail.
  - intros pm prov hdcData dis Y yearHDC w Hpm Hrec Hw avg cc emitted _.
    destruct (Hguard _ _ _ _ _ Hpm Hrec) as (hdc & _ & Hval).
    pose proof (fun row => V1_rows_of_week pm prov hdcData dis Y hdc yearHDC w row
                             Hval Hw) as Hrows.
    cbn zeta in Hrows. fold avg cc in Hrows.
    assert (emitted <-> avg <> None \/ cc <> JNull) as Hiff.
    { split.
      - intros (row & Hin & Hweek). by apply (Hrows row).
      - intros Hcond. exists (HealthChart.V1.mkRow w avg cc).
        by apply (Hrows (HealthChart.V1.mkRow w avg cc)). }
    split; [done|]. split; [|split].
    + intros row Hin Hweek. by apply (Hrows row).
    + intros Havg Hcc. rewrite <- Hcc.
      apply (Hrows (HealthChart.V1.mkRow w avg cc)). auto.
    + intros Havg Hcc [?|?]%Hiff; done.
  - intros pm prov hdcData dis Y hdc yearHDC w Hpm Hhdc Hrec Hweek Hw avg counted
      emitted.
    destruct (Hguard _ _ _ _ _ Hpm Hrec) as (hdc' & Hhdc' & Hval).
    rewrite Hhdc in Hhdc'. injection Hhdc' as <-.
    assert (emitted <-> avg <> None \/ counted) as Hiff
      by by apply (V2_rows_of_week pm prov hdcData dis Y hdc yearHDC w).
    split; [done|]. split.
    + intros Havg Hcount [?|?]%Hiff; done.
    + intros Havg Hcount row Hin Hrw.
      rewrite (V2_rows_of_pm_only_week pm prov hdcData dis Y hdc yearHDC w row
                 Hval Hweek Hw); [|intros g Hg|done..].
      * fold avg. split; by apply mkRow_field.
      * destruct (countAt yearHDC (w - 1) g) eqn:Hc; [|done].
        exfalso. apply Hcount. exists g. split; [done|]. by rewrite Hc.
Qed.

Lemma aligner_sparse_rows_witness :
  (HealthChart.V1.chartData [] "Chonburi" (Some sampleHDC) "Respiratory" 2024 = [] /\
   HealthChart.V2.chartData [] "Chonburi" (Some sampleHDC) "Respiratory" 2024 = []) /\
  HealthChart.V1.mkRow 1
    (HealthChart.avgPM25 (HealthChart.weeklyPM25 firstWeekReading 2024) 1) JNull
    ∈ HealthChart.V1.chartData firstWeekReading "Chonburi" (Some sampleHDC)
        "Asthma" 2024 /\
  (exists row,
     row ∈ HealthChart.V2.chartData firstWeekReading "Chonburi" (Some sampleHDC)
             "Asthma" 2024 /\
     HealthChart.V2.field row "week" = JNum (inject_Z 2)) /\
  (forall row,
     row ∈ HealthChart.V2.chartData secondWeekReading "Chonburi" (Some partialHDC)
             "Total" 2025 ->
     HealthChart.V2.field row "week" = JNum (inject_Z 2) ->
     HealthChart.V2.field row "cases" = JNum 0).
Proof.
  destruct aligner_sparse_rows as (Hguard & Hv1 & Hv2).
  split; [|split; [|split]].
  - apply Hguard. by left.
  - apply (Hv1 firstWeekReading "Chonburi" (Some sampleHDC) "Asthma" 2024
               sampleYear 1).
    + discriminate.
    + vm_compute. reflexivity.
    + lia.
    + vm_compute. discriminate.
    + vm_compute. discriminate.
    + vm_compute. reflexivity.
  - apply (Hv2 firstWeekReading "Chonburi" (Some sampleHDC) "Asthma" 2024
               sampleHDC sampleYear 2).
    + discriminate.
    + reflexivity.
    + vm_compute. reflexivity.
    + apply (bool_decide_unpack _). vm_compute. reflexivity.
    + lia.
    + right. exists "Skin". split.
      * apply (bool_decide_unpack _). vm_compute. reflexivity.
      * vm_compute. eauto.
  - intros row Hin Hrw.
    destruct (Hv2 secondWeekReading "Chonburi" (Some partialHDC) "Total" 2025
                partialHDC partialYear 2) as (_ & _ & Hpm).
    + discriminate.
    + reflexivity.
    + vm_compute. reflexivity.
    + apply (bool_decide_unpack _). vm_compute. reflexivity.
    + lia.
    + apply (Hpm ltac:(vm_compute; discriminate)); [|done..].
      intros (g & Hg & Hc).
      change (HealthChart.groups (HealthChart.metadata partialHDC))
        with ["Respiratory"%string; "Skin"%string] in Hg.
      repeat (apply elem_of_cons in Hg as [->|Hg];
              [vm_compute in Hc; by destruct Hc|]).
      by apply elem_of_nil in Hg.
Defined.

(** C4, as stated, fails.  With a PM2.5 reading in week 2 of 2025 and no
    case data for 2025 the claim asks for a row with a [null] case count,
    and with case data for 2024 and an empty PM2.5 series it asks for rows
    with a [null] average; the guard returns the empty list in both
    cases, in both versions.  With case data for 2025 that end after
    week 1, the second version gives the row of week 2, which has only
    PM2.5 data, the case count 0 under 'Total' and [undefined] under
    'Skin', not [null], and under 'Skin' it emits a row for week 1, where
    neither the average nor the count of that category exists.  On the
    same data under 'Respiratory' the first version emits 53 rows, among
    them one for week 3, which has neither. *)
Lemma aligner_rows_differ_from_claim :
  HealthChart.avgPM25 (HealthChart.weeklyPM25 secondWeekReading 2025) 2 <> None /\
  HealthChart.V1.chartData secondWeekReading "Chonburi" (Some sampleHDC)
    "Respiratory" 2025 = [] /\
  HealthChart.V2.chartData secondWeekReading "Chonburi" (Some sampleHDC)
    "Respiratory" 2025 = [] /\
  sourceCaseCount (Some sampleHDC) "Chonburi" 2024 "Respiratory" 2 = JNum 5 /\
  HealthChart.V1.chartData [] "Chonburi" (Some sampleHDC) "Respiratory" 2024 = [] /\
  (fun row => (HealthChart.V2.field row "week", HealthChart.V2.field row "pm25",
               HealthChart.V2.field row "cases"))
    <$> HealthChart.V2.chartData secondWeekReading "Chonburi" (Some partialHDC)
          "Total" 2025
  = [(JNum 1, JNull, JNum 5); (JNum 2, JNum 10, JNum 0)] /\
  (fun row => (HealthChart.V2.field row "week", HealthChart.V2.field row "pm25",
               HealthChart.V2.field row "cases"))
    <$> HealthChart.V2.chartData secondWeekReading "Chonburi" (Some partialHDC)
          "Skin" 2025
  = [(JNum 1, JNull, JUndefined); (JNum 2, JNum 10, JUndefined)] /\
  length (HealthChart.V1.chartData secondWeekReading "Chonburi" (Some partialHDC)
            "Respiratory" 2025) = 53%nat /\
  HealthChart.V1.chartData secondWeekReading "Chonburi" (Some partialHDC)
    "Respiratory" 2025 !! 2%nat
  = Some (HealthChart.V1.mkRow 3 None JUndefined) /\
  ~ (forall pm prov hdcData dis Y (w : Z),
       1 <= w <= 53 ->
       ((exists row, row ∈ HealthChart.V1.chartData pm prov hdcData dis Y /\
                     HealthChart.V1.week row = w) <->
        (HealthChart.avgPM25 (HealthChart.weeklyPM25 pm Y) w <> None \/
         sourceCaseCount hdcData prov Y dis w <> JNull))).
Proof.
  assert (HealthChart.avgPM25 (HealthChart.weeklyPM25 secondWeekReading 2025) 2
          <> None) as Havg by (vm_compute; discriminate).
  assert (HealthChart.V1.chartData secondWeekReading "Chonburi" (Some sampleHDC)
            "Respiratory" 2025 = []) as Hnil by (vm_compute; reflexivity).
  split; [exact Havg|]. split; [exact Hnil|].
  do 7 (split; [vm_compute; reflexivity|]).
  intros H.
  destruct (H secondWeekReading "Chonburi" (Some sampleHDC) "Respiratory" 2025 2
              ltac:(lia)) as [_ Hemit].
  destruct (Hemit (or_introl Havg)) as (row & Hin & _).
  rewrite Hnil in Hin. by apply elem_of_nil in Hin.
Qed.

(** ** TrendChart on a series in any order *)

Lemma asDataPoint_sorted (data : list DataPoint) (W : Z) :
  (fun r => mkDataPoint (TrendChart.rdate r) (TrendChart.rvalue r))
    <$> TrendChart.chartData data W
  = arraySort TrendChart.compareByDate data.
Proof.
  apply list_eq. intros i. rewrite list_lookup_fmap, chartData_lookup.
  destruct (arraySort TrendChart.compareByDate data !! i) as [[d v]|]; done.
Qed.

(** X1.  On a series given in any order, with valid dates and a window
    size [W >= 1], the rows of the moving-average filter are the input
    readings in ascending date order; the row at index [i] carries [null]
    when [i < W - 1] and otherwise the mean of the [W] readings that end at
    position [i] of that ascending order. *)
Theorem moving_average_unsorted_input (data : list DataPoint) (W : Z) :
  1 <= W ->
  Forall (fun p => is_Some (TrendChart.timeOf p)) data ->
  let rows := TrendChart.chartData data W in
  let sorted :=
    (fun r => mkDataPoint (TrendChart.rdate r) (TrendChart.rvalue r)) <$> rows in
  sorted ≡ₚ data /\ StronglySorted dateLe sorted /\
  forall (i : nat) (row : TrendChart.Row),
    rows !! i = Some row ->
    (Z.of_nat i < W - 1 -> TrendChart.ma row = None) /\
    (W - 1 <= Z.of_nat i ->
     exists q, TrendChart.ma row = Some q /\
               (q == meanQ (window sorted i (Z.to_nat W)))%Q).
Proof.
  intros HW Hvalid rows sorted. subst sorted rows.
  rewrite asDataPoint_sorted.
  split; [apply arraySort_perm|]. split; [by apply arraySort_byDate_sorted|].
  intros i row Hrow. rewrite chartData_lookup in Hrow.
  destruct (arraySort TrendChart.compareByDate data !! i) as [p|] eqn:Hp; [|done].
  injection Hrow as <-. cbn [TrendChart.ma].
  assert (i < length (arraySort TrendChart.compareByDate data))%nat
    by by eapply lookup_lt_Some.
  split.
  - intros Hlt. by rewrite (proj2 (Z.leb_gt _ _)) by lia.
  - intros Hle. rewrite (proj2 (Z.leb_le _ _)) by done.
    eexists; split; [reflexivity|].
    unfold meanQ. rewrite window_length by lia.
    rewrite <- (windowSum_window _ i (Z.to_nat W)) by lia.
    by rewrite !Z2Nat.id by lia.
Qed.

Lemma moving_average_unsorted_input_witness :
  StronglySorted dateLe
    ((fun r => mkDataPoint (TrendChart.rdate r) (TrendChart.rvalue r))
       <$> TrendChart.chartData unsortedDays 7).
Proof.
  assert (Forall (fun p => is_Some (TrendChart.timeOf p)) unsortedDays) as Hvalid
    by (repeat constructor; vm_compute; eauto).
  destruct (moving_average_unsorted_input unsortedDays 7 ltac:(lia) Hvalid)
    as (_ & Hsorted & _).
  exact Hsorted.
Defined.

(** ** The median splits the values *)

Section MedianFacts.
Import SeasonalChart.

Lemma sorted_take_le (s : list Q) (k : nat) (x : Q) :
  StronglySorted Qle s -> s !! k = Some x ->
  Forall (fun e => (e <= x)%Q) (take (S k) s).
Proof.
  intros Hs. revert k. induction Hs as [|y s Hs IH Hy]; intros k Hk; [done|].
  destruct k as [|k]; simpl in *.
  - injection Hk as ->. rewrite take_0. constructor; [apply Qle_refl|done].
  - constructor; [|by apply IH].
    rewrite Forall_forall in Hy. apply Hy. by eapply list_elem_of_lookup_2.
Qed.

Lemma sorted_drop_ge (s : list Q) (k : nat) (x : Q) :
  StronglySorted Qle s -> s !! k = Some x ->
  Forall (fun e => (x <= e)%Q) (drop k s).
Proof.
  intros Hs. revert k. induction Hs as [|y s Hs IH Hy]; intros k Hk; [done|].
  destruct k as [|k]; simpl in *.
  - injection Hk as ->. constructor; [apply Qle_refl|done].
  - by apply IH.
Qed.

Lemma filter_take_length {A} (P : A -> Prop) `{forall x, Decision (P x)}
    (l : list A) (k : nat) :
  Forall P (take k l) -> (k <= length l)%nat -> (k <= length (filter P l))%nat.
Proof.
  intros HP Hk.
  replace (filter P l) with (filter P (take k l ++ drop k l))
    by (by rewrite take_drop).
  rewrite filter_app, length_app, (filter_all P (take k l) HP), length_take. lia.
Qed.

Lemma filter_drop_length {A} (P : A -> Prop) `{forall x, Decision (P x)}
    (l : list A) (k : nat) :
  Forall P (drop k l) -> (length l - k <= length (filter P l))%nat.
Proof.
  intros HP.
  replace (filter P l) with (filter P (take k l ++ drop k l))
    by (by rewrite take_drop).
  rewrite filter_app, length_app, (filter_all P (drop k l) HP), length_drop. lia.
Qed.

Lemma middle_splits (s : list Q) :
  s <> [] -> StronglySorted Qle s ->
  (length s <= 2 * length (filter (fun v => (v <= middle s)%Q) s))%nat /\
  (length s <= 2 * length (filter (fun v => (middle s <= v)%Q) s))%nat.
Proof.
  intros Hne Hs. unfold middle.
  assert (0 < length s)%nat as Hlen by (destruct s; [done|simpl; lia]).
  pose proof (odd_mod2 (length s)) as Hodd.
  set (h := (length s / 2)%nat) in *.
  assert (length s = 2 * h + length s mod 2)%nat as Hdiv
    by (subst h; apply Nat.div_mod_eq).
  pose proof (Nat.mod_upper_bound (length s) 2 ltac:(lia)) as Hmod.
  destruct (Nat.odd (length s)).
  - apply negb_true_iff, Nat.eqb_neq in Hodd.
    destruct (lookup_lt_is_Some_2 s h) as [x Hx]; [lia|].
    rewrite (nth_lookup_Some _ _ _ _ Hx).
    pose proof (filter_take_length _ s (S h) (sorted_take_le s h x Hs Hx)).
    pose proof (filter_drop_length _ s h (sorted_drop_ge s h x Hs Hx)).
    lia.
  - apply negb_false_iff, Nat.eqb_eq in Hodd.
    destruct (lookup_lt_is_Some_2 s (h - 1)) as [a Ha]; [lia|].
    destruct (lookup_lt_is_Some_2 s h) as [b Hb]; [lia|].
    rewrite (nth_lookup_Some _ _ _ _ Ha), (nth_lookup_Some _ _ _ _ Hb).
    assert (a <= b)%Q as Hab.
    { pose proof (sorted_take_le s h b Hs Hb) as Hle.
      rewrite Forall_forall in Hle. apply Hle.
      apply (list_elem_of_lookup_2 _ (h - 1)). rewrite lookup_take_lt by lia. done. }
    pose proof (sorted_take_le s (h - 1) a Hs Ha) as Hta.
    replace (S (h - 1)) with h in Hta by lia.
    pose proof (sorted_drop_ge s h b Hs Hb) as Hdb.
    assert (Forall (fun v => (v <= (a + b) / 2)%Q) (take h s)) as H1.
    { eapply Forall_impl; [exact Hta|]. intros v Hv. simpl in Hv.
      apply Qle_shift_div_l; [reflexivity|]. lra. }
    assert (Forall (fun v => ((a + b) / 2 <= v)%Q) (drop h s)) as H2.
    { eapply Forall_impl; [exact Hdb|]. intros v Hv. simpl in Hv.
      apply Qle_shift_div_r; [reflexivity|]. lra. }
    pose proof (filter_take_length _ s h H1).
    pose proof (filter_drop_length _ s h H2).
    lia.
Qed.
End MedianFacts.

(** X3.  The value that [calculateMedian] returns for a non-empty list
    splits it in two: at least half of the values are less than or equal to
    it, and at least half are greater than or equal to it. *)
Theorem median_splits_values (values : list Q) :
  values <> [] ->
  let m := SeasonalChart.calculateMedian values in
  (length values <= 2 * length (filter (fun v => (v <= m)%Q) values))%nat /\
  (length values <= 2 * length (filter (fun v => (m <= v)%Q) values))%nat.
Proof.
  intros Hne m. subst m. rewrite calculateMedian_middle by done.
  set (s := arraySort (fun a b => Some (a - b)%Q) values).
  assert (s ≡ₚ values) as Hp by apply arraySort_perm.
  rewrite <- !Hp. apply middle_splits; [|apply numericSort_sorted].
  intros Hnil. rewrite Hnil in Hp. by apply Permutation_nil in Hp.
Qed.

Lemma median_splits_values_witness :
  (length [10%Q; 40%Q; 20%Q; 30%Q] <=
   2 * length (filter (fun v => (v <= SeasonalChart.calculateMedian
                                        [10%Q; 40%Q; 20%Q; 30%Q])%Q)
                      [10%Q; 40%Q; 20%Q; 30%Q]))%nat.
Proof. apply (median_splits_values [10%Q; 40%Q; 20%Q; 30%Q]). discriminate. Defined.

(** ** The seasonal comparison and the years it reads *)

Lemma partition_filter (inYears : Z -> bool) (keep : DataPoint -> bool) (i : Z)
    (data : list DataPoint) :
  (forall d, inPartition inYears i d = true -> keep d = true) ->
  partition inYears i (List.filter keep data) = partition inYears i data.
Proof.
  intros Hkeep. induction data as [|d data IH]; [done|].
  rewrite partition_cons. simpl.
  destruct (keep d) eqn:Hk.
  - by rewrite partition_cons, IH.
  - destruct (inPartition inYears i d) eqn:Hd; [|done].
    apply Hkeep in Hd. congruence.
Qed.

Lemma partition_nil_outside (inYears : Z -> bool) (keep : DataPoint -> bool) (i : Z)
    (data : list DataPoint) :
  (forall d, inPartition inYears i d = true -> keep d = true) ->
  List.filter keep data = [] -> partition inYears i data = [].
Proof.
  intros Hkeep Hnil. by rewrite <- (partition_filter _ keep), Hnil.
Qed.

Lemma seasonal_partitions_in_range (i : Z) (d : DataPoint) :
  (inPartition isCurrentYear i d = true -> inSeasonalRange d = true) /\
  (inPartition isPrevYear i d = true -> inSeasonalRange d = true) /\
  (inPartition inMedianRange i d = true -> inSeasonalRange d = true).
Proof.
  unfold inPartition, inSeasonalRange, isCurrentYear, isPrevYear, inMedianRange.
  destruct (JSDate.parse (date d)) as [c|]; [|done].
  repeat split; intros H; apply andb_true_iff in H as [H _];
    apply andb_true_iff; rewrite !Z.leb_le; 
    rewrite ?Z.eqb_eq, ?andb_true_iff, ?Z.leb_le in H; lia.
Qed.

(** X4.  For a non-empty series, the current-year and previous-year
    columns of the row of month [i] are the arithmetic means of the
    readings of that month dated 2025 and 2024 respectively, and [null]
    when there is none. *)
Theorem seasonal_year_means (data : list DataPoint) (i : Z) :
  data <> [] -> 0 <= i < 12 ->
  exists row,
    SeasonalChart.processedData data !! Z.to_nat i = Some row /\
    optQeq (SeasonalChart.current row) (meanOrNull (partition isCurrentYear i data)) /\
    optQeq (SeasonalChart.prev row) (meanOrNull (partition isPrevYear i data)).
Proof.
  intros Hd Hi. rewrite processedData_rows by done.
  rewrite list_lookup_fmap, lookup_seqZ_lt by lia. simpl.
  replace (0 + Z.of_nat (Z.to_nat i)) with i by lia.
  eexists; split; [reflexivity|]. simpl.
  split; apply averageOrNull_meanOrNull.
Qed.

Lemma seasonal_year_means_witness :
  exists row,
    SeasonalChart.processedData weekOfTens !! Z.to_nat 0 = Some row /\
    optQeq (SeasonalChart.current row) (meanOrNull (partition isCurrentYear 0 weekOfTens)) /\
    optQeq (SeasonalChart.prev row) (meanOrNull (partition isPrevYear 0 weekOfTens)).
Proof. apply (seasonal_year_means weekOfTens 0); [discriminate|lia]. Defined.

(** X5.  Readings with an invalid date or dated outside 2020..2025 have
    no influence on the seasonal comparison: a series gives the same twelve
    rows as the series restricted to the readings of 2020..2025 when that
    restriction is not empty, and twelve rows of [null]s when it is. *)
Theorem seasonal_ignores_other_years (data : list DataPoint) :
  data <> [] ->
  let kept := List.filter inSeasonalRange data in
  (kept <> [] ->
   SeasonalChart.processedData data = SeasonalChart.processedData kept) /\
  (kept = [] ->
   length (SeasonalChart.processedData data) = 12%nat /\
   Forall (fun row => SeasonalChart.current row = None /\
                      SeasonalChart.prev row = None /\
                      SeasonalChart.median row = None)
          (SeasonalChart.processedData data)).
Proof.
  intros Hd kept. split.
  - intros Hk. rewrite !processedData_rows by done.
    apply list_fmap_ext. intros _ i _. unfold expectedRow. subst kept.
    by rewrite !(partition_filter _ inSeasonalRange)
      by apply seasonal_partitions_in_range.
  - intros Hk. rewrite processedData_rows by done. split; [done|].
    apply Forall_fmap, Forall_forall. intros i _. unfold expectedRow. simpl.
    by rewrite !(partition_nil_outside _ inSeasonalRange i data)
      by (apply seasonal_partitions_in_range || exact Hk).
Qed.

Lemma seasonal_ignores_other_years_witness :
  SeasonalChart.processedData (mkDataPoint "1999-12-31" 5 :: weekOfTens) =
  SeasonalChart.processedData
    (List.filter inSeasonalRange (mkDataPoint "1999-12-31" 5 :: weekOfTens)).
Proof.
  apply (seasonal_ignores_other_years (mkDataPoint "1999-12-31" 5 :: weekOfTens));
    [discriminate|]. vm_compute. discriminate.
Defined.

(** ** The colour scale *)

Lemma getColor_band (v : Q) :
  exists i : nat,
    colourScale !! i = Some (Heatmap.getColor v) /\
    match i with
    | 0%nat => v <= 15
    | 1%nat => 15 < v <= 25
    | 2%nat => 25 < v <= 37.5
    | 3%nat => 37.5 < v <= 75
    | _ => 75 < v
    end%Q.
Proof.
  assert (forall a b : Q, Qle_bool a b = false -> (b < a)%Q) as Hgt.
  { intros a b H. apply Qnot_le_lt. rewrite <- Qle_bool_iff. congruence. }
  unfold Heatmap.getColor.
  destruct (Qle_bool v 15) eqn:H1;
    [exists 0%nat; by apply Qle_bool_iff in H1|apply Hgt in H1].
  destruct (Qle_bool v 25) eqn:H2;
    [exists 1%nat; by apply Qle_bool_iff in H2|apply Hgt in H2].
  destruct (Qle_bool v 37.5) eqn:H3;
    [exists 2%nat; by apply Qle_bool_iff in H3|apply Hgt in H3].
  destruct (Qle_bool v 75) eqn:H4;
    [exists 3%nat; by apply Qle_bool_iff in H4|apply Hgt in H4].
  by exists 4%nat.
Qed.

(** X7.  The two copies of the colour scale agree, and the scale is
    monotone: of two concentrations, the higher one never gets a milder
    class than the lower one, in the order blue, emerald, yellow, orange,
    red. *)
Theorem colour_scale_monotone (v v' : Q) :
  (v <= v')%Q ->
  DailyHeatmap.getColor v = Heatmap.getColor v /\
  exists i j : nat,
    colourScale !! i = Some (Heatmap.getColor v) /\
    colourScale !! j = Some (Heatmap.getColor v') /\ (i <= j)%nat.
Proof.
  intros Hle. split; [reflexivity|].
  destruct (getColor_band v) as (i & Hi & Hv), (getColor_band v') as (j & Hj & Hv').
  exists i, j. split; [done|]. split; [done|].
  apply lookup_lt_Some in Hi, Hj. simpl in Hi, Hj.
  destruct i as [|[|[|[|i]]]], j as [|[|[|[|j]]]]; try lia; exfalso; lra.
Qed.

Lemma colour_scale_monotone_witness :
  DailyHeatmap.getColor 10 = Heatmap.getColor 10 /\
  exists i j : nat,
    colourScale !! i = Some (Heatmap.getColor 10) /\
    colourScale !! j = Some (Heatmap.getColor 80) /\ (i <= j)%nat.
Proof. apply (colour_scale_monotone 10 80). unfold Qle. simpl. lia. Defined.

Lemma getColor_not_grey (v : Q) : Heatmap.getColor v <> "bg-slate-50"%string.
Proof.
  destruct (getColor_band v) as (i & Hi & _). intros Heq. rewrite Heq in Hi.
  destruct i as [|[|[|[|[|i]]]]]; discriminate Hi.
Qed.

(** ** The years and the cells of the month heatmap *)

Lemma elem_of_dedupe (seen xs : list Z) (x : Z) :
  x ∈ Heatmap.dedupe seen xs <-> x ∈ xs /\ x ∉ seen.
Proof.
  revert seen. induction xs as [|y xs IH]; intros seen; simpl.
  - split; [by intros ?%elem_of_nil|]. by intros [?%elem_of_nil _].
  - case_bool_decide as Hy.
    + rewrite IH, elem_of_cons. split; [intros [??]; auto|].
      intros [[->|?] ?]; [done|auto].
    + rewrite !elem_of_cons, IH, elem_of_cons. split.
      * intros [->|[? Hn]]; [auto|]. split; [auto|]. intros ?. apply Hn. auto.
      * intros [[->|?] Hn]; [auto|].
        destruct (decide (x = y)) as [->|Hne]; [auto|].
        right. split; [done|]. by intros [?|?].
Qed.

Lemma NoDup_dedupe (seen xs : list Z) : NoDup (Heatmap.dedupe seen xs).
Proof.
  revert seen. induction xs as [|y xs IH]; intros seen; simpl; [constructor|].
  case_bool_decide; [apply IH|].
  constructor; [|apply IH]. rewrite elem_of_dedupe. intros [_ Hn]. apply Hn. left.
Qed.

Lemma elem_of_years (data : list DataPoint) (y : Z) :
  y ∈ Heatmap.years data <->
  exists d c, d ∈ data /\ JSDate.parse (date d) = Some c /\ JSDate.year c = y.
Proof.
  unfold Heatmap.years. rewrite arraySort_perm, elem_of_dedupe, list_elem_of_omap.
  split.
  - intros [(d & Hd & Hy) _]. destruct (JSDate.parse (date d)) as [c|] eqn:Hc; [|done].
    injection Hy as <-. eauto.
  - intros (d & c & Hd & Hc & <-). split; [|by intros ?%elem_of_nil].
    exists d. split; [done|]. by rewrite Hc.
Qed.

Lemma monthBucket_nonempty (data : list DataPoint) (y m : Z) :
  monthBucket y m data <> [] <->
  exists d c, d ∈ data /\ JSDate.parse (date d) = Some c /\
              JSDate.year c = y /\ JSDate.month c = m.
Proof.
  unfold monthBucket, partition. split.
  - intros Hne.
    destruct (List.filter (inPartition (Z.eqb y) m) data) as [|d l] eqn:Hf; [done|].
    assert (In d (List.filter (inPartition (Z.eqb y) m) data)) as Hin
      by (rewrite Hf; left; done).
    apply filter_In in Hin as [Hin Hd]. unfold inPartition in Hd.
    destruct (JSDate.parse (date d)) as [c|] eqn:Hc; [|done].
    apply andb_true_iff in Hd as [Hy%Z.eqb_eq Hm%Z.eqb_eq].
    exists d, c. by rewrite list_elem_of_In.
  - intros (d & c & Hd & Hc & Hy & Hm) Hnil.
    apply fmap_nil_inv in Hnil.
    assert (In d (List.filter (inPartition (Z.eqb y) m) data)) as Hin.
    { apply filter_In. split; [by apply list_elem_of_In|].
      unfold inPartition. rewrite Hc. subst. by rewrite !Z.eqb_refl. }
    by rewrite Hnil in Hin.
Qed.

(** X8.  The year rows of the month heatmap are exactly the years that
    have data: no year is listed twice, and a year is listed if and only if
    at least one of its twelve cells carries an average. *)
Theorem heatmap_year_rows_have_data (data : list DataPoint) :
  NoDup (Heatmap.matrix data).2 /\
  forall y : Z,
    y ∈ (Heatmap.matrix data).2 <->
    exists m, 0 <= m <= 11 /\
              Heatmap.cellAverage (Heatmap.matrix data) y m <> None.
Proof.
  split.
  - cbn [Heatmap.matrix snd]. unfold Heatmap.years.
    rewrite arraySort_perm. apply NoDup_dedupe.
  - intros y. cbn [Heatmap.matrix snd]. rewrite elem_of_years.
    setoid_rewrite cellAverage_bucket. split.
    + intros (d & c & Hd & Hc & Hy). exists (JSDate.month c).
      pose proof (parse_valid _ _ Hc) as Hv. unfold JSDate.validCivil in Hv.
      rewrite !andb_true_iff, !Z.leb_le in Hv. split; [lia|].
      assert (monthBucket y (JSDate.month c) data <> []) as Hb
        by (apply monthBucket_nonempty; eauto 10).
      by destruct (averageOrNull_mean _ Hb) as (q & -> & _).
    + intros (m & _ & Havg).
      assert (monthBucket y m data <> []) as Hb by (by intros Hb; rewrite Hb in Havg).
      apply monthBucket_nonempty in Hb as (d & c & ? & ? & ? & _). eauto.
Qed.

Lemma averageOrNull_truthy (l : list Q) :
  Heatmap.cellShowsNumber (averageOrNull l) = true <->
  l <> [] /\ ~ (sumQ l == 0)%Q.
Proof.
  destruct l as [|x l]; [by split; [|intros [? _]]|].
  unfold averageOrNull. cbn [length Nat.ltb Nat.leb Heatmap.cellShowsNumber].
  unfold truthy. rewrite negb_true_iff, <- not_true_iff_false, Qeq_bool_iff.
  rewrite reduceSum_sumQ.
  assert (0 < inject_Z (Z.of_nat (length (x :: l))))%Q as Hn
    by (unfold Qlt; simpl; lia).
  split.
  - intros Hne. split; [done|]. intros Hz. apply Hne. rewrite Hz.
    unfold Qdiv. ring.
  - intros [_ Hne] Hz. apply Hne.
    rewrite <- (Qmult_div_r (sumQ (x :: l)) (inject_Z (Z.of_nat (length (x :: l))))).
    + rewrite Hz. ring.
    + intros H0. rewrite H0 in Hn. by apply Qlt_irrefl in Hn.
Qed.

(** X9.  A cell of the month heatmap has the grey class exactly when
    its month has no reading; it shows its average only when, moreover, the
    values of the month do not add up to zero: a month whose readings are
    all 0 is coloured, yet labelled '-' and 'No Data'. *)
Theorem heatmap_cell_colour_and_label (data : list DataPoint) (y m : Z) :
  let avg := Heatmap.cellAverage (Heatmap.matrix data) y m in
  (Heatmap.cellClass avg = "bg-slate-50"%string <-> monthBucket y m data = []) /\
  (Heatmap.cellShowsNumber avg = true <->
   monthBucket y m data <> [] /\ ~ (sumQ (monthBucket y m data) == 0)%Q).
Proof.
  cbn zeta. rewrite cellAverage_bucket. split; [|apply averageOrNull_truthy].
  destruct (monthBucket y m data) as [|v vs]; [done|].
  split; [|done]. intros H. by apply getColor_not_grey in H.
Qed.

(** ** The days of a year *)

Section CalendarFacts.
Import JSDate.

Lemma isLeapYear_spec (y : Z) :
  isLeapYear y = true <-> y mod 4 = 0 /\ (y mod 100 <> 0 \/ y mod 400 = 0).
Proof.
  unfold isLeapYear.
  rewrite andb_true_iff, orb_true_iff, negb_true_iff, !Z.eqb_eq, Z.eqb_neq. done.
Qed.

Lemma daysFromCivil_day (y m d : Z) :
  daysFromCivil y m d = daysFromCivil y m 1 + (d - 1).
Proof. unfold daysFromCivil. cbn zeta. lia. Qed.

Lemma daysFromCivil_next_month (y m : Z) :
  0 <= m < 12 ->
  daysFromCivil y (m + 1) 1 = daysFromCivil y m 1 + daysInMonth y m.
Proof.
  intros Hm.
  assert (m = 0 \/ m = 1 \/ m = 2 \/ m = 3 \/ m = 4 \/ m = 5 \/ m = 6 \/
          m = 7 \/ m = 8 \/ m = 9 \/ m = 10 \/ m = 11) as Hc by lia.
  destruct Hc as [->|[->|Hc]].
  - unfold daysFromCivil, daysInMonth. simpl. div_lia.
  - unfold daysFromCivil, daysInMonth. simpl.
    destruct (isLeapYear y) eqn:Hl.
    + apply isLeapYear_spec in Hl. div_lia.
    + apply not_true_iff_false in Hl. rewrite isLeapYear_spec in Hl. div_lia.
  - unfold daysFromCivil, daysInMonth.
    repeat (destruct Hc as [->|Hc]; [simpl; div_lia|]). subst m. simpl. div_lia.
Qed.

Lemma daysFromCivil_next_year (y : Z) :
  daysFromCivil y 12 1 = daysFromCivil (y + 1) 0 1.
Proof. unfold daysFromCivil. simpl. by replace (y + 1 - 1) with y by lia. Qed.

Lemma year_length (y : Z) :
  daysFromCivil (y + 1) 0 1 - daysFromCivil y 0 1 = daysInYear y.
Proof.
  rewrite <- daysFromCivil_next_year.
  pose proof (fun m H => daysFromCivil_next_month y m H) as Hstep.
  pose proof (Hstep 0 ltac:(lia)) as H0. pose proof (Hstep 1 ltac:(lia)) as H1.
  pose proof (Hstep 2 ltac:(lia)) as H2. pose proof (Hstep 3 ltac:(lia)) as H3.
  pose proof (Hstep 4 ltac:(lia)) as H4. pose proof (Hstep 5 ltac:(lia)) as H5.
  pose proof (Hstep 6 ltac:(lia)) as H6. pose proof (Hstep 7 ltac:(lia)) as H7.
  pose proof (Hstep 8 ltac:(lia)) as H8. pose proof (Hstep 9 ltac:(lia)) as H9.
  pose proof (Hstep 10 ltac:(lia)) as H10. pose proof (Hstep 11 ltac:(lia)) as H11.
  clear Hstep.
  change (daysInMonth y 0) with 31 in H0.
  change (daysInMonth y 1) with (if isLeapYear y then 29 else 28) in H1.
  change (daysInMonth y 2) with 31 in H2. change (daysInMonth y 3) with 30 in H3.
  change (daysInMonth y 4) with 31 in H4. change (daysInMonth y 5) with 30 in H5.
  change (daysInMonth y 6) with 31 in H6. change (daysInMonth y 7) with 31 in H7.
  change (daysInMonth y 8) with 30 in H8. change (daysInMonth y 9) with 31 in H9.
  change (daysInMonth y 10) with 30 in H10. change (daysInMonth y 11) with 31 in H11.
  change (0 + 1) with 1 in H0. change (1 + 1) with 2 in H1.
  change (2 + 1) with 3 in H2. change (3 + 1) with 4 in H3.
  change (4 + 1) with 5 in H4. change (5 + 1) with 6 in H5.
  change (6 + 1) with 7 in H6. change (7 + 1) with 8 in H7.
  change (8 + 1) with 9 in H8. change (9 + 1) with 10 in H9.
  change (10 + 1) with 11 in H10. change (11 + 1) with 12 in H11.
  unfold daysInYear. destruct (isLeapYear y); lia.
Qed.

(** The days of one month are consecutive epoch days. *)
Lemma month_epochDays (y m : Z) :
  epochDay <$> ((fun d => mkCivil y m d) <$> seqZ 1 (daysInMonth y m)) =
  seqZ (daysFromCivil y m 1) (daysInMonth y m).
Proof.
  rewrite <- list_fmap_compose.
  transitivity (Z.add (daysFromCivil y m 1 - 1) <$> seqZ 1 (daysInMonth y m)).
  - apply list_fmap_ext. intros _ d _.
    unfold epochDay. cbn [compose year month day]. rewrite daysFromCivil_day. lia.
  - rewrite fmap_add_seqZ. f_equal. lia.
Qed.

Lemma daysInMonth_pos (y m : Z) : 28 <= daysInMonth y m.
Proof.
  unfold daysInMonth.
  repeat match goal with |- context [if ?b then _ else _] => destruct b end; lia.
Qed.

Lemma months_epochDays (y : Z) (n : nat) (m0 : Z) :
  0 <= m0 -> m0 + Z.of_nat n <= 12 ->
  daysFromCivil y m0 1 <= daysFromCivil y (m0 + Z.of_nat n) 1 /\
  epochDay <$> (m ← seqZ m0 (Z.of_nat n);
                (fun d => mkCivil y m d) <$> seqZ 1 (daysInMonth y m)) =
  seqZ (daysFromCivil y m0 1)
       (daysFromCivil y (m0 + Z.of_nat n) 1 - daysFromCivil y m0 1).
Proof.
  revert m0. induction n as [|n IH]; intros m0 Hm0 Hn.
  - replace (m0 + Z.of_nat 0) with m0 by lia. split; [lia|].
    rewrite Z.sub_diag. done.
  - destruct (IH (m0 + 1) ltac:(lia) ltac:(lia)) as [Hle Heq].
    replace (m0 + 1 + Z.of_nat n) with (m0 + Z.of_nat (S n)) in * by lia.
    pose proof (daysFromCivil_next_month y m0 ltac:(lia)) as Hstep.
    pose proof (daysInMonth_pos y m0) as Hpos.
    split; [lia|].
    rewrite seqZ_cons by lia. rewrite bind_cons, fmap_app, month_epochDays.
    replace (Z.pred (Z.of_nat (S n))) with (Z.of_nat n) by lia.
    replace (Z.succ m0) with (m0 + 1) by lia. rewrite Heq, Hstep.
    replace (daysFromCivil y (m0 + Z.of_nat (S n)) 1 - daysFromCivil y m0 1)
      with (daysInMonth y m0 +
            (daysFromCivil y (m0 + Z.of_nat (S n)) 1
             - (daysFromCivil y m0 1 + daysInMonth y m0))) by lia.
    rewrite seqZ_app by lia. done.
Qed.

(** The days of a year are consecutive epoch days from its 1 January. *)
Lemma eachDayOfYear_epochDays (y : Z) :
  epochDay <$> eachDayOfYear y = seqZ (daysFromCivil y 0 1) (daysInYear y).
Proof.
  unfold eachDayOfYear.
  destruct (months_epochDays y 12 0 ltac:(lia) ltac:(lia)) as [_ Heq].
  change (Z.of_nat 12) with 12 in Heq. rewrite Heq. f_equal.
  change (0 + 12) with 12. rewrite daysFromCivil_next_year. apply year_length.
Qed.

Lemma eachDayOfYear_length (y : Z) :
  Z.of_nat (length (eachDayOfYear y)) = daysInYear y.
Proof.
  rewrite <- (length_fmap epochDay), eachDayOfYear_epochDays, length_seqZ.
  unfold daysInYear. destruct (isLeapYear y); lia.
Qed.

Lemma eachDayOfYear_lookup (y : Z) (j : nat) (c : civil) :
  eachDayOfYear y !! j = Some c -> epochDay c = daysFromCivil y 0 1 + Z.of_nat j.
Proof.
  intros Hc.
  assert ((epochDay <$> eachDayOfYear y) !! j = Some (epochDay c)) as H
    by (by rewrite list_lookup_fmap, Hc).
  rewrite eachDayOfYear_epochDays in H. by apply lookup_seqZ in H as [-> _].
Qed.
End CalendarFacts.

(** ** The day grid *)

Lemma omap_padding {A B} (n : nat) (g : A -> B) (l : list A) :
  omap id (replicate n None ++ ((fun x => Some (g x)) <$> l)) = g <$> l.
Proof.
  rewrite omap_app.
  assert (omap id (replicate n (@None B)) = []) as ->.
  { induction n as [|n IH]; [done|]. exact IH. }
  rewrite app_nil_l. induction l as [|x l IH]; [done|]. csimpl. by rewrite IH.
Qed.

Lemma startDay_weekday (Y : Z) :
  DailyHeatmap.startDay Y =
  (JSDate.daysFromCivil (JSDate.year (JSDate.newDateJan1 Y)) 0 1 + 4) mod 7.
Proof. reflexivity. Qed.

Lemma startDay_range (Y : Z) : 0 <= DailyHeatmap.startDay Y <= 6.
Proof. rewrite startDay_weekday. div_lia. Qed.

(** X10.  For a year that the [Date] object holds in full (-271820 to
    275759) the day grid lists the displayed year day by day: its day
    cells, in order, are the consecutive days from 1 January on, 366 of
    them in a leap year and 365 otherwise, all of that year; with the
    padding the grid holds that many cells more than the weekday index of
    1 January, which makes 53 columns of seven, and 54 in a leap year that
    starts on a Saturday.  The displayed year is the requested one, or
    1900 more for a request from 0 to 99.  For a year whose 1 January the
    [Date] object cannot hold there is no grid: the code throws. *)
Theorem day_frame_covers_year (r : JSDate.release) (data : list DataPoint) (Y : Z) :
  let y := JSDate.year (JSDate.newDateJan1 Y) in
  (-271820 <= y <= 275759 ->
   exists cells,
     DailyHeatmap.calendarData r data Y = Some cells /\
     (fun cell => JSDate.epochDay (DailyHeatmap.ddate cell)) <$> dayCells cells =
       seqZ (JSDate.daysFromCivil y 0 1) (daysInYear y) /\
     Forall (fun cell => JSDate.year (DailyHeatmap.ddate cell) = y) (dayCells cells) /\
     Z.of_nat (length cells) = DailyHeatmap.startDay Y + daysInYear y /\
     gridColumns cells =
       if JSDate.isLeapYear y && (DailyHeatmap.startDay Y =? 6) then 54 else 53) /\
  (y < -271820 \/ 275760 < y -> DailyHeatmap.calendarData r data Y = None).
Proof.
  intros y. split; [|apply calendarData_throws].
  intros Hy. eexists. split; [by apply calendarData_in_range|]. fold y.
  pose proof (startDay_range Y) as Hpad.
  match goal with |- context [length ?c] => assert (Z.of_nat (length c) =
    DailyHeatmap.startDay Y + daysInYear y) as Hlen end.
  { rewrite length_app, length_replicate, length_fmap, Nat2Z.inj_add,
      eachDayOfYear_length. lia. }
  split; [|split; [|split]].
  - unfold dayCells. rewrite omap_padding, <- list_fmap_compose.
    rewrite <- eachDayOfYear_epochDays. by apply list_fmap_ext.
  - unfold dayCells. rewrite omap_padding.
    apply Forall_fmap, Forall_forall. intros c Hc. simpl.
    by apply elem_of_eachDayOfYear in Hc as [? _].
  - exact Hlen.
  - unfold gridColumns. rewrite Hlen. unfold daysInYear.
    destruct (JSDate.isLeapYear y); simpl.
    + destruct (Z.eqb_spec (DailyHeatmap.startDay Y) 6); div_lia.
    + div_lia.
Qed.

Lemma day_frame_covers_year_witness :
  (exists cells,
     DailyHeatmap.calendarData JSDate.DateFns3 weekOfTens 2028 = Some cells /\
     length (dayCells cells) = 366%nat /\
     gridColumns cells = 54) /\
  DailyHeatmap.calendarData JSDate.DateFns3 weekOfTens 275761 = None.
Proof.
  destruct (day_frame_covers_year JSDate.DateFns3 weekOfTens 2028) as [Hin _].
  destruct (day_frame_covers_year JSDate.DateFns3 weekOfTens 275761) as [_ Hout].
  split; [|apply Hout; simpl; lia].
  destruct Hin as (cells & Hcells & Hdays & _ & _ & Hcols); [simpl; lia|].
  exists cells. split; [exact Hcells|]. split; [|exact Hcols].
  rewrite <- (length_fmap (fun cell => JSDate.epochDay (DailyHeatmap.ddate cell))).
  rewrite Hdays. reflexivity.
Defined.

(** X11.  Every day cell sits in the grid row of its weekday, row 0
    being Sunday and row 6 Saturday, whatever the requested year. *)
Theorem day_grid_rows_are_weekdays (r : JSDate.release) (data : list DataPoint)
    (Y : Z) (cells : list (option DailyHeatmap.Day)) (idx : nat)
    (cell : DailyHeatmap.Day) :
  DailyHeatmap.calendarData r data Y = Some cells ->
  cells !! idx = Some (Some cell) ->
  gridRow idx = sundayFirstIndex (dayOfWeek (DailyHeatmap.ddate cell)).
Proof.
  intros (days & Hdays & ->)%calendarData_shape Hcell.
  pose proof (startDay_range Y) as Hpad.
  set (pad := Z.to_nat (DailyHeatmap.startDay Y)) in *.
  destruct (decide (idx < pad)%nat) as [Hlt|Hge].
  { rewrite lookup_app_l in Hcell by (by rewrite length_replicate).
    apply lookup_replicate in Hcell as [? _]. done. }
  rewrite lookup_app_r in Hcell by (rewrite length_replicate; lia).
  rewrite length_replicate, list_lookup_fmap in Hcell.
  destruct Hdays as [->| ->]; [|done].
  destruct (JSDate.eachDayOfYear _ !! (idx - pad)%nat) as [c|] eqn:Hc; [|done].
  injection Hcell as <-. cbn [DailyHeatmap.ddate].
  apply eachDayOfYear_lookup in Hc.
  rewrite <- getDay_dayOfWeek. unfold JSDate.getDay, JSDate.weekdayOfEpochDay, gridRow.
  rewrite Hc. replace (Z.of_nat idx) with (Z.of_nat pad + Z.of_nat (idx - pad)) by lia.
  subst pad. rewrite Z2Nat.id by lia. rewrite startDay_weekday.
  rewrite Zplus_mod_idemp_l. f_equal. lia.
Qed.

Lemma day_grid_rows_are_weekdays_witness :
  exists cells cell,
    DailyHeatmap.calendarData JSDate.DateFns3 weekOfTens 2025 = Some cells /\
    cells !! 4%nat = Some (Some cell) /\
    gridRow 4 = sundayFirstIndex (dayOfWeek (DailyHeatmap.ddate cell)).
Proof.
  destruct (DailyHeatmap.calendarData JSDate.DateFns3 weekOfTens 2025)
    as [cells|] eqn:Hcells; [|vm_compute in Hcells; discriminate].
  destruct (cells !! 4%nat) as [[cell|]|] eqn:Hcell;
    [|vm_compute in Hcells; injection Hcells as <-; vm_compute in Hcell;
      discriminate..].
  exists cells, cell. split; [reflexivity|]. split; [exact Hcell|].
  exact (day_grid_rows_are_weekdays JSDate.DateFns3 weekOfTens 2025 cells 4 cell
           Hcells Hcell).
Defined.

(** ** Date strings *)

Section FormatFacts.
Import JSDate.

Lemma digit_inv (c : ascii) (v : Z) :
  digit c = Some v -> 0 <= v <= 9 /\ c = digitChar v.
Proof.
  unfold digit, digitChar.
  destruct (Z.leb_spec 48 (Z.of_N (N_of_ascii c))); [|done].
  destruct (Z.leb_spec (Z.of_N (N_of_ascii c)) 57); [|done].
  simpl. intros [= <-]. split; [lia|].
  replace (48 + (Z.of_N (N_of_ascii c) - 48)) with (Z.of_N (N_of_ascii c)) by lia.
  by rewrite N2Z.id, ascii_N_embedding.
Qed.

Lemma addLeadingZeros_4_check :
  forallb (fun n => String.eqb (addLeadingZeros n 4) (fourDigits n)) (seqZ 1 9999) = true.
Proof. vm_compute. reflexivity. Qed.

Lemma addLeadingZeros_2_check :
  forallb (fun n => String.eqb (addLeadingZeros n 2) (twoDigits n)) (seqZ 0 100) = true.
Proof. vm_compute. reflexivity. Qed.

Lemma addLeadingZeros_4 (n : Z) :
  1 <= n <= 9999 -> addLeadingZeros n 4 = fourDigits n.
Proof.
  intros Hn. apply String.eqb_eq.
  apply (proj1 (forallb_forall _ _) addLeadingZeros_4_check).
  apply list_elem_of_In, elem_of_seqZ. lia.
Qed.

Lemma addLeadingZeros_2 (n : Z) :
  0 <= n <= 99 -> addLeadingZeros n 2 = twoDigits n.
Proof.
  intros Hn. apply String.eqb_eq.
  apply (proj1 (forallb_forall _ _) addLeadingZeros_2_check).
  apply list_elem_of_In, elem_of_seqZ. lia.
Qed.

(** A string that parses is made of the digits of the fields it yields. *)
Lemma parse_inv (s : string) (c : civil) :
  parse s = Some c ->
  validCivil (year c) (month c) (day c) = true /\ 0 <= year c <= 9999 /\
  s = (fourDigits (year c) +:+ "-" +:+ twoDigits (month c + 1) +:+ "-"
       +:+ twoDigits (day c))%string.
Proof.
  intros Hs. pose proof (parse_valid s c Hs) as Hv. split; [done|].
  unfold parse in Hs.
  destruct s as [|c1 s]; [done|]. destruct s as [|c2 s]; [done|].
  destruct s as [|c3 s]; [done|]. destruct s as [|c4 s]; [done|].
  destruct s as [|sep1 s]; [done|]. destruct s as [|c5 s]; [done|].
  destruct s as [|c6 s]; [done|]. destruct s as [|sep2 s]; [done|].
  destruct s as [|c7 s]; [done|]. destruct s as [|c8 s]; [done|].
  destruct s; [|done].
  destruct (Ascii.eqb_spec sep1 "-") as [->|]; [|done].
  destruct (Ascii.eqb_spec sep2 "-") as [->|]; [|done].
  cbn [andb] in Hs. unfold parseFields in Hs.
  apply bind_Some in Hs as (y1 & [? ->]%digit_inv & Hs).
  apply bind_Some in Hs as (y2 & [? ->]%digit_inv & Hs).
  apply bind_Some in Hs as (y3 & [? ->]%digit_inv & Hs).
  apply bind_Some in Hs as (y4 & [? ->]%digit_inv & Hs).
  apply bind_Some in Hs as (m1 & [? ->]%digit_inv & Hs).
  apply bind_Some in Hs as (m2 & [? ->]%digit_inv & Hs).
  apply bind_Some in Hs as (d1 & [? ->]%digit_inv & Hs).
  apply bind_Some in Hs as (d2 & [? ->]%digit_inv & Hs).
  cbn zeta in Hs. destruct (validCivil _ _ _); [|done]. injection Hs as <-.
  cbn [year month day]. split; [lia|].
  unfold fourDigits, twoDigits.
  replace ((1000 * y1 + 100 * y2 + 10 * y3 + y4) / 1000) with y1 by div_lia.
  replace ((1000 * y1 + 100 * y2 + 10 * y3 + y4) / 100 mod 10) with y2 by div_lia.
  replace ((1000 * y1 + 100 * y2 + 10 * y3 + y4) / 10 mod 10) with y3 by div_lia.
  replace ((1000 * y1 + 100 * y2 + 10 * y3 + y4) mod 10) with y4 by div_lia.
  replace ((10 * m1 + m2 - 1 + 1) / 10) with m1 by div_lia.
  replace ((10 * m1 + m2 - 1 + 1) mod 10) with m2 by div_lia.
  replace ((10 * d1 + d2) / 10) with d1 by div_lia.
  replace ((10 * d1 + d2) mod 10) with d2 by div_lia.
  reflexivity.
Qed.

(** Formatting gives back the string that was parsed (from year 1 on). *)
Lemma format_parse (s : string) (c : civil) :
  parse s = Some c -> 1 <= year c -> format_yyyy_MM_dd c = s.
Proof.
  intros Hs Hy. destruct (parse_inv s c Hs) as (Hv & Hy' & ->).
  unfold validCivil in Hv. rewrite !andb_true_iff, !Z.leb_le in Hv.
  pose proof (daysInMonth_le (year c) (month c)).
  unfold format_yyyy_MM_dd. cbn zeta.
  rewrite (proj2 (Z.ltb_lt 0 (year c))) by lia.
  by rewrite addLeadingZeros_4, !addLeadingZeros_2 by lia.
Qed.

(** Two strings that parse to the same date are the same string. *)
Lemma parse_inj (s1 s2 : string) (c : civil) :
  parse s1 = Some c -> parse s2 = Some c -> s1 = s2.
Proof.
  intros (_ & _ & ->)%parse_inv (_ & _ & ->)%parse_inv. done.
Qed.
End FormatFacts.

(** ** Readings in the day grid *)

Lemma lastReading_elem (data : list DataPoint) (d : DataPoint) :
  d ∈ data -> is_Some (lastReading data (date d)).
Proof.
  induction data as [|d' data IH]; [by intros ?%elem_of_nil|].
  intros [->|Hin]%elem_of_cons; simpl.
  - destruct (lastReading data (date d')); [done|]. by rewrite bool_decide_true.
  - destruct (IH Hin) as [v ->]. done.
Qed.

(** X12.  A reading with a valid date in the displayed year (from the
    year 1 on) is found by the left join: the grid is built, and the cell
    of its day, at the position given by the padding and the day of the
    year, carries the date string of the reading and the value of the
    last reading filed under that string, or [null] when that value is
    0. *)
Theorem day_frame_shows_reading (r : JSDate.release) (data : list DataPoint)
    (Y : Z) (d : DataPoint) (c : JSDate.civil) :
  d ∈ data -> JSDate.parse (date d) = Some c ->
  JSDate.year c = JSDate.year (JSDate.newDateJan1 Y) -> 1 <= JSDate.year c ->
  exists (cells : list (option DailyHeatmap.Day)) (cell : DailyHeatmap.Day) (v : Q),
    DailyHeatmap.calendarData r data Y = Some cells /\
    cells
      !! Z.to_nat (DailyHeatmap.startDay Y
                   + (JSDate.epochDay c - JSDate.daysFromCivil (JSDate.year c) 0 1))
      = Some (Some cell) /\
    DailyHeatmap.ddate cell = c /\ DailyHeatmap.dateStr cell = date d /\
    lastReading data (date d) = Some v /\
    DailyHeatmap.dvalue cell = if Qeq_bool v 0 then None else Some v.
Proof.
  intros Hd Hc Hy Hy1. destruct (lastReading_elem data d Hd) as [v Hv].
  pose proof (parse_valid _ _ Hc) as Hvalid.
  destruct (parse_inv _ _ Hc) as (_ & Hy9 & _).
  assert (c ∈ JSDate.eachDayOfYear (JSDate.year c)) as Hin.
  { destruct c as [y m dd]. by apply validCivil_in_year. }
  apply list_elem_of_lookup_1 in Hin as [j Hj].
  pose proof (eachDayOfYear_lookup _ _ _ Hj) as He.
  pose proof (startDay_range Y) as Hpad.
  replace (Z.to_nat (DailyHeatmap.startDay Y
             + (JSDate.epochDay c - JSDate.daysFromCivil (JSDate.year c) 0 1)))
    with (Z.to_nat (DailyHeatmap.startDay Y) + j)%nat by lia.
  eexists _, _, v. split.
  { apply calendarData_in_range. rewrite <- Hy. lia. }
  cbn zeta. rewrite <- Hy.
  rewrite lookup_app_r by (rewrite length_replicate; lia).
  rewrite length_replicate, list_lookup_fmap.
  replace (Z.to_nat (DailyHeatmap.startDay Y) + j - Z.to_nat (DailyHeatmap.startDay Y))%nat
    with j by lia.
  rewrite Hj. simpl. split; [reflexivity|]. simpl.
  rewrite (format_parse _ _ Hc Hy1), getOrNull_lastReading, Hv. done.
Qed.

Lemma day_frame_shows_reading_witness :
  exists (cells : list (option DailyHeatmap.Day)) (cell : DailyHeatmap.Day) (v : Q),
    DailyHeatmap.calendarData JSDate.DateFns3 weekOfTens 2025 = Some cells /\
    cells
      !! Z.to_nat (DailyHeatmap.startDay 2025
                   + (JSDate.epochDay (JSDate.mkCivil 2025 0 2)
                      - JSDate.daysFromCivil
                          (JSDate.year (JSDate.mkCivil 2025 0 2)) 0 1))
      = Some (Some cell) /\
    DailyHeatmap.ddate cell = JSDate.mkCivil 2025 0 2 /\
    DailyHeatmap.dateStr cell = date (mkDataPoint "2025-01-02" 20) /\
    lastReading weekOfTens (date (mkDataPoint "2025-01-02" 20)) = Some v /\
    DailyHeatmap.dvalue cell = if Qeq_bool v 0 then None else Some v.
Proof.
  apply (day_frame_shows_reading JSDate.DateFns3 weekOfTens 2025
           (mkDataPoint "2025-01-02" 20) (JSDate.mkCivil 2025 0 2)).
  - unfold weekOfTens. rewrite !elem_of_cons. right. left. reflexivity.
  - reflexivity.
  - reflexivity.
  - simpl. lia.
Defined.

(** X13.  In the day grid a cell never carries the value 0, so colour
    and label agree: a day cell has the grey class exactly when its title
    says 'No Data', and it shows a number exactly when it carries a
    value. *)
Theorem day_cell_colour_and_label (r : JSDate.release) (data : list DataPoint)
    (Y : Z) (cells : list (option DailyHeatmap.Day)) (idx : nat)
    (cell : DailyHeatmap.Day) :
  DailyHeatmap.calendarData r data Y = Some cells ->
  cells !! idx = Some (Some cell) ->
  (forall v, DailyHeatmap.dvalue cell = Some v -> ~ (v == 0)%Q) /\
  (DailyHeatmap.dayShowsNumber cell = true <-> DailyHeatmap.dvalue cell <> None) /\
  (DailyHeatmap.dayClass cell = "bg-slate-50 border border-slate-100"%string <->
   DailyHeatmap.dayShowsNumber cell = false).
Proof.
  intros (days & _ & ->)%calendarData_shape Hcell.
  apply list_elem_of_lookup_2, elem_of_app in Hcell as [Hpad|Hday].
  { by apply elem_of_replicate in Hpad as [? _]. }
  apply list_elem_of_fmap in Hday as (c & [= ->] & _).
  unfold DailyHeatmap.dayShowsNumber, DailyHeatmap.dayClass. cbn [DailyHeatmap.dvalue].
  unfold DailyHeatmap.getOrNull.
  destruct (DailyHeatmap.buildDataMap data !! JSDate.format_yyyy_MM_dd c) as [v|];
    [|by repeat split].
  destruct (truthy v) eqn:Hv; [|by repeat split].
  split; [|split].
  - intros ? [= <-] Hz. unfold truthy in Hv.
    apply negb_true_iff in Hv. by rewrite (Qeq_eq_bool _ _ Hz) in Hv.
  - by rewrite Hv.
  - rewrite Hv. split; [|done]. intros H. exfalso. revert H.
    destruct (getColor_band v) as (i & Hi & _). intros Heq.
    change (DailyHeatmap.getColor v) with (Heatmap.getColor v) in Heq.
    rewrite Heq in Hi.
    destruct i as [|[|[|[|[|i]]]]]; discriminate Hi.
Qed.

Lemma day_cell_colour_and_label_witness :
  exists cells cell,
    DailyHeatmap.calendarData JSDate.DateFns3 weekOfTens 2025 = Some cells /\
    cells !! 4%nat = Some (Some cell) /\
    (DailyHeatmap.dayShowsNumber cell = true <-> DailyHeatmap.dvalue cell <> None).
Proof.
  destruct (DailyHeatmap.calendarData JSDate.DateFns3 weekOfTens 2025)
    as [cells|] eqn:Hcells; [|vm_compute in Hcells; discriminate].
  destruct (cells !! 4%nat) as [[cell|]|] eqn:Hcell;
    [|vm_compute in Hcells; injection Hcells as <-; vm_compute in Hcell;
      discriminate..].
  exists cells, cell. split; [reflexivity|]. split; [exact Hcell|].
  exact (proj1 (proj2 (day_cell_colour_and_label JSDate.DateFns3 weekOfTens 2025
                         cells 4 cell Hcells Hcell))).
Defined.

(** ** The order of the year rows *)

Lemma pretty_4_check :
  forallb (fun n => String.eqb (pretty n) (fourDigits n)) (seqZ 1000 9000) = true.
Proof. vm_compute. reflexivity. Qed.

Lemma pretty_fourDigits (n : Z) : 1000 <= n <= 9999 -> pretty n = fourDigits n.
Proof.
  intros Hn. apply String.eqb_eq.
  apply (proj1 (forallb_forall _ _) pretty_4_check).
  apply list_elem_of_In, elem_of_seqZ. lia.
Qed.

Lemma digitChar_compare (a b : Z) :
  0 <= a <= 9 -> 0 <= b <= 9 ->
  Ascii.compare (digitChar a) (digitChar b) = (a ?= b).
Proof.
  intros Ha Hb. unfold Ascii.compare, digitChar.
  rewrite !N_ascii_embedding by lia.
  rewrite Z2N.inj_compare by lia. apply Z.add_compare_mono_l.
Qed.

Lemma fourDigits_compare (a b : Z) :
  0 <= a <= 9999 -> 0 <= b <= 9999 ->
  String.compare (fourDigits a) (fourDigits b) = (a ?= b).
Proof.
  intros Ha Hb. unfold fourDigits. cbn [String.compare].
  rewrite !digitChar_compare by div_lia.
  destruct (Z.compare_spec (a / 1000) (b / 1000));
    [|symmetry; apply Z.compare_lt_iff; div_lia
     |symmetry; apply Z.compare_gt_iff; div_lia].
  destruct (Z.compare_spec (a / 100 mod 10) (b / 100 mod 10));
    [|symmetry; apply Z.compare_lt_iff; div_lia
     |symmetry; apply Z.compare_gt_iff; div_lia].
  destruct (Z.compare_spec (a / 10 mod 10) (b / 10 mod 10));
    [|symmetry; apply Z.compare_lt_iff; div_lia
     |symmetry; apply Z.compare_gt_iff; div_lia].
  destruct (Z.compare_spec (a mod 10) (b mod 10));
    [symmetry; apply Z.compare_eq_iff; div_lia
    |symmetry; apply Z.compare_lt_iff; div_lia
    |symmetry; apply Z.compare_gt_iff; div_lia].
Qed.

Lemma sortsAfter_defaultCompare (x y : Z) :
  1000 <= x <= 9999 -> 1000 <= y <= 9999 ->
  sortsAfter Heatmap.defaultCompare x y = negb (x <=? y).
Proof.
  intros Hx Hy. unfold sortsAfter, sortCompare, Heatmap.defaultCompare.
  rewrite !pretty_fourDigits, fourDigits_compare by lia.
  destruct (Z.compare_spec x y) as [->|Hlt|Hgt]; simpl.
  - by rewrite Z.leb_refl.
  - by rewrite (proj2 (Z.leb_le x y)) by lia.
  - by rewrite (proj2 (Z.leb_gt x y)) by lia.
Qed.

Lemma sorted_NoDup_strict (l : list Z) :
  StronglySorted Z.le l -> NoDup l -> StronglySorted Z.lt l.
Proof.
  induction 1 as [|x l Hl IH Hx]; intros Hnd; [constructor|].
  apply NoDup_cons in Hnd as [Hnx Hnd]. constructor; [by apply IH|].
  rewrite Forall_forall in Hx |- *. intros y Hy.
  assert (x <> y) by (by intros ->). specialize (Hx y Hy). lia.
Qed.

(** X14.  When every valid date of the series has a year of four digits
    (1000 to 9999), the year rows of the month heatmap are in strictly
    ascending order, although the sort compares the years as strings. *)
Theorem heatmap_years_ascending (data : list DataPoint) :
  Forall (fun d => forall c, JSDate.parse (date d) = Some c ->
                             1000 <= JSDate.year c <= 9999)
         data ->
  StronglySorted Z.lt (Heatmap.matrix data).2.
Proof.
  intros H4. cbn [Heatmap.matrix snd]. apply sorted_NoDup_strict.
  - unfold Heatmap.years.
    apply (arraySort_StronglySorted Heatmap.defaultCompare
             (fun y => 1000 <= y <= 9999) Z.le).
    + intros x y z. lia.
    + intros x y Hx Hy. rewrite sortsAfter_defaultCompare by done.
      intros H%negb_true_iff%Z.leb_gt. lia.
    + intros x y Hx Hy. rewrite sortsAfter_defaultCompare by done.
      intros H%negb_false_iff%Z.leb_le. lia.
    + apply Forall_forall. intros y [Hy _]%elem_of_dedupe.
      apply list_elem_of_omap in Hy as (d & Hd & Hy).
      destruct (JSDate.parse (date d)) as [c|] eqn:Hc; [|done].
      injection Hy as <-. rewrite Forall_forall in H4.
      exact (H4 d Hd c Hc).
  - unfold Heatmap.years. rewrite arraySort_perm. apply NoDup_dedupe.
Qed.

Lemma heatmap_years_ascending_witness :
  (Heatmap.matrix threeYears).2 = [2023; 2024; 2025] /\
  StronglySorted Z.lt (Heatmap.matrix threeYears).2.
Proof.
  split; [vm_compute; reflexivity|].
  apply heatmap_years_ascending.
  repeat (constructor;
          [intros c Hc; vm_compute in Hc; injection Hc as <-; simpl; lia|]).
  constructor.
Defined.

(** ** The years and the weeks of the health chart *)

Lemma sortsAfter_descending (x y : Z) :
  sortsAfter (fun a b => Some (inject_Z b - inject_Z a)%Q) x y = negb (y <=? x).
Proof.
  unfold sortsAfter, sortCompare. simpl. f_equal.
  apply eq_true_iff_eq. rewrite Qle_bool_iff, Z.leb_le.
  unfold Qle, Qminus, Qplus, Qopp, inject_Z. simpl. lia.
Qed.

Lemma descendingSort_sorted (l : list Z) :
  StronglySorted Z.ge (arraySort (fun a b => Some (inject_Z b - inject_Z a)%Q) l).
Proof.
  apply (arraySort_StronglySorted _ (fun _ => True) Z.ge).
  - intros x y z. lia.
  - intros x y _ _. rewrite sortsAfter_descending.
    intros H%negb_true_iff%Z.leb_gt. lia.
  - intros x y _ _. rewrite sortsAfter_descending.
    intros H%negb_false_iff%Z.leb_le. lia.
  - by apply Forall_true.
Qed.

Lemma sorted_NoDup_strict_desc (l : list Z) :
  StronglySorted Z.ge l -> NoDup l -> StronglySorted Z.gt l.
Proof.
  induction 1 as [|x l Hl IH Hx]; intros Hnd; [constructor|].
  apply NoDup_cons in Hnd as [Hnx Hnd]. constructor; [by apply IH|].
  rewrite Forall_forall in Hx |- *. intros y Hy.
  assert (x <> y) by (by intros ->). specialize (Hx y Hy). lia.
Qed.

(** X15.  For a province with case data, the year selector of the
    health chart lists exactly the years that have a record, once each,
    latest first.  The chart has rows only for a selected year of that
    list: for any other year both versions return no row, and for a listed
    year and a non-empty PM2.5 series the validation guard passes. *)
Theorem health_years_descending (pm : list DataPoint) (prov : string)
    (hdc : HealthChart.HDCData) (byYear : gmap Z HealthChart.YearHDC) (dis : string)
    (Y : Z) :
  HealthChart.data hdc !! prov = Some byYear ->
  let years := HealthChart.availableYears byYear in
  StronglySorted Z.gt years /\
  (forall y, y ∈ years <-> is_Some (byYear !! y)) /\
  (Y ∉ years ->
   HealthChart.V1.chartData pm prov (Some hdc) dis Y = [] /\
   HealthChart.V2.chartData pm prov (Some hdc) dis Y = []) /\
  (Y ∈ years -> pm <> [] ->
   is_Some (HealthChart.validate pm prov (Some hdc) Y)).
Proof.
  intros Hprov years.
  assert (forall y, y ∈ years <-> is_Some (byYear !! y)) as Hmem.
  { intros y. subst years. unfold HealthChart.availableYears.
    rewrite arraySort_perm, list_elem_of_fmap. split.
    - intros ([y' r] & -> & Hin). apply elem_of_map_to_list in Hin. by exists r.
    - intros [r Hr]. exists (y, r). split; [done|]. by apply elem_of_map_to_list. }
  split; [|split; [done|split]].
  - apply sorted_NoDup_strict_desc; [apply descendingSort_sorted|].
    subst years. unfold HealthChart.availableYears.
    rewrite arraySort_perm. apply NoDup_fst_map_to_list.
  - intros Hnot.
    assert (HealthChart.validate pm prov (Some hdc) Y = None) as Hval.
    { unfold HealthChart.validate. simpl. rewrite Hprov. simpl.
      destruct (byYear !! Y) eqn:HY; [|done].
      exfalso. apply Hnot, Hmem. by rewrite HY. }
    unfold HealthChart.V1.chartData, HealthChart.V2.chartData. by rewrite Hval.
  - intros [r Hr]%Hmem Hpm. unfold HealthChart.validate. simpl.
    rewrite Hprov. simpl. rewrite Hr. simpl. by destruct pm.
Qed.

Lemma health_years_descending_witness :
  HealthChart.availableYears threeYearRecords = [2025; 2024; 2023] /\
  StronglySorted Z.gt (HealthChart.availableYears threeYearRecords) /\
  (HealthChart.V1.chartData firstWeekReading "Chonburi" (Some threeYearHDC)
     "Total" 2022 = [] /\
   HealthChart.V2.chartData firstWeekReading "Chonburi" (Some threeYearHDC)
     "Total" 2022 = []) /\
  is_Some (HealthChart.validate firstWeekReading "Chonburi" (Some threeYearHDC) 2024).
Proof.
  assert (HealthChart.availableYears threeYearRecords = [2025; 2024; 2023]) as Hyears
    by (vm_compute; reflexivity).
  assert (HealthChart.data threeYearHDC !! "Chonburi"%string = Some threeYearRecords)
    as Hprov by (vm_compute; reflexivity).
  destruct (health_years_descending firstWeekReading "Chonburi" threeYearHDC
              threeYearRecords "Total" 2022 Hprov) as (Hsorted & _ & Hother & _).
  destruct (health_years_descending firstWeekReading "Chonburi" threeYearHDC
              threeYearRecords "Total" 2024 Hprov) as (_ & _ & _ & Hlisted).
  split; [exact Hyears|]. split; [exact Hsorted|]. split.
  { apply Hother. rewrite Hyears. intros Hin.
    repeat (apply elem_of_cons in Hin as [Hin|Hin]; [discriminate Hin|]).
    by apply elem_of_nil in Hin. }
  apply Hlisted; [|discriminate].
  rewrite Hyears. apply elem_of_cons. right. apply elem_of_cons. by left.
Defined.

Lemma omap_fmap_sublist {A B C} (f : A -> option B) (g : B -> C) (h : A -> C)
    (l : list A) :
  (forall a b, f a = Some b -> g b = h a) ->
  g <$> omap f l `sublist_of` h <$> l.
Proof.
  intros Hf. induction l as [|a l IH]; csimpl; [done|].
  destruct (f a) as [b|] eqn:Hb.
  - csimpl. rewrite (Hf a b Hb). by apply sublist_skip.
  - by apply sublist_cons.
Qed.

Lemma seqZ_strict (m n : Z) : StronglySorted Z.lt (seqZ m n).
Proof.
  destruct (Z.le_gt_cases 0 n) as [Hn|Hn]; [|rewrite seqZ_nil by lia; constructor].
  rewrite <- (Z2Nat.id n) by lia. generalize (Z.to_nat n). clear n Hn. intros n.
  revert m. induction n as [|n IH]; intros m; [rewrite seqZ_nil by lia; constructor|].
  rewrite seqZ_cons by lia. constructor.
  - replace (Z.pred (Z.of_nat (S n))) with (Z.of_nat n) by lia. apply IH.
  - apply Forall_forall. intros x Hx%elem_of_seqZ. lia.
Qed.

Lemma sublist_strict (l1 l2 : list Z) :
  l1 `sublist_of` l2 -> StronglySorted Z.lt l2 -> StronglySorted Z.lt l1.
Proof.
  induction 1 as [|x l1 l2 Hsub IH|x l1 l2 Hsub IH]; intros Hs; [done|..].
  - inversion Hs as [|? ? Hl2 Hx]; subst. constructor; [by apply IH|].
    rewrite Forall_forall in Hx |- *. intros y Hy. apply Hx.
    by eapply elem_of_sublist.
  - inversion Hs; subst. by apply IH.
Qed.

(** X16.  The rows of the health chart come in ascending week order
    with no week twice: the week numbers of the rows, in order, are picked
    from 1, 2, ..., 53 - in the first version always, in the second one
    when no category of the metadata is called "week". *)
Theorem aligner_rows_in_week_order :
  (forall pm prov hdcData dis Y,
     let weeks := HealthChart.V1.week <$> HealthChart.V1.chartData pm prov hdcData dis Y in
     weeks `sublist_of` seqZ 1 53 /\ StronglySorted Z.lt weeks) /\
  (forall pm prov hdcData dis Y hdc,
     hdcData = Some hdc ->
     "week" ∉ HealthChart.groups (HealthChart.metadata hdc) ->
     exists weeks,
       (fun row => HealthChart.V2.field row "week")
         <$> HealthChart.V2.chartData pm prov hdcData dis Y
       = (fun w => JNum (inject_Z w)) <$> weeks /\
       weeks `sublist_of` seqZ 1 53 /\ StronglySorted Z.lt weeks).
Proof.
  split.
  - intros pm prov hdcData dis Y weeks.
    assert (weeks `sublist_of` seqZ 1 53) as Hsub.
    { subst weeks. unfold HealthChart.V1.chartData.
      destruct (HealthChart.validate pm prov hdcData Y) as [[hdc yearHDC]|];
        [|apply sublist_nil_l].
      change (seqZ 1 53) with (seqZ (1 + 0) 53); rewrite <- (fmap_add_seqZ 1 0 53).
      apply omap_fmap_sublist. intros i row Hrow.
      unfold HealthChart.V1.weekRow in Hrow. destruct (_ || _); [|done].
      injection Hrow as <-. simpl. lia. }
    split; [done|]. eapply sublist_strict; [exact Hsub|apply seqZ_strict].
  - intros pm prov hdcData dis Y hdc -> Hweek.
    unfold HealthChart.V2.chartData.
    destruct (HealthChart.validate pm prov (Some hdc) Y) as [[hdc' yearHDC]|] eqn:Hval.
    2:{ exists []. split; [done|]. split; [apply sublist_nil_l|constructor]. }
    apply validate_Some in Hval as (_ & [= <-] & _).
    set (f := HealthChart.V2.weekRow _ _ _ _).
    exists ((fun i => i + 1) <$> omap (fun i => match f i with Some _ => Some i | None => None end) (seqZ 0 53)).
    split; [|split].
    + rewrite <- list_fmap_compose.
      generalize (seqZ 0 53). intros l. induction l as [|i l IH]; [done|]. csimpl.
      destruct (f i) as [row|] eqn:Hrow; csimpl; [|done]. rewrite IH. f_equal.
      subst f. unfold HealthChart.V2.weekRow in Hrow. destruct (_ || _); [|done].
      injection Hrow as <-. apply mkRow_field.
      by apply (groupLoop_spec (HealthChart.groups (HealthChart.metadata hdc)) yearHDC i).
    + change (seqZ 1 53) with (seqZ (1 + 0) 53); rewrite <- (fmap_add_seqZ 1 0 53).
      apply omap_fmap_sublist. intros i j. destruct (f i); intros [= ->]. lia.
    + eapply sublist_strict; [|apply (seqZ_strict 1 53)].
      change (seqZ 1 53) with (seqZ (1 + 0) 53); rewrite <- (fmap_add_seqZ 1 0 53).
      apply (omap_fmap_sublist _ _ (Z.add 1)). intros i j.
      destruct (f i); intros [= ->]. lia.
Qed.

(** ** The stacked categories *)

Section StackFacts.
Import HealthChart HealthChart.V2.

Lemma groupLoop_counts groups yearHDC i g :
  groupCounts (groupLoop groups yearHDC i) !! g =
  if bool_decide (g ∈ groups) then countAt yearHDC i g else None.
Proof.
  destruct (groupLoop_from groups yearHDC i (mkAcc ∅ 0%Q false)) as (_ & _ & Hgc).
  unfold groupLoop. rewrite Hgc. cbn [groupCounts]. rewrite lookup_empty.
  case_bool_decide as H1; case_bool_decide as H2; try done.
  - by destruct H1.
  - destruct (countAt yearHDC i g) eqn:Hc; [|done]. destruct H1. eauto.
Qed.

Lemma sumQ_omap {A} (f : A -> option Q) (l : list A) :
  (sumQ ((fun a => default 0%Q (f a)) <$> l) == sumQ (omap f l))%Q.
Proof.
  induction l as [|a l IH]; csimpl; [reflexivity|].
  destruct (f a) as [q|]; csimpl; rewrite IH; [reflexivity|ring].
Qed.

Lemma Qeq_refl_eq (x y : Q) : x = y -> (x == y)%Q.
Proof. intros ->. reflexivity. Qed.

Lemma sumQ_ext {A} (f g : A -> Q) (l : list A) :
  (forall a, a ∈ l -> f a = g a) -> sumQ (f <$> l) = sumQ (g <$> l).
Proof.
  intros H. f_equal. apply list_fmap_ext. intros k a Ha. apply H.
  by eapply list_elem_of_lookup_2.
Qed.
End StackFacts.

(** X17.  In the second version of the health chart, with 'Total'
    selected and no category called "week", "pm25" or "cases", the case
    count of a row equals the sum of the category fields that the chart
    stacks for that row, one bar for each entry of the category list. *)
Theorem stacked_categories_sum_to_total pm prov hdcData Y hdc
    (row : HealthChart.V2.Row) :
  hdcData = Some hdc ->
  let groups := HealthChart.groups (HealthChart.metadata hdc) in
  "week" ∉ groups -> "pm25" ∉ groups -> "cases" ∉ groups ->
  row ∈ HealthChart.V2.chartData pm prov hdcData "Total" Y ->
  exists q, HealthChart.V2.field row "cases" = JNum q /\
            (q == sumQ (barValue row <$> groups))%Q.
Proof.
  intros -> groups Hweek Hpm25 Hcases
    (hdc' & yearHDC & i & Hval & Hi & Hrow)%V2_chartData_rows.
  apply validate_Some in Hval as (_ & [= <-] & _). fold groups in Hrow.
  unfold HealthChart.V2.weekRow in Hrow. destruct (_ || _); [|done].
  injection Hrow as <-.
  destruct (groupLoop_spec groups yearHDC i) as (Htot & _ & Hgc).
  exists (HealthChart.V2.totalCases (HealthChart.V2.groupLoop groups yearHDC i)).
  split; [by apply mkRow_field, Hgc|].
  etransitivity; [exact Htot|]. etransitivity; [symmetry; apply sumQ_omap|].
  apply Qeq_refl_eq. symmetry. apply sumQ_ext.
  intros g Hg. unfold barValue, HealthChart.V2.field, HealthChart.V2.mkRow.
  rewrite lookup_union, lookup_fmap, groupLoop_counts, bool_decide_true by done.
  destruct (countAt yearHDC i g) as [n|]; simpl.
  - by rewrite union_Some_l.
  - rewrite (left_id None _).
    rewrite !lookup_insert_ne, lookup_empty by (intros <-; done). done.
Qed.

Lemma stacked_categories_sum_to_total_witness :
  exists row q,
    HealthChart.V2.chartData firstWeekReading "Chonburi" (Some sampleHDC)
      "Total" 2024 !! 0%nat = Some row /\
    HealthChart.V2.field row "cases" = JNum q /\
    (q == sumQ (barValue row <$> HealthChart.groups (HealthChart.metadata sampleHDC)))%Q.
Proof.
  destruct (HealthChart.V2.chartData firstWeekReading "Chonburi" (Some sampleHDC)
              "Total" 2024 !! 0%nat) as [row|] eqn:Hrow;
    [|vm_compute in Hrow; discriminate].
  assert (forall k : string,
            bool_decide (k ∉ HealthChart.groups (HealthChart.metadata sampleHDC)) = true ->
            k ∉ HealthChart.groups (HealthChart.metadata sampleHDC)) as Hnot
    by (intros k; apply bool_decide_eq_true_1).
  destruct (stacked_categories_sum_to_total firstWeekReading "Chonburi"
              (Some sampleHDC) 2024 sampleHDC row eq_refl
              (Hnot "week"%string eq_refl) (Hnot "pm25"%string eq_refl)
              (Hnot "cases"%string eq_refl) (list_elem_of_lookup_2 _ _ _ Hrow))
    as (q & Hq & Hsum).
  exists row, q. split; [reflexivity|]. split; [exact Hq|exact Hsum].
Defined.

(** ** Averages over stations *)

Section AverageFacts.
Import Region6Page.

Lemma pushValue_keys (m : DateMap) (k : string) (v : Q) :
  (pushValue m k v).*1 = if bool_decide (k ∈ m.*1) then m.*1 else m.*1 ++ [k].
Proof.
  induction m as [|[k0 vs] m IH]; [done|]. cbn [pushValue].
  destruct (decide (k0 = k)) as [->|Hne].
  - rewrite bool_decide_true by done. rewrite !fmap_cons. cbn [fst].
    by rewrite bool_decide_true by left.
  - rewrite bool_decide_false by done. rewrite !fmap_cons, IH. cbn [fst].
    destruct (decide (k ∈ m.*1)) as [Hin|Hin].
    + by rewrite !bool_decide_true by (done || by right).
    + rewrite (bool_decide_false (k ∈ m.*1)) by done.
      rewrite bool_decide_false; [done|]. by intros [?|?]%elem_of_cons.
Qed.

Lemma pushValue_NoDup (m : DateMap) (k : string) (v : Q) :
  NoDup m.*1 -> NoDup (pushValue m k v).*1.
Proof.
  intros Hnd. rewrite pushValue_keys. case_bool_decide as Hin; [done|].
  apply NoDup_app. split; [done|]. split; [|apply NoDup_singleton].
  intros x Hx ->%list_elem_of_singleton. done.
Qed.

Lemma pushValue_lookup (m : DateMap) (k : string) (v : Q) :
  NoDup m.*1 ->
  (list_to_map (pushValue m k v) : gmap string (list Q)) =
  <[k := default [] ((list_to_map m : gmap string (list Q)) !! k) ++ [v]]>
    (list_to_map m).
Proof.
  induction m as [|[k0 vs] m IH]; intros Hnd; [done|].
  rewrite fmap_cons in Hnd. apply NoDup_cons in Hnd as [Hk0 Hnd]. cbn [pushValue].
  destruct (decide (k0 = k)) as [->|Hne].
  - rewrite bool_decide_true by done. rewrite !list_to_map_cons.
    rewrite lookup_insert_eq. simpl. by rewrite insert_insert_eq.
  - rewrite bool_decide_false by done. rewrite !list_to_map_cons.
    rewrite lookup_insert_ne by done.
    rewrite (IH Hnd). by rewrite insert_insert_ne.
Qed.

Lemma valuesOn_cons (k : string) (d : DataPoint) (rs : list DataPoint) :
  valuesOn k (d :: rs) =
  (if bool_decide (date d = k) then [value d] else []) ++ valuesOn k rs.
Proof.
  unfold valuesOn. rewrite filter_cons.
  destruct (decide (date d = k)) as [Hk|Hk].
  - by rewrite bool_decide_true.
  - by rewrite bool_decide_false.
Qed.

Lemma pushAll_spec (rs : list DataPoint) (m : DateMap) :
  NoDup m.*1 ->
  let m' := fold_left (fun m d => pushValue m (date d) (value d)) rs m in
  NoDup m'.*1 /\
  (forall k, k ∈ m'.*1 <-> k ∈ m.*1 \/ k ∈ date <$> rs) /\
  (forall k, default [] ((list_to_map m' : gmap string (list Q)) !! k) =
             default [] ((list_to_map m : gmap string (list Q)) !! k)
             ++ valuesOn k rs).
Proof.
  revert m. induction rs as [|d rs IH]; intros m Hnd; cbn [fold_left].
  - split; [done|]. split.
    + intros k. rewrite fmap_nil, elem_of_nil. tauto.
    + intros k. unfold valuesOn. by rewrite filter_nil, fmap_nil, app_nil_r.
  - destruct (IH (pushValue m (date d) (value d)) (pushValue_NoDup _ _ _ Hnd))
      as (Hnd' & Hkeys & Hvals).
    cbn zeta. split; [done|]. split.
    + intros k. rewrite Hkeys, pushValue_keys, fmap_cons, elem_of_cons.
      case_bool_decide as Hin.
      * split; [tauto|]. intros [?|[->|?]]; auto.
      * rewrite elem_of_app, list_elem_of_singleton. tauto.
    + intros k. rewrite Hvals, pushValue_lookup, valuesOn_cons by done.
      destruct (decide (date d = k)) as [->|Hne].
      * rewrite lookup_insert_eq, bool_decide_true by done. simpl.
        by rewrite <- app_assoc.
      * by rewrite lookup_insert_ne, bool_decide_false by done.
Qed.

Lemma collect_flatten (data : PM25Data.t) (stations : list string) (m : DateMap) :
  fold_left (collectStation data) stations m =
  fold_left (fun m d => pushValue m (date d) (value d))
            (stationReadings data stations) m.
Proof.
  revert m. induction stations as [|s stations IH]; intros m; [done|].
  cbn [fold_left]. rewrite IH. unfold stationReadings. rewrite bind_cons.
  by rewrite fold_left_app.
Qed.

Lemma averageData_unguarded (roundedMean : list Q -> Q) (data : PM25Data.t)
    (stations : list string) :
  averageData roundedMean (Some data) stations =
  arraySort TrendChart.compareByDate
    (averageRow roundedMean <$> fold_left (fun m d => pushValue m (date d) (value d))
                      (stationReadings data stations) []).
Proof.
  unfold averageData. destruct stations as [|s stations]; [done|].
  cbn [length Nat.eqb]. by rewrite collect_flatten.
Qed.

Lemma averageRow_date (roundedMean : list Q -> Q) (m : DateMap) :
  date <$> (averageRow roundedMean <$> m) = m.*1.
Proof.
  rewrite <- list_fmap_compose. apply list_fmap_ext. by intros _ [k vs] _.
Qed.

End AverageFacts.

Lemma averageData_dateMap (roundedMean : list Q -> Q) (data : PM25Data.t)
    (stations : list string) :
  exists dateMap : Region6Page.DateMap,
    Region6Page.averageData roundedMean (Some data) stations
      ≡ₚ Region6Page.averageRow roundedMean <$> dateMap /\
    NoDup dateMap.*1 /\
    (forall k, k ∈ dateMap.*1 <-> k ∈ date <$> stationReadings data stations) /\
    (forall k vs, (k, vs) ∈ dateMap -> vs = valuesOn k (stationReadings data stations)).
Proof.
  rewrite averageData_unguarded.
  destruct (pushAll_spec (stationReadings data stations) [] (NoDup_nil_2 (A:=string)))
    as (Hnd & Hkeys & Hvals).
  cbn zeta in Hnd, Hkeys, Hvals.
  eexists. split; [apply arraySort_perm|]. split; [done|]. split.
  - intros k. rewrite Hkeys, fmap_nil, elem_of_nil. tauto.
  - intros k vs Hin. apply (elem_of_list_to_map (M:=gmap string)) in Hin; [|done].
    specialize (Hvals k). by rewrite Hin in Hvals.
Qed.

Lemma averageData_dates (roundedMean : list Q -> Q) (data : PM25Data.t)
    (stations : list string) :
  NoDup (date <$> Region6Page.averageData roundedMean (Some data) stations) /\
  (forall s, s ∈ date <$> Region6Page.averageData roundedMean (Some data) stations <->
             s ∈ date <$> stationReadings data stations).
Proof.
  destruct (averageData_dateMap roundedMean data stations)
    as (dateMap & Hp & Hnd & Hkeys & _).
  split.
  - by rewrite Hp, averageRow_date.
  - intros s. by rewrite Hp, averageRow_date.
Qed.



(** ** The averaged series in date order *)

Section EpochDayFacts.
Import JSDate.

Lemma daysInYear_ge (y : Z) : 365 <= daysInYear y.
Proof. unfold daysInYear. destruct (isLeapYear y); lia. Qed.

Lemma jan1_mono (n : nat) (y : Z) :
  daysFromCivil y 0 1 <= daysFromCivil (y + Z.of_nat n) 0 1.
Proof.
  induction n as [|n IH]; [by replace (y + Z.of_nat 0) with y by lia|].
  pose proof (year_length (y + Z.of_nat n)) as Hlen.
  pose proof (daysInYear_ge (y + Z.of_nat n)).
  replace (y + Z.of_nat (S n)) with (y + Z.of_nat n + 1) by lia. lia.
Qed.

Lemma valid_epochDay_range (c : civil) :
  validCivil (year c) (month c) (day c) = true ->
  exists j : nat,
    eachDayOfYear (year c) !! j = Some c /\
    epochDay c = daysFromCivil (year c) 0 1 + Z.of_nat j /\
    epochDay c < daysFromCivil (year c + 1) 0 1.
Proof.
  intros Hv.
  assert (c ∈ eachDayOfYear (year c)) as Hin
    by (destruct c; by apply validCivil_in_year).
  apply list_elem_of_lookup_1 in Hin as [j Hj]. exists j.
  pose proof (eachDayOfYear_lookup _ _ _ Hj) as He.
  pose proof (lookup_lt_Some _ _ _ Hj) as Hlt.
  pose proof (eachDayOfYear_length (year c)).
  pose proof (year_length (year c)). repeat split; [done|done|lia].
Qed.

(** Distinct calendar dates have distinct epoch days. *)
Lemma epochDay_inj (c1 c2 : civil) :
  validCivil (year c1) (month c1) (day c1) = true ->
  validCivil (year c2) (month c2) (day c2) = true ->
  epochDay c1 = epochDay c2 -> c1 = c2.
Proof.
  intros (j1 & Hj1 & He1 & Hlt1)%valid_epochDay_range
         (j2 & Hj2 & He2 & Hlt2)%valid_epochDay_range Heq.
  assert (year c1 = year c2) as Hy.
  { destruct (Z.lt_trichotomy (year c1) (year c2)) as [Hlt|[?|Hlt]]; [|done|].
    - pose proof (jan1_mono (Z.to_nat (year c2 - (year c1 + 1))) (year c1 + 1)) as H.
      rewrite Z2Nat.id in H by lia.
      replace (year c1 + 1 + (year c2 - (year c1 + 1))) with (year c2) in H by lia.
      lia.
    - pose proof (jan1_mono (Z.to_nat (year c1 - (year c2 + 1))) (year c2 + 1)) as H.
      rewrite Z2Nat.id in H by lia.
      replace (year c2 + 1 + (year c1 - (year c2 + 1))) with (year c1) in H by lia.
      lia. }
  rewrite Hy in *. assert (j1 = j2) as -> by lia. congruence.
Qed.

Lemma timeOf_inj (p1 p2 : DataPoint) (t : Z) :
  TrendChart.timeOf p1 = Some t -> TrendChart.timeOf p2 = Some t -> date p1 = date p2.
Proof.
  unfold TrendChart.timeOf, getTime.
  destruct (parse (date p1)) as [c1|] eqn:H1; [|done].
  destruct (parse (date p2)) as [c2|] eqn:H2; [|done].
  simpl. intros [= <-] [= Heq].
  assert (c1 = c2) as ->.
  { apply epochDay_inj; [by eapply parse_valid..|]. unfold MS_PER_DAY in Heq. lia. }
  by eapply parse_inj.
Qed.
End EpochDayFacts.

Lemma dateSorted_strict (l : list DataPoint) :
  StronglySorted dateLe l -> NoDup (date <$> l) -> StronglySorted dateLt l.
Proof.
  induction 1 as [|x l Hl IH Hx]; intros Hnd; [constructor|].
  rewrite fmap_cons in Hnd. apply NoDup_cons in Hnd as [Hnx Hnd].
  constructor; [by apply IH|].
  rewrite Forall_forall in Hx |- *. intros y Hy.
  destruct (Hx y Hy) as (tx & ty & Htx & Hty & Hle).
  exists tx, ty. split; [done|]. split; [done|].
  assert (tx <> ty); [|lia]. intros ->. apply Hnx.
  rewrite (timeOf_inj x y ty Htx Hty). by apply list_elem_of_fmap_2.
Qed.

Lemma dateSorted_last (l : list DataPoint) (x : DataPoint) :
  StronglySorted dateLe l -> Forall (fun p => is_Some (TrendChart.timeOf p)) l ->
  last l = Some x -> Forall (fun r => dateLe r x) l.
Proof.
  induction 1 as [|y l Hl IH Hy]; intros Hvalid Hlast; [done|].
  apply Forall_cons in Hvalid as [[ty Hty] Hvalid].
  destruct l as [|z l].
  - injection Hlast as <-. constructor; [|done]. exists ty, ty. repeat split; (done || lia).
  - change (last (z :: l) = Some x) in Hlast. constructor; [|by apply IH].
    rewrite Forall_forall in Hy. apply Hy.
    rewrite last_lookup in Hlast. by eapply list_elem_of_lookup_2.
Qed.

(** X19.  When the readings of the listed stations all have valid
    dates, the rows of the averaged series are in strictly ascending date
    order, so that the sort of the trend chart leaves them as they are;
    the latest-reading card, which reads the last row, shows the value of
    the latest date. *)
Theorem station_average_in_date_order (roundedMean : list Q -> Q)
    (data : PM25Data.t) (stations : list string) :
  Forall (fun d => is_Some (JSDate.parse (date d))) (stationReadings data stations) ->
  let rows := Region6Page.averageData roundedMean (Some data) stations in
  StronglySorted dateLt rows /\
  arraySort TrendChart.compareByDate rows = rows /\
  (forall latest,
     last rows = Some latest ->
     Forall (fun r => dateLe r latest) rows /\
     Region6Page.currentLevel rows = value latest).
Proof.
  intros Hvalid rows.
  destruct (averageData_dates roundedMean data stations) as (Hnd & Hkeys).
  fold rows in Hnd, Hkeys.
  assert (Forall (fun p => is_Some (TrendChart.timeOf p)) rows) as Hrows.
  { apply Forall_forall. intros r Hr.
    assert (date r ∈ date <$> rows) as Hd by by apply list_elem_of_fmap_2.
    apply Hkeys in Hd as (d & Hd & Hin)%list_elem_of_fmap.
    rewrite Forall_forall in Hvalid. destruct (Hvalid d Hin) as [c Hc].
    unfold TrendChart.timeOf. rewrite Hd, Hc. by eexists. }
  assert (StronglySorted dateLe rows) as Hsorted.
  { subst rows. rewrite averageData_unguarded in Hrows |- *.
    apply arraySort_byDate_sorted. by rewrite arraySort_perm in Hrows. }
  split; [by apply dateSorted_strict|]. split; [by apply arraySort_ascending|].
  intros latest Hlast. split; [by apply dateSorted_last|].
  unfold Region6Page.currentLevel. rewrite last_lookup in Hlast.
  destruct rows as [|r rows']; [done|]. cbn [length Nat.ltb Nat.leb].
  replace (S (length rows') - 1)%nat with (Init.Nat.pred (length (r :: rows')))
    by (simpl; lia).
  by rewrite Hlast.
Qed.

Lemma station_average_in_date_order_witness :
  StronglySorted dateLt
    (Region6Page.averageData meanQ (Some sampleStations) ["A"; "B"]).
Proof.
  apply (station_average_in_date_order meanQ sampleStations ["A"; "B"]).
  assert (stationReadings sampleStations ["A"; "B"] =
          [ mkDataPoint "2025-01-02" 20; mkDataPoint "2025-01-01" 10;
            mkDataPoint "2025-01-01" 15 ]) as -> by (vm_compute; reflexivity).
  repeat constructor; vm_compute; eauto.
Defined.

(** ** The years offered for the day heatmap *)

Section AppFacts.
Import App.

Lemma elem_of_App_dedupe (seen xs : list (option Z)) (x : option Z) :
  x ∈ dedupe seen xs <-> x ∈ xs /\ x ∉ seen.
Proof.
  revert seen. induction xs as [|y xs IH]; intros seen; simpl.
  - split; [by intros ?%elem_of_nil|]. by intros [?%elem_of_nil _].
  - case_bool_decide as Hy.
    + rewrite IH, elem_of_cons. split; [intros [??]; auto|].
      intros [[->|?] ?]; [done|auto].
    + rewrite !elem_of_cons, IH, elem_of_cons. split.
      * intros [->|[? Hn]]; [auto|]. split; [auto|]. intros ?. apply Hn. auto.
      * intros [[->|?] Hn]; [auto|].
        destruct (decide (x = y)) as [->|Hne]; [auto|].
        right. split; [done|]. by intros [?|?].
Qed.

Lemma NoDup_App_dedupe (seen xs : list (option Z)) : NoDup (dedupe seen xs).
Proof.
  revert seen. induction xs as [|y xs IH]; intros seen; simpl; [constructor|].
  case_bool_decide; [apply IH|].
  constructor; [|apply IH]. rewrite elem_of_App_dedupe. intros [_ Hn]. apply Hn. left.
Qed.

Lemma sortsAfter_compareDescending (x y : Z) :
  sortsAfter compareDescending (Some x) (Some y) = negb (y <=? x).
Proof. apply sortsAfter_descending. Qed.

Lemma compareDescending_sorted (l : list (option Z)) :
  Forall is_Some l -> StronglySorted numGe (arraySort compareDescending l).
Proof.
  apply (arraySort_StronglySorted compareDescending is_Some numGe).
  - intros a b c (x & y & -> & -> & ?) (y' & z & [= <-] & -> & ?).
    exists x, z. repeat split. lia.
  - intros a b [x ->] [y ->]. rewrite sortsAfter_compareDescending.
    intros H%negb_true_iff%Z.leb_gt. exists y, x. repeat split. lia.
  - intros a b [x ->] [y ->]. rewrite sortsAfter_compareDescending.
    intros H%negb_false_iff%Z.leb_le. exists x, y. repeat split. lia.
Qed.

Lemma numbers_of_Some (l : list (option Z)) :
  Forall is_Some l -> l = Some <$> omap id l.
Proof.
  induction 1 as [|a l [x ->] _ IH]; [done|]. csimpl. by rewrite <- IH.
Qed.

Lemma numGe_sorted (l : list Z) :
  StronglySorted numGe (Some <$> l) -> StronglySorted Z.ge l.
Proof.
  induction l as [|x l IH]; [constructor|]. rewrite fmap_cons.
  intros Hs. inversion Hs as [|? ? Hl Hx]; subst. constructor; [by apply IH|].
  rewrite Forall_fmap in Hx. eapply Forall_impl; [exact Hx|].
  intros y (x' & y' & [= <-] & [= <-] & ?). done.
Qed.
End AppFacts.

Lemma yearOf_elem (stationData : list DataPoint) (y : Z) :
  Some y ∈ App.yearOf <$> stationData <->
  exists d c, d ∈ stationData /\ JSDate.parse (date d) = Some c /\ JSDate.year c = y.
Proof.
  rewrite list_elem_of_fmap. unfold App.yearOf. split.
  - intros (d & Hy & Hd). destruct (JSDate.parse (date d)) as [c|] eqn:Hc; [|done].
    injection Hy as ->. eauto.
  - intros (d & c & Hd & Hc & <-). exists d. by rewrite Hc.
Qed.

Lemma availableYears_nonempty (stationData : list DataPoint) :
  App.availableYears stationData <> [].
Proof.
  unfold App.availableYears. destruct stationData as [|d rest]; [done|].
  cbn [length Nat.ltb Nat.leb]. intros Hnil.
  assert (App.yearOf d ∈ arraySort App.compareDescending
            (App.dedupe [] (App.yearOf <$> d :: rest))) as Hin.
  { rewrite arraySort_perm, elem_of_App_dedupe. split; [left|by intros ?%elem_of_nil]. }
  rewrite Hnil in Hin. by apply elem_of_nil in Hin.
Qed.

Lemma availableYears_sorted (stationData : list DataPoint) :
  stationData <> [] ->
  Forall (fun d => is_Some (JSDate.parse (date d))) stationData ->
  exists years : list Z,
    App.availableYears stationData = Some <$> years /\
    StronglySorted Z.gt years /\
    forall y, y ∈ years <->
              exists d c, d ∈ stationData /\ JSDate.parse (date d) = Some c /\
                          JSDate.year c = y.
Proof.
  intros Hne Hvalid. unfold App.availableYears.
  destruct stationData as [|d0 rest]; [done|]. cbn [length Nat.ltb Nat.leb].
  set (data := d0 :: rest) in *.
  set (set := App.dedupe [] (App.yearOf <$> data)).
  assert (Forall is_Some set) as Hsome.
  { apply Forall_forall. intros a [Ha _]%elem_of_App_dedupe.
    apply list_elem_of_fmap in Ha as (d & -> & Hd).
    rewrite Forall_forall in Hvalid. destruct (Hvalid d Hd) as [c Hc].
    unfold App.yearOf. rewrite Hc. by eexists. }
  assert (Forall is_Some (arraySort App.compareDescending set)) as Hsome'
    by (by rewrite arraySort_perm).
  pose proof (numbers_of_Some _ Hsome') as Heq.
  exists (omap id (arraySort App.compareDescending set)).
  split; [done|]. split.
  - apply sorted_NoDup_strict_desc.
    + apply numGe_sorted. rewrite <- Heq. by apply compareDescending_sorted.
    + apply (NoDup_fmap_1 Some). rewrite <- Heq, arraySort_perm.
      apply NoDup_App_dedupe.
  - intros y. rewrite <- yearOf_elem.
    rewrite <- (list_elem_of_fmap_inj Some), <- Heq, arraySort_perm.
    unfold set. rewrite elem_of_App_dedupe. split; [by intros [? _]|].
    intros ?. split; [done|]. by intros ?%elem_of_nil.
Qed.

(** X20.  The list of years offered for the day heatmap is never
    empty: it is the single year 2025 for a station without readings, and
    for readings with valid dates it lists exactly the years that have a
    reading, once each, latest first. *)
Theorem available_years_latest_first (stationData : list DataPoint) :
  App.availableYears stationData <> [] /\
  (stationData = [] -> App.availableYears stationData = [Some 2025]) /\
  (stationData <> [] ->
   Forall (fun d => is_Some (JSDate.parse (date d))) stationData ->
   exists years : list Z,
     App.availableYears stationData = Some <$> years /\
     StronglySorted Z.gt years /\
     forall y, y ∈ years <->
               exists d c, d ∈ stationData /\ JSDate.parse (date d) = Some c /\
                           JSDate.year c = y).
Proof.
  split; [apply availableYears_nonempty|]. split; [by intros ->|].
  apply availableYears_sorted.
Qed.

(** ** The selection effects *)

Lemma effect_head {A} `{EqDecision A} (l : list A) (x : A) :
  let next := if (0 <? length l)%nat && negb (bool_decide (x ∈ l))
              then default x (l !! 0%nat) else x in
  (l <> [] -> next ∈ l) /\ (x ∈ l -> next = x) /\ (l = [] -> next = x) /\
  (l <> [] -> x ∉ l -> l !! 0%nat = Some next).
Proof.
  cbn zeta. destruct l as [|a l].
  - repeat split; done.
  - cbn [length Nat.ltb Nat.leb andb lookup list_lookup default].
    destruct (decide (x ∈ a :: l)) as [Hin|Hin].
    + rewrite bool_decide_true by done. repeat split; try done.
    + rewrite bool_decide_false by done. simpl. repeat split; try done.
      intros _. left.
Qed.

(** X21.  Once the heatmap-year effect has run, the year of the day
    heatmap is one of the offered years; a year that was offered is kept,
    any other is replaced by the first offered year, and running the
    effect again changes nothing.  For a station whose readings have valid
    dates the year then has at least one reading, and a replaced year
    becomes the latest year with data. *)
Theorem heatmap_year_follows_data (stationData : list DataPoint)
    (heatmapYear : option Z) :
  let years := App.availableYears stationData in
  let next := App.heatmapYearEffect years heatmapYear in
  next ∈ years /\
  (heatmapYear ∈ years -> next = heatmapYear) /\
  (heatmapYear ∉ years -> years !! 0%nat = Some next) /\
  App.heatmapYearEffect years next = next /\
  (stationData <> [] ->
   Forall (fun d => is_Some (JSDate.parse (date d))) stationData ->
   exists y d c,
     next = Some y /\ d ∈ stationData /\ JSDate.parse (date d) = Some c /\
     JSDate.year c = y /\
     (heatmapYear ∉ years ->
      Forall (fun d' => forall c', JSDate.parse (date d') = Some c' ->
                                   JSDate.year c' <= y) stationData)).
Proof.
  intros years next.
  pose proof (availableYears_nonempty stationData) as Hne. fold years in Hne.
  assert (forall x, let next := App.heatmapYearEffect years x in
            (years <> [] -> next ∈ years) /\ (x ∈ years -> next = x) /\
            (years = [] -> next = x) /\
            (years <> [] -> x ∉ years -> years !! 0%nat = Some next)) as Heff
    by (intros x; apply (effect_head years x)).
  destruct (Heff heatmapYear) as (Hin & Hkeep & _ & Hhead).
  cbn zeta in Hin, Hkeep, Hhead. fold next in Hin, Hkeep, Hhead.
  split; [by apply Hin|]. split; [done|]. split; [by apply Hhead|]. split.
  - destruct (Heff next) as (_ & Hkeep' & _). apply Hkeep'. by apply Hin.
  - intros Hdata Hvalid.
    destruct (availableYears_sorted stationData Hdata Hvalid)
      as (ys & Hys & Hsorted & Hmem).
    fold years in Hys. specialize (Hin Hne). rewrite Hys in Hin.
    apply list_elem_of_fmap in Hin as (y & Hy & Hyin).
    destruct (proj1 (Hmem y) Hyin) as (d & c & Hd & Hc & Hyc).
    exists y, d, c. repeat split; try done.
    intros Hnot. specialize (Hhead Hne Hnot). rewrite Hy, Hys in Hhead.
    destruct ys as [|y0 ys']; [done|]. injection Hhead as ->.
    apply Forall_forall. intros d' Hd' c' Hc'.
    assert (JSDate.year c' ∈ y :: ys') as Hin' by (apply Hmem; eauto).
    inversion Hsorted as [|? ? _ Hall]; subst.
    apply elem_of_cons in Hin' as [->|Hin']; [lia|].
    rewrite Forall_forall in Hall. specialize (Hall _ Hin'). lia.
Qed.

(** ** The station filters *)

Lemma List_filter_sublist {A} (f : A -> bool) (l : list A) :
  List.filter f l `sublist_of` l.
Proof.
  induction l as [|x l IH]; [done|]. simpl.
  destruct (f x); [by apply sublist_skip|by apply sublist_cons].
Qed.

Lemma elem_of_List_filter {A} (f : A -> bool) (l : list A) (x : A) :
  x ∈ List.filter f l <-> x ∈ l /\ f x = true.
Proof. by rewrite !list_elem_of_In, filter_In. Qed.

Lemma elem_of_stationReadings (data : PM25Data.t) (stations : list string)
    (d : DataPoint) :
  d ∈ stationReadings data stations <->
  exists s ds, s ∈ stations /\ PM25Data.data data !! s = Some ds /\ d ∈ ds.
Proof.
  unfold stationReadings. rewrite list_elem_of_bind. split.
  - intros (s & Hd & Hs). destruct (PM25Data.data data !! s) as [ds|] eqn:Hds.
    + eauto.
    + by apply elem_of_nil in Hd.
  - intros (s & ds & Hs & Hds & Hd). exists s. by rewrite Hds.
Qed.

(** X22.  The stations of the province view are picked, in file
    order, from the stations of region 6, which are picked from the
    stations of the file: a station is in the province view exactly when
    the file lists it with the region "เขตสุขภาพที่ 6" and the selected
    province.  Every date of the province average also has a row in the
    region average. *)
Theorem province_average_within_region (roundedMean : list Q -> Q)
    (data : PM25Data.t) (province : string) :
  let regionStations := Region6Page.region6Stations (Some data) in
  let provinceStations :=
    Region6Page.filteredStations (Some data) regionStations province in
  provinceStations `sublist_of` regionStations /\
  regionStations `sublist_of` PM25Data.stations (PM25Data.metadata data) /\
  (forall s,
     s ∈ provinceStations <->
     s ∈ PM25Data.stations (PM25Data.metadata data) /\
     PM25Data.optLookup (PM25Data.stationRegions (PM25Data.metadata data)) s
       = Some Region6Page.region6 /\
     PM25Data.optLookup (PM25Data.stationProvinces (PM25Data.metadata data)) s
       = Some province) /\
  (forall row,
     row ∈ Region6Page.provinceAverageData roundedMean (Some data) provinceStations ->
     date row ∈ date <$> Region6Page.regionAverageData roundedMean (Some data)
                           regionStations).
Proof.
  intros regionStations provinceStations.
  assert (provinceStations `sublist_of` regionStations) as Hsub
    by apply List_filter_sublist.
  split; [done|]. split; [apply List_filter_sublist|]. split.
  - intros s. subst provinceStations regionStations.
    unfold Region6Page.filteredStations, Region6Page.region6Stations.
    rewrite !elem_of_List_filter, !bool_decide_eq_true. tauto.
  - intros row Hrow.
    unfold Region6Page.provinceAverageData, Region6Page.regionAverageData in *.
    destruct (averageData_dates roundedMean data provinceStations) as (_ & Hp).
    destruct (averageData_dates roundedMean data regionStations) as (_ & Hr).
    apply Hr. apply (list_elem_of_fmap_2 date) in Hrow. apply Hp in Hrow.
    apply list_elem_of_fmap in Hrow as (d & -> & Hd). apply list_elem_of_fmap_2.
    apply elem_of_stationReadings in Hd as (s & ds & Hs & Hds & Hd).
    apply elem_of_stationReadings. exists s, ds. split; [|done].
    by eapply elem_of_sublist.
Qed.

(** X23.  The stations offered by the region and province filters are
    picked, in file order, from the stations of the file, and are all of
    them when both filters are 'All'.  Once the reset effect has run, the
    selected station is one of the offered stations and carries the
    selected region and province, unless no station is offered, in which
    case the selection is left as it was; an offered selection is kept, and
    running the effect again changes nothing. *)
Theorem station_selection_follows_filters (data : PM25Data.t)
    (region province selected : string) :
  let offered := App.filteredStations (Some data) region province in
  let next := App.resetStation offered selected in
  offered `sublist_of` PM25Data.stations (PM25Data.metadata data) /\
  (region = "All"%string -> province = "All"%string ->
   offered = PM25Data.stations (PM25Data.metadata data)) /\
  (offered <> [] ->
   next ∈ offered /\
   (region <> "All"%string ->
    PM25Data.optLookup (PM25Data.stationRegions (PM25Data.metadata data)) next
      = Some region) /\
   (province <> "All"%string ->
    PM25Data.optLookup (PM25Data.stationProvinces (PM25Data.metadata data)) next
      = Some province)) /\
  (selected ∈ offered -> next = selected) /\
  (offered = [] -> next = selected) /\
  App.resetStation offered next = next.
Proof.
  intros offered next.
  assert (forall x, let next := App.resetStation offered x in
            (offered <> [] -> next ∈ offered) /\ (x ∈ offered -> next = x) /\
            (offered = [] -> next = x) /\
            (offered <> [] -> x ∉ offered -> offered !! 0%nat = Some next)) as Heff
    by (intros x; apply (effect_head offered x)).
  destruct (Heff selected) as (Hin & Hkeep & Hnone & _).
  cbn zeta in Hin, Hkeep, Hnone. fold next in Hin, Hkeep, Hnone.
  split; [apply List_filter_sublist|]. split; [|split; [|split; [done|split; [done|]]]].
  - intros -> ->. subst offered. unfold App.filteredStations.
    generalize (PM25Data.stations (PM25Data.metadata data)). intros l.
    induction l as [|s l IH]; [done|]. simpl. by rewrite IH.
  - intros Hne. specialize (Hin Hne). split; [done|].
    subst offered. unfold App.filteredStations in Hin.
    apply elem_of_List_filter in Hin as [_ Hm]. unfold App.matches in Hm.
    apply andb_true_iff in Hm as [Hr Hp]. split.
    + intros Hregion. rewrite bool_decide_true in Hr by done.
      by apply bool_decide_eq_true in Hr.
    + intros Hprov. rewrite bool_decide_true in Hp by done.
      by apply bool_decide_eq_true in Hp.
  - destruct (decide (offered = [])) as [Hnil|Hne].
    + destruct (Heff next) as (_ & _ & Hnone' & _). by apply Hnone'.
    + destruct (Heff next) as (_ & Hkeep' & _). by apply Hkeep', Hin.
Qed.

(** ** The search box *)

Section SelectorFacts.
Import StationSelector.

Lemma prefix_spec (sub s : string) :
  String.prefix sub s = true <-> exists post, s = sub +:+ post.
Proof.
  revert sub. induction s as [|c' s IH]; intros [|c sub]; simpl.
  - split; [intros _; by exists EmptyString|done].
  - split; [done|by intros [? ?]].
  - split; [intros _; by exists (String c' s)|done].
  - destruct (ascii_dec c c') as [->|Hne].
    + rewrite IH. split; intros [post Hp]; exists post.
      * by rewrite Hp.
      * by injection Hp.
    + split; [done|]. intros [post Hp]. by injection Hp as -> _.
Qed.

Lemma includes_spec (s sub : string) :
  includes s sub = true <-> exists pre post, s = pre +:+ sub +:+ post.
Proof.
  induction s as [|c s IH].
  - cbn [includes]. rewrite orb_false_r, prefix_spec. split.
    + intros [post ->]. by exists EmptyString, post.
    + intros ([|? pre] & post & H); [by exists post|done].
  - cbn [includes]. rewrite orb_true_iff, prefix_spec, IH. split.
    + intros [[post ->]|(pre & post & ->)].
      * by exists EmptyString, post.
      * by exists (String c pre), post.
    + intros ([|c' pre] & post & H).
      * left. by exists post.
      * right. injection H as -> ->. by exists pre, post.
Qed.

Lemma string_app_empty_r (s : string) : s +:+ EmptyString = s.
Proof.
  induction s as [|c s IH]; [done|].
  change (String c (s +:+ EmptyString) = String c s). by f_equal.
Qed.

Lemma includes_refl (s : string) : includes s s = true.
Proof.
  apply includes_spec. exists EmptyString, EmptyString.
  change (s = s +:+ EmptyString). by rewrite string_app_empty_r.
Qed.

Lemma includes_empty (s : string) : includes s EmptyString = true.
Proof. apply includes_spec. by exists EmptyString, s. Qed.

Lemma includes_app_l (s a b : string) :
  includes s (a +:+ b) = true -> includes s a = true.
Proof.
  rewrite !includes_spec. intros (pre & post & ->).
  exists pre, (b +:+ post). by rewrite string_app_assoc.
Qed.

Lemma List_filter_mono {A} (f g : A -> bool) (l : list A) :
  (forall x, f x = true -> g x = true) ->
  List.filter f l `sublist_of` List.filter g l.
Proof.
  intros Hfg. induction l as [|x l IH]; [done|]. simpl.
  destruct (f x) eqn:Hf.
  - rewrite (Hfg x Hf). by apply sublist_skip.
  - destruct (g x); [by apply sublist_cons|done].
Qed.

Lemma List_filter_true {A} (f : A -> bool) (l : list A) :
  (forall x, f x = true) -> List.filter f l = l.
Proof.
  intros Hf. induction l as [|x l IH]; [done|]. simpl. by rewrite Hf, IH.
Qed.

Lemma lowerASCII_app (a b : string) :
  lowerASCII (a +:+ b) = lowerASCII a +:+ lowerASCII b.
Proof.
  induction a as [|c a IH]; [done|].
  change (String (lowerAscii c) (lowerASCII (a +:+ b)) =
          String (lowerAscii c) (lowerASCII a +:+ lowerASCII b)). by f_equal.
Qed.
End SelectorFacts.

(** X24.  The search box, for any lower-casing function: what the
    first version finds the second version finds too, and the results are
    picked, in order, from the stations; a station is found by any search
    text that lower-cases to the lower-cased station code; the empty
    search text finds every station when lower-casing maps the empty
    string to itself; and, when lower-casing distributes over
    concatenation, typing further characters only narrows the results. *)
Theorem station_search_results (toLowerCase : string -> string)
    (stations : list string) (stationNames : gmap string string) (search : string) :
  let found := StationSelector.filtered toLowerCase stations search in
  let foundByName :=
    StationSelector.filteredByName toLowerCase stations stationNames search in
  found `sublist_of` foundByName /\ foundByName `sublist_of` stations /\
  (forall s, s ∈ stations -> toLowerCase s = toLowerCase search -> s ∈ found) /\
  (toLowerCase EmptyString = EmptyString -> search = EmptyString ->
   found = stations /\ foundByName = stations) /\
  ((forall a b, toLowerCase (a +:+ b) = toLowerCase a +:+ toLowerCase b) ->
   forall more,
     StationSelector.filtered toLowerCase stations (search +:+ more)
       `sublist_of` found /\
     StationSelector.filteredByName toLowerCase stations stationNames (search +:+ more)
       `sublist_of` foundByName).
Proof.
  intros found foundByName. subst found foundByName.
  unfold StationSelector.filtered, StationSelector.filteredByName.
  split; [|split; [|split; [|split]]].
  - apply List_filter_mono. intros s ->. done.
  - apply List_filter_sublist.
  - intros s Hs Heq. apply elem_of_List_filter. split; [done|].
    rewrite Heq. apply includes_refl.
  - intros Hempty ->. rewrite Hempty. split.
    + apply List_filter_true. intros s. apply includes_empty.
    + apply List_filter_true. intros s. cbn zeta. by rewrite includes_empty.
  - intros Happ more. rewrite Happ. split.
    + apply List_filter_mono. intros s. apply includes_app_l.
    + apply List_filter_mono. intros s. cbn zeta.
      rewrite !orb_true_iff. intros [?|?]; [left|right]; by eapply includes_app_l.
Qed.

Lemma station_search_results_witness :
  StationSelector.filtered lowerASCII ["A"; "B"] EmptyString = ["A"; "B"] /\
  StationSelector.filteredByName lowerASCII ["A"; "B"] ∅ EmptyString = ["A"; "B"].
Proof.
  apply (station_search_results lowerASCII ["A"; "B"] ∅ EmptyString); reflexivity.
Defined.
